(* ===== verification/_CoqProject ===== *)
-Q . S2P
Prelude.v
PyBuiltins.v
Wheel.v
Rearange.v
Pil.v
ImageBuffer.v
Socket.v
ArtNet.v
Session.v
Driver.v
Steps.v
Fixture.v
Script.v
