(* ===== verification/Prelude.v ===== *)
(** * pybrella: a verification development for [src/send_umbrella.py]

    The program drives an LED "umbrella" over an Art-Net-like UDP framing.
    It has five parts: a colour wheel, a pixel remapper, an image
    loader, a datagram sender and the demonstration that drives the
    sender.  This library has a file per part, one for each library the
    parts rest on (the socket, the image library), one for the session
    the sender implements, one for the steps of the demonstration, one
    for the fixtures that receive the datagrams and one for the top
    level of the script, preceded by two files of shared material:

    - [Prelude] (this file): the result type that carries Python
      exceptions as values, with its monad, the relation [result_rel]
      that lifts a relation on values to results and the setoid it gives
      ([Proper] instances of bind and map), bytes as integers in
      [0,256), the notation scope [py_scope], the tactics and hint
      databases the other files use, and the lemmas on masks, lists,
      chunks and folds they share.
    - [PyBuiltins]: the Python built-ins the source calls and whose
      behaviour the theorems depend on: [range], [enumerate], slicing
      [l[i:j]], list repetition [l * n], [bytearray(iterable)] and
      [struct.pack] with the formats [">B"], ["<H"], [">H"].  Their code
      is not part of the repository; they are modelled from the language
      reference, with the error each raises.
    - [Wheel]: [wheel(pos)] (src/send_umbrella.py, lines 35-44), the colour
      wheel.  Integers are unbounded [Z] as in Python and [& 0xFF] is
      [Z.land _ 255], so the behaviour outside [0,255] is modelled too.
      Theorems: every channel is a byte for every integer input; inside
      [0,255] the masks never truncate and the three bands are the linear
      formulas; channels sum to 255; end points and band boundaries;
      neighbouring positions differ by at most 3 per channel; the wheel is
      injective except for wheel(0) = wheel(255); outside the range the
      result is periodic with period 256 within a band.
    - [Rearange]: [rearange(buf)] (lines 47-64), the pixel remapper.  The
      loop over [enumerate(range(0,256,16) + range(8,256,16))] is a
      [foldl] whose accumulator is [nbuf]; the final [bytearray(...)] can
      raise [ValueError].  Theorems: for an input of any length the
      loop gives the 32 segments of the wiring, which [rearange_ref]
      writes without the loop, its ranges and its slices (segment k is
      the eight pixels from 16 k, or from 16 (k - 16) + 8 for the right
      halves, backwards when k is odd); it commutes with [fmap]; on
      256 pixels it is a permutation of the input given by [src_index],
      whose inverse is [wire_pos]; the byte at every wire offset; the
      round trip with [unwire], which reads an image off a wire order,
      in both directions; the result is 768 bytes exactly when every
      channel is a byte; what the function returns on inputs that are
      not 256 pixels long.
    - [Pil]: what the loader uses of the image library, which is not
      part of the repository: the modes with their number of bands,
      decoded images ([image], well formed when they hold width x height
      pixels of one byte per band), and the two calls of the loader.
      [Image_open] looks a name up in a finite map of files, each an
      image, an image whose data are truncated, or undecodable; it is
      lazy as in the library: it identifies the file and returns a
      [handle], and the pixel data are read by [getdata], which raises
      [OSError] on truncated data and otherwise returns the items,
      tuples or, for a mode of one band, plain integers.
    - [ImageBuffer]: [imageToBuffer(fname)] (lines 67-78): [Image_open]
      and [getdata], then [buffer_of_pix], the function from line 70 on:
      the test on [len(pix[0])], the two comprehensions that swap to
      (b,g,r) and drop a fourth band, the 256-pixel guard with its
      all-zero fallback, and the call of [rearange].  Theorems: a result
      is always 768 bytes; the function refines [loader_spec], which
      gives its result for every file by the mode and the size of the
      image; on a 256-pixel image of three or four bands the buffer is
      the image in wire order with channels swapped, and the pixel at a
      given row and column is found at [3 * wire_pos row col]; the
      image is read back off the buffer ([image_of_buffer]); four bands
      give what the first three give; every other size gives the blank
      frame; which exceptions are raised and when.
    - [Socket]: what the sender expects of the UDP socket, as the type
      class [Socket] with laws, and three implementations: [udp], a
      datagram socket that records what it sends, raises
      [OverflowError] for a port outside 0..65535, refuses a payload
      over 65507 bytes and refuses the limited broadcast address while
      [SO_BROADCAST] is off; [flaky], a [udp] socket whose network
      fails after a given number of datagrams; and [no_socket], a
      system on which [socket.socket] raises [OSError].
    - [ArtNet]: the class [ArtNet] (lines 81-108) in [Module ArtNet]: its
      attributes as the record [obj], [__init__] as [init], which
      returns the object or what [socket.socket] raised, [sendrgb] and
      [sendwa] in the result monad with the evaluation order of the
      source (payload, [pack] calls left to right, [sendto], then the
      increment of [seq]).  A call that raises returns no object: the
      caller keeps the one it had, as in the source, where both
      assignments come after the last call that can raise.  [cmd],
      [exec] and [run] describe sequences of calls and [step] is one
      successful call.  Theorems are proved against the [Socket]
      interface: the exact datagram of each method; the invariant [inv]
      of every object reachable from [__init__], by induction on [step];
      the shape of every datagram sent; the trace of a sequence of
      calls; the wrap and the period of the sequence counter; what
      [__init__] returns and when it raises; which exceptions a call
      raises; that a port outside 0..65535 is accepted by [__init__]
      and makes every call fail; that a call does not read the stored
      configuration; that a receiver parses back what was sent.  On the
      [udp] instance every sequence of calls with byte arguments to a
      port returns.
    - [Session]: the sender session of the specification as an abstract
      machine ([session]: a counter and the datagrams sent; [send]:
      what a call may do, network failure included), the relation
      [refines] between an object of the class and a session, and the
      equivalence of objects up to the stored configuration, as an
      [Equiv] with [Proper] instances for the methods.  Theorems: the
      class implements the session, from [__init__] on and for every
      sequence of calls (a simulation proved call by call); on the
      [udp] instance the converse, so that the class does exactly what
      the session does; the invariant of the session carries over to
      the objects; the configuration is never observed.
    - [Driver]: the [__main__] block (lines 113-137).  Its state [world]
      is the sender, a clock that [time.sleep] advances and the clock
      value at each send; [main] follows the block statement by
      statement, from the construction of the sender on, the two [for]
      loops as [for_each] over [range(255)].  [main_stmts] is the same
      block as a list of statements, and [main_stmts_eq] relates the
      two, so that the calls, the datagrams and the timing of the block
      are read off the list.  Theorems: the
      516 calls of the block in order; the datagrams it sends and the
      final sequence number; six seconds slept, all before the ramps; the
      only exception the block can raise is [OSError], from
      [socket.socket] or from [sendto], and on the [udp] instance it
      raises nothing.
    - [Steps]: a transition relation [step] for the statements of the
      block, with the step as a function ([next]), the run as a function
      ([final], [finish]) and the measure [fuel].  A configuration is
      the block before its first line, the exception of a constructor
      that failed, the world with the statements still to run, the world
      the block returned in, or the world a call raised in with its
      exception: what was sent before a failure is part of the state.
      The relation is deterministic and strongly normalising and a run
      ends in [finish], whose result is that of the function: lemmas
      that hold of every list of statements ([run_terminates]).  The
      theorem of the file is about the block: by induction on the run,
      every configuration the block reaches has sent a prefix of the
      516 datagrams, all of them when it has returned and fewer when it
      has raised.
    - [Fixture]: the receiving side, which is not part of the
      repository: a node of twelve fixtures of five channels each on
      universe 3 that replaces its channels by the payload of every
      datagram it can parse ([receive], [decode]).  The network is any
      list of datagrams taken from what the sender has sent: loss,
      repetition and reordering are all allowed.  Theorems: the twelve
      fixtures always show one colour, that of the datagram delivered
      last; on a network that loses nothing the block gives the show of
      colours, flash and ramps it is written for, second by second.
    - [Script]: the top level of the file (lines 25-32 and 113): the
      [import] statements in order, each raising [ModuleNotFoundError]
      when its module is not among the installed ones and [ImportError]
      when the module does not define the name asked for, and the guard
      [if __name__ == "__main__"], as the function [script] and as the
      relation [sstep], which runs one import at a time and then the
      block with the steps of [Steps]; [script_run] relates the two.
      [requirements] lists what the file needs module by module.
      Theorems: the result of the top level case by case, by the
      requirements and the name the file is run under; without
      [colortemp], of which nothing is used, the file raises an import
      error and its run never reaches the block; and the composition of
      all parts: run as a script on a datagram socket, the file gives
      the fixtures the show of the block.

    The files depend on each other as the parts of the program call each
    other: [ImageBuffer] on [Rearange] and [Pil], [ArtNet] on [Socket],
    [Session] and [Driver] on [ArtNet], [Steps] and [Fixture] on
    [Driver], [Script] on [Driver], [Steps] and [Fixture]; all of them on
    [PyBuiltins] and this file.

    Bounds: nothing is truncated.  Integers are [Z]; the only widths are
    the ones the source imposes ([& 0xFF], [% 256], the ranges [pack] and
    [bytearray] check).  No definition takes fuel: every loop of the
    source iterates over a finite list; [Steps.fuel] is the measure of
    the termination proof, not a bound on a definition.  The facts about
    the 256 wire positions and the 16 x 16 grid are checked exhaustively
    by computation ([forall_lt_decide], [forall_grid_check]) and carried
    to arbitrary pixels by the naturality of the loop.

    Every statement of the source is modelled; what the models leave
    out is in the libraries and the machines around it.
    Not modelled: the decoders of the image library (a file of the
    model holds the image it decodes to), its modes whose items are not
    bytes (I, F and the 16-bit modes) and every operation of it the
    loader does not call; arguments that are not integers, which the
    types exclude ([rearange] takes a list of tuples of integers, the
    methods of the sender integers); how a real fixture treats the sequence number
    of a datagram (the model applies every datagram it is given); the
    operating system's UDP stack beyond the [Socket] laws and the rules
    of [udp] ([setsockopt] is taken to succeed, and a host is
    taken to be an address, so that no name is resolved before the port
    is looked at); [time.sleep] beyond the seconds it is
    asked to wait; how Python finds a module beyond the installed
    modules and the names they define; and the content of the module
    [colortemp], which the source imports at line 32 and never uses. *)

From stdpp Require Export base tactics option list numbers strings relations well_founded.

#[global] Open Scope Z_scope.

(** [lia] sees through [/] and [mod] by a constant (the source wraps its
    counter with [% 256]). *)
Ltac Zify.zify_post_hook ::= Z.div_mod_to_equations.

(** ** Notation scope *)

Declare Scope py_scope.
Delimit Scope py_scope with py.
Notation "x .& y" := (Z.land x y) (at level 40, left associativity) : py_scope.
#[global] Open Scope py_scope.

(** ** Python exceptions as values *)

Inductive exn : Set :=
| IndexError
| ValueError
| TypeError
| StructError
| OSError
| OverflowError
| FileNotFoundError
| UnidentifiedImageError
| ImportError
| ModuleNotFoundError.

#[global] Instance exn_eq_dec : EqDecision exn.
Proof. solve_decision. Defined.

Inductive result (A : Type) : Type :=
| Ok (a : A)
| Raise (e : exn).
Arguments Ok {A} a.
Arguments Raise {A} e.

#[global] Instance result_eq_dec `{EqDecision A} : EqDecision (result A).
Proof. solve_decision. Defined.

#[global] Instance result_ret : MRet result := @Ok.
#[global] Instance result_bind : MBind result := λ A B f m,
  match m with Ok a => f a | Raise e => Raise e end.
#[global] Instance result_fmap : FMap result := λ A B f m,
  match m with Ok a => Ok (f a) | Raise e => Raise e end.

#[global] Instance Ok_inj {A} : Inj (=) (=) (@Ok A).
Proof. by intros a b [= ->]. Qed.

Definition is_Ok {A} (m : result A) : Prop := ∃ a, m = Ok a.

(** The value of a result, or a default when it is an exception. *)
Definition from_result {A} (d : A) (m : result A) : A :=
  match m with Ok a => a | Raise _ => d end.

#[global] Instance is_Ok_dec {A} (m : result A) : Decision (is_Ok m).
Proof.
  refine (match m with Ok a => left _ | Raise e => right _ end);
    [by exists a | by intros [??]].
Defined.

(** ** Bytes *)

Definition is_byte (z : Z) : Prop := 0 ≤ z < 256.

#[global] Instance is_byte_dec z : Decision (is_byte z).
Proof. unfold is_byte. apply _. Defined.

Definition is_u16 (z : Z) : Prop := 0 ≤ z < 65536.

#[global] Instance is_u16_dec z : Decision (is_u16 z).
Proof. unfold is_u16. apply _. Defined.

(** ** The result monad *)

Section result_monad.
Context {A B : Type}.
Implicit Types (m : result A) (f : A → result B).

Lemma bind_Ok m f b :
  m ≫= f = Ok b ↔ ∃ a, m = Ok a ∧ f a = Ok b.
Proof.
  unfold mbind, result_bind. destruct m as [a|e]; split.
  - intros Hf. by exists a.
  - by intros (? & [= <-] & Hf).
  - done.
  - by intros (? & ? & _).
Qed.

Lemma bind_Raise m f e :
  m ≫= f = Raise e ↔ m = Raise e ∨ ∃ a, m = Ok a ∧ f a = Raise e.
Proof.
  unfold mbind, result_bind. destruct m as [a|e']; split.
  - intros Hf. right. by exists a.
  - by intros [? | (? & [= <-] & Hf)].
  - intros [= ->]. by left.
  - by intros [[= ->] | (? & ? & _)].
Qed.

Lemma bind_Ok_l (a : A) f : Ok a ≫= f = f a.
Proof. done. Qed.

Lemma bind_Raise_l e f : Raise e ≫= f = Raise e.
Proof. done. Qed.

(** A guard that raises: [if not P: raise e] followed by a result. *)
Lemma guard_Ok (P : Prop) `{!Decision P} (a a' : A) e :
  (if decide P then Ok a else Raise e) = Ok a' ↔ P ∧ a' = a.
Proof.
  case_decide; split; [by intros [= <-] | by intros [_ ->] | done | by intros [? _]].
Qed.

Lemma guard_Raise (P : Prop) `{!Decision P} (a : A) e e' :
  (if decide P then Ok a else Raise e) = Raise e' ↔ ¬ P ∧ e' = e.
Proof.
  case_decide; split; [done | by intros [? _] | by intros [= <-] | by intros [_ ->]].
Qed.

Lemma is_Ok_Ok (a : A) : is_Ok (Ok a).
Proof. by exists a. Qed.

Lemma is_Ok_from_result (d : A) m : is_Ok m → m = Ok (from_result d m).
Proof. by intros [a ->]. Qed.

Lemma not_is_Ok_Raise e : ¬ @is_Ok A (Raise e).
Proof. by intros [??]. Qed.
End result_monad.

(** ** Results up to a relation *)

(** Two results are related when both are values and the values are
    related, or both are the same exception. *)
Inductive result_rel {A B : Type} (R : A → B → Prop) : result A → result B → Prop :=
| result_rel_Ok a b : R a b → result_rel R (Ok a) (Ok b)
| result_rel_Raise e : result_rel R (Raise e) (Raise e).

#[global] Instance result_equiv `{Equiv A} : Equiv (result A) := result_rel (≡).

Section result_rel.
Context {A B A' B' : Type} (R : A → A' → Prop) (S : B → B' → Prop).

Lemma result_rel_Ok_inv a a' : result_rel R (Ok a) (Ok a') → R a a'.
Proof. by inversion 1. Qed.

Lemma result_rel_Ok_l a m' : result_rel R (Ok a) m' → ∃ a', m' = Ok a' ∧ R a a'.
Proof. inversion 1; eauto. Qed.

Lemma result_rel_Raise_l e m' : result_rel R (Raise e) m' → m' = Raise e.
Proof. by inversion 1. Qed.

Lemma result_rel_bind m m' (f : A → result B) (f' : A' → result B') :
  result_rel R m m' → (∀ a a', R a a' → result_rel S (f a) (f' a')) →
  result_rel S (m ≫= f) (m' ≫= f').
Proof. intros [a a' Ha|e] Hf; [by apply Hf | constructor]. Qed.

Lemma result_rel_fmap m m' (f : A → B) (f' : A' → B') :
  result_rel R m m' → (∀ a a', R a a' → S (f a) (f' a')) →
  result_rel S (f <$> m) (f' <$> m').
Proof. intros [a a' Ha|e] Hf; constructor. by apply Hf. Qed.
End result_rel.

Lemma result_rel_eq {A} (m m' : result A) : result_rel (=) m m' ↔ m = m'.
Proof. split; [by intros [?? ->|] | intros ->; destruct m'; by constructor]. Qed.

#[global] Instance result_equivalence `{Equiv A} :
  Equivalence (≡@{A}) → Equivalence (≡@{result A}).
Proof.
  intros HA. split.
  - intros [a|e]; by constructor.
  - intros ?? [a b Hab|e]; by constructor.
  - intros ??? [a b Hab|e] Hbc; inversion_clear Hbc; constructor. by trans b.
Qed.

#[global] Instance Ok_proper `{Equiv A} : Proper ((≡) ==> (≡)) (@Ok A).
Proof. by constructor. Qed.

#[global] Instance result_bind_proper `{Equiv A, Equiv B} :
  Proper (((≡) ==> (≡)) ==> (≡) ==> (≡)) (mbind (M:=result) (A:=A) (B:=B)).
Proof. intros f f' Hf m m' Hm. by apply (result_rel_bind (≡) (≡)). Qed.

#[global] Instance result_fmap_proper `{Equiv A, Equiv B} :
  Proper (((≡) ==> (≡)) ==> (≡) ==> (≡)) (fmap (M:=result) (A:=A) (B:=B)).
Proof. intros f f' Hf m m' Hm. by apply (result_rel_fmap (≡) (≡)). Qed.

(** [mapM] over [result] is a list comprehension whose body can raise:
    it stops at the first item that raises. *)
Section mapM_result.
Context {A B : Type} (f : A → result B).

Lemma mapM_result_nil : mapM f [] = Ok [].
Proof. done. Qed.

Lemma mapM_result_cons x l :
  mapM f (x :: l) = y ← f x; k ← mapM f l; Ok (y :: k).
Proof. done. Qed.

Lemma mapM_result_Ok l k :
  mapM f l = Ok k ↔ Forall2 (λ x y, f x = Ok y) l k.
Proof.
  revert k. induction l as [|x l IH]; intros k.
  - split; [intros [= <-]; constructor | by inversion 1].
  - rewrite mapM_result_cons, bind_Ok. split.
    + intros (y & Hy & Hk). apply bind_Ok in Hk as (k' & Hk' & [= <-]).
      constructor; [done | by apply IH].
    + inversion 1 as [|? y ? k' Hy Hk']; subst.
      exists y. split; [done |]. apply IH in Hk'. by rewrite Hk'.
Qed.

Lemma mapM_result_total l :
  Forall (λ x, is_Ok (f x)) l → is_Ok (mapM f l).
Proof.
  induction 1 as [|x l [y Hy] _ [k Hk]]; [by eexists |].
  exists (y :: k). by rewrite mapM_result_cons, Hy, Hk.
Qed.

Lemma mapM_result_fmap (g : A → B) l :
  Forall (λ x, f x = Ok (g x)) l → mapM f l = Ok (g <$> l).
Proof.
  intros H. apply mapM_result_Ok. induction H; constructor; auto.
Qed.

Lemma mapM_result_fmap_Ok {C} (h : C → A) (g : C → B) (l : list C) :
  Forall (λ x, f (h x) = Ok (g x)) l → mapM f (h <$> l) = Ok (g <$> l).
Proof. intros H. by apply mapM_result_Ok, Forall2_fmap, Forall_Forall2_diag. Qed.

Lemma mapM_result_Forall (P : B → Prop) l k :
  (∀ x y, f x = Ok y → P y) → mapM f l = Ok k → Forall P k.
Proof.
  intros HP H%mapM_result_Ok. induction H; constructor; eauto.
Qed.

Lemma mapM_result_Raise l e :
  mapM f l = Raise e → Exists (λ x, f x = Raise e) l.
Proof.
  induction l as [|x l IH]; [done |].
  rewrite mapM_result_cons. intros [H|(y & _ & H)]%bind_Raise.
  - by left.
  - right. apply IH. by apply bind_Raise in H as [H|(? & _ & ?)].
Qed.

Lemma mapM_result_length l k : mapM f l = Ok k → length k = length l.
Proof. intros H%mapM_result_Ok. by apply Forall2_length in H. Qed.

Lemma mapM_result_Raise_head x l e : f x = Raise e → mapM f (x :: l) = Raise e.
Proof. intros H. by rewrite mapM_result_cons, H. Qed.
End mapM_result.

(** ** Masks and bytes *)

Lemma land_255_mod z : z .& 255 = z `mod` 256.
Proof. change 255 with (Z.ones 8). by rewrite Z.land_ones. Qed.

Lemma land_255_byte z : is_byte (z .& 255).
Proof. rewrite land_255_mod. unfold is_byte. lia. Qed.

Lemma land_255_small z : is_byte z → z .& 255 = z.
Proof. unfold is_byte. intros H. rewrite land_255_mod. lia. Qed.

Lemma is_byte_u16 z : is_byte z → is_u16 z.
Proof. unfold is_byte, is_u16. lia. Qed.

Lemma is_byte_0 : is_byte 0.
Proof. by compute. Qed.

Lemma byte_div_mod z : is_u16 z → is_byte (z `div` 256) ∧ is_byte (z `mod` 256).
Proof. unfold is_u16, is_byte. lia. Qed.

(** ** Lists *)

Section lists.
Context {A : Type}.
Implicit Types (l k : list A) (ls : list (list A)).

(** A loop that appends to its accumulator builds a concatenation. *)
Lemma foldl_app_acc {B} (step : list A → B → list A) (g : B → list A)
    (acc : list A) (xs : list B) :
  (∀ acc x, step acc x = acc ++ g x) →
  foldl step acc xs = acc ++ concat (g <$> xs).
Proof.
  intros Hstep. revert acc. induction xs as [|x xs IH]; intros acc; simpl.
  - by rewrite app_nil_r.
  - by rewrite IH, Hstep, app_assoc.
Qed.

Lemma length_concat_const ls n :
  Forall (λ l, length l = n) ls → length (concat ls) = (length ls * n)%nat.
Proof.
  induction 1 as [|l ls Hl _ IH]; [done |].
  simpl. rewrite length_app, IH, Hl. lia.
Qed.

Lemma concat_replicate_length l n :
  length (concat (replicate n l)) = (n * length l)%nat.
Proof.
  rewrite (length_concat_const _ (length l)), length_replicate; [done |].
  by apply Forall_replicate.
Qed.

Lemma Forall_concat_replicate (P : A → Prop) l n :
  Forall P l → Forall P (concat (replicate n l)).
Proof. intros H. apply Forall_concat. by apply Forall_replicate. Qed.

Lemma fmap_concat {B} (f : A → B) ls :
  f <$> concat ls = concat (fmap (M:=list) f <$> ls).
Proof.
  induction ls as [|l ls IH]; [done |]. simpl. by rewrite fmap_app, IH.
Qed.

(** Lookup in a concatenation of chunks of one size. *)
Lemma lookup_concat_const ls (n i j : nat) :
  Forall (λ l, length l = n) ls → (j < n)%nat →
  concat ls !! (i * n + j)%nat = ls !! i ≫= (.!! j).
Proof.
  intros Hls Hj. revert i. induction Hls as [|l ls Hl _ IH]; intros i; [done |].
  destruct i as [|i]; simpl.
  - apply lookup_app_l. lia.
  - rewrite lookup_app_r by lia. rewrite <-IH. f_equal. lia.
Qed.

Lemma lookup_total_seq_fmap `{!Inhabited A} l :
  (λ i, l !!! i) <$> seq 0 (length l) = l.
Proof.
  apply list_eq. intros i. rewrite list_lookup_fmap.
  destruct (decide (i < length l)%nat) as [Hi|Hi].
  - rewrite lookup_seq_lt by done. simpl.
    by rewrite (list_lookup_lookup_total_lt l i Hi).
  - rewrite lookup_seq_ge by lia. simpl. symmetry.
    apply lookup_ge_None. lia.
Qed.

(** [concat] respects permutations, of the list and of its items. *)
#[export] Instance concat_Permutation : Proper ((≡ₚ) ==> (≡ₚ)) (@concat A).
Proof.
  induction 1 as [|l ls ks _ IH|l k ls|ls ks ms _ IH1 _ IH2]; simpl.
  - done.
  - by rewrite IH.
  - by rewrite !app_assoc, (comm (++) l k).
  - by rewrite IH1.
Qed.

Lemma concat_Permutation_pointwise (ls ks : list (list A)) :
  Forall2 (≡ₚ) ls ks → concat ls ≡ₚ concat ks.
Proof. induction 1 as [|l k ls ks Hlk _ IH]; [done |]. simpl. by rewrite Hlk, IH. Qed.

(** Cutting a list into [n] chunks of [c] items and joining them. *)
Lemma concat_chunks (c n : nat) (l : list A) :
  concat ((λ i : nat, take c (drop (c * i) l)) <$> seq 0 n) = take (c * n) l.
Proof.
  induction n as [|n IH]; [by rewrite Nat.mul_0_r |].
  rewrite seq_S, fmap_app, concat_app, IH. simpl.
  rewrite app_nil_r, take_take_drop. f_equal. lia.
Qed.

(** The first [n] chunks of [c] items of a list. *)
Fixpoint chunks (c n : nat) (l : list A) : list (list A) :=
  match n with
  | O => []
  | S n => take c l :: chunks c n (drop c l)
  end.

Lemma chunks_concat (c : nat) (ls : list (list A)) :
  Forall (λ l, length l = c) ls → chunks c (length ls) (concat ls) = ls.
Proof.
  induction 1 as [|l ls Hl _ IH]; [done |]. simpl.
  by rewrite take_app_length', drop_app_length', IH.
Qed.

Lemma NoDup_incl_Permutation l k :
  NoDup l → Forall (λ x, x ∈ k) l → (length k ≤ length l)%nat → l ≡ₚ k.
Proof.
  intros Hnd Hin Hlen. apply submseteq_length_Permutation; [|done].
  apply NoDup_submseteq; [done | by apply Forall_forall].
Qed.
End lists.

(** ** Step relations *)

(** A property that every step preserves holds of everything reachable. *)
Lemma rtc_invariant {A} (R : relation A) (P : A → Prop) x y :
  (∀ x y, P x → R x y → P y) → P x → rtc R x y → P y.
Proof. intros Hstep Hx Hxy. induction Hxy; eauto. Qed.

(** A relation whose steps decrease a measure has no infinite run. *)
Lemma sn_measure {A} (R : relation A) (m : A → nat) :
  (∀ x y, R x y → (m y < m x)%nat) → ∀ x, sn R x.
Proof.
  intros Hm. apply (wf_projected (<)%nat m); [|apply lt_wf].
  intros x y Hxy. by apply Hm.
Qed.

(** A deterministic relation reaches at most one normal form. *)
Lemma deterministic_nf_unique {A} (R : relation A) x y1 y2 :
  deterministic R → rtc R x y1 → nf R y1 → rtc R x y2 → nf R y2 → y1 = y2.
Proof. intros Hdet. by apply confluent_rtc_nf, deterministic_confluent. Qed.

(** ** Tactics and hints *)

(** Turns hypotheses [m ≫= f = Ok b] into the steps that succeeded. *)
Ltac inv_bind :=
  repeat match goal with
  | H : _ ≫= _ = Ok _ |- _ => apply bind_Ok in H as (? & ? & H)
  | H : Ok _ = Ok _ |- _ => injection H as H
  | H : Raise _ = Ok _ |- _ => discriminate H
  | H : Ok _ = Raise _ |- _ => discriminate H
  end.

(** Case analysis on the [decide] and [bool_decide] of the goal, closing
    the arithmetic side conditions. *)
Ltac case_cond :=
  repeat first [case_decide | case_bool_decide]; try done; try lia.

(** Closes [Forall P [x1; ...; xn]] from the hints of [py]. *)
Ltac solve_Forall :=
  repeat first [apply Forall_nil_2 | apply Forall_cons_2; [by eauto with py|]].

Create HintDb py discriminated.
#[export] Hint Resolve land_255_byte is_byte_0 is_byte_u16 : py.
#[export] Hint Resolve is_Ok_Ok : py.
#[export] Hint Extern 1 (is_byte _) => (unfold is_byte; lia) : py.
#[export] Hint Extern 1 (is_u16 _) => (unfold is_u16; lia) : py.

Create Rewrite HintDb pylen.
#[export] Hint Rewrite @length_app @length_take @length_drop @length_reverse
  @length_replicate @length_fmap @length_seq @length_cons @length_nil : pylen.
