(* ===== verification/PyBuiltins.v ===== *)
(** * The Python built-ins the source calls

    [range], [enumerate], slicing, list repetition, [bytearray] and
    [struct.pack], each with the error it raises, and the lemmas the
    components need about them.  These are modelled from the language
    reference: their code is not part of the repository. *)

From S2P Require Import Prelude.

(** ** [range(start, stop, step)] *)

(** The number of items, as CPython computes it.  [range] raises
    [ValueError] for [step = 0]; no call of the source passes 0 and the
    model returns the empty list there. *)
Definition range_len (start stop step : Z) : Z :=
  if decide (0 < step) then
    if decide (start < stop) then (stop - start - 1) `div` step + 1 else 0
  else if decide (step < 0) then
    if decide (stop < start) then (start - stop - 1) `div` (- step) + 1 else 0
  else 0.

Definition py_range (start stop step : Z) : list Z :=
  (λ k : nat, start + step * Z.of_nat k) <$> seq 0 (Z.to_nat (range_len start stop step)).

(** ** [enumerate(l)] *)

Definition py_enumerate {A} (l : list A) : list (Z * A) :=
  imap (λ i x, (Z.of_nat i, x)) l.

(** ** Slicing [l[i:j]] *)

(** A bound of a slice: negative bounds count from the end, and every
    bound is clamped to [0, len]. *)
Definition slice_index (len i : Z) : Z :=
  if decide (i < 0) then Z.max 0 (i + len) else Z.min i len.

Definition py_slice {A} (l : list A) (i j : Z) : list A :=
  let lo := slice_index (Z.of_nat (length l)) i in
  let hi := slice_index (Z.of_nat (length l)) j in
  take (Z.to_nat (hi - lo)) (drop (Z.to_nat lo) l).

(** ** Indexing [l[i]] *)

Definition py_getitem {A} (l : list A) (i : Z) : result A :=
  let i' := if decide (i < 0) then i + Z.of_nat (length l) else i in
  if decide (0 ≤ i') then
    match l !! Z.to_nat i' with Some x => Ok x | None => Raise IndexError end
  else Raise IndexError.

(** ** [l * n] on lists *)

Definition py_list_mul {A} (l : list A) (n : Z) : list A :=
  concat (replicate (Z.to_nat n) l).

(** ** [bytearray(iterable_of_ints)] *)

Definition bytearray (l : list Z) : result (list Z) :=
  if decide (Forall is_byte l) then Ok l else Raise ValueError.

(** ** Bytes literals *)

(** The bytes of an ASCII literal [b'...']. *)
Definition bytes_of_string (s : string) : list Z :=
  (λ c, Z.of_N (Ascii.N_of_ascii c)) <$> String.list_ascii_of_string s.

(** ** [struct.pack] *)

Definition pack_B (v : Z) : result (list Z) :=
  if decide (is_byte v) then Ok [v] else Raise StructError.

Definition pack_H_le (v : Z) : result (list Z) :=
  if decide (is_u16 v) then Ok [v .& 255; v ≫ 8] else Raise StructError.

Definition pack_H_be (v : Z) : result (list Z) :=
  if decide (is_u16 v) then Ok [v ≫ 8; v .& 255] else Raise StructError.

(** The inverse of [pack], for the round-trip theorems. *)
Definition unpack_B (bs : list Z) : option Z :=
  match bs with [b] => Some b | _ => None end.

Definition unpack_H_le (bs : list Z) : option Z :=
  match bs with [lo; hi] => Some (hi * 256 + lo) | _ => None end.

Definition unpack_H_be (bs : list Z) : option Z :=
  match bs with [hi; lo] => Some (hi * 256 + lo) | _ => None end.

(** ** Lemmas on [range] *)

Section range.
Implicit Types (start stop step x : Z).

Lemma range_len_nonneg start stop step : 0 ≤ range_len start stop step.
Proof. unfold range_len. repeat case_decide; nia. Qed.

Lemma py_range_length start stop step :
  Z.of_nat (length (py_range start stop step)) = range_len start stop step.
Proof.
  unfold py_range. rewrite length_fmap, length_seq.
  pose proof (range_len_nonneg start stop step). lia.
Qed.

Lemma py_range_lookup start stop step (k : nat) :
  Z.of_nat k < range_len start stop step →
  py_range start stop step !! k = Some (start + step * Z.of_nat k).
Proof.
  intros Hk. unfold py_range.
  rewrite list_lookup_fmap, lookup_seq_lt by lia. done.
Qed.

Lemma range_len_pos start stop step (k : Z) :
  0 < step → 0 ≤ k →
  k < range_len start stop step ↔ start + step * k < stop.
Proof.
  intros Hs Hk. unfold range_len.
  rewrite decide_True by done. case_decide; [|nia].
  split; intros H'; nia.
Qed.

(** For a positive step the items are the [x] of [[start, stop)] that
    are [start] modulo [step]. *)
Lemma elem_of_py_range start stop step x :
  0 < step →
  x ∈ py_range start stop step ↔
  start ≤ x < stop ∧ (x - start) `mod` step = 0.
Proof.
  intros Hs. unfold py_range. rewrite list_elem_of_fmap. split.
  - intros (k & -> & Hk%elem_of_seq).
    assert (Z.of_nat k < range_len start stop step) as Hlt by lia.
    apply range_len_pos in Hlt; [|lia..].
    split; [nia |]. replace (start + step * Z.of_nat k - start) with (Z.of_nat k * step) by lia.
    apply Z_mod_mult.
  - intros [Hx Hm]. exists (Z.to_nat ((x - start) `div` step)).
    assert (x = start + step * ((x - start) `div` step)) as Hq by lia.
    assert (0 ≤ (x - start) `div` step) as Hq0 by (apply Z.div_pos; lia).
    split; [lia |]. apply elem_of_seq.
    assert ((x - start) `div` step < range_len start stop step); [|lia].
    apply range_len_pos; lia.
Qed.

Lemma py_range_NoDup start stop step : step ≠ 0 → NoDup (py_range start stop step).
Proof.
  intros Hs. unfold py_range. apply NoDup_fmap_2; [|apply NoDup_seq].
  intros k1 k2 Hk. nia.
Qed.
End range.

(** ** Lemmas on [enumerate] and slices *)

Section seqs.
Context {A : Type}.
Implicit Types (l : list A) (i j : Z).

Lemma py_enumerate_length l : length (py_enumerate l) = length l.
Proof. apply length_imap. Qed.

Lemma py_enumerate_lookup l (k : nat) :
  py_enumerate l !! k = (λ x, (Z.of_nat k, x)) <$> l !! k.
Proof. unfold py_enumerate. by rewrite list_lookup_imap. Qed.

Lemma py_enumerate_snd l : (py_enumerate l).*2 = l.
Proof.
  apply list_eq. intros k.
  rewrite list_lookup_fmap, py_enumerate_lookup. by destruct (l !! k).
Qed.

Lemma slice_index_range len i : 0 ≤ len → 0 ≤ slice_index len i ≤ len.
Proof. unfold slice_index. case_cond. Qed.

(** With bounds [0 ≤ i ≤ j], as in every slice of the source, the
    slice is [take (j - i) (drop i l)], whatever the length of [l]. *)
Lemma py_slice_nonneg l i j :
  0 ≤ i ≤ j → py_slice l i j = take (Z.to_nat (j - i)) (drop (Z.to_nat i) l).
Proof.
  intros Hij. unfold py_slice, slice_index.
  rewrite !decide_False by lia.
  destruct (decide (i ≤ Z.of_nat (length l))) as [Hi|Hi].
  - replace (i `min` Z.of_nat (length l)) with i by lia.
    destruct (decide (j ≤ Z.of_nat (length l))) as [Hj|Hj].
    + by replace (j `min` Z.of_nat (length l)) with j by lia.
    + rewrite !take_ge; [done | rewrite length_drop; lia..].
  - rewrite !drop_ge by lia. by rewrite !take_nil.
Qed.

Lemma py_slice_length_le l i j : 0 ≤ i ≤ j → (length (py_slice l i j) ≤ Z.to_nat (j - i))%nat.
Proof. intros Hij. rewrite py_slice_nonneg, length_take by done. lia. Qed.

Lemma py_slice_length l i j :
  0 ≤ i ≤ j → j ≤ Z.of_nat (length l) → length (py_slice l i j) = Z.to_nat (j - i).
Proof.
  intros Hij Hj. rewrite py_slice_nonneg, length_take, length_drop by done. lia.
Qed.

Lemma py_slice_fmap {B} (f : A → B) l i j :
  f <$> py_slice l i j = py_slice (f <$> l) i j.
Proof. unfold py_slice. by rewrite fmap_take, fmap_drop, length_fmap. Qed.

Lemma py_slice_lookup l i j (k : nat) :
  0 ≤ i ≤ j → Z.of_nat k < j - i →
  py_slice l i j !! k = l !! (Z.to_nat i + k)%nat.
Proof.
  intros Hij Hk. rewrite py_slice_nonneg by done.
  rewrite lookup_take_lt by lia. apply lookup_drop.
Qed.

Lemma py_getitem_0 l : py_getitem l 0 = from_option Ok (Raise IndexError) (head l).
Proof. by destruct l. Qed.

Lemma py_list_mul_length l n :
  length (py_list_mul l n) = (Z.to_nat n * length l)%nat.
Proof. apply concat_replicate_length. Qed.

Lemma py_list_mul_Forall (P : A → Prop) l n :
  Forall P l → Forall P (py_list_mul l n).
Proof. apply Forall_concat_replicate. Qed.
End seqs.

(** ** Lemmas on [bytearray] and [pack] *)

Section bytes.
Implicit Types (l bs : list Z) (v : Z).

Lemma bytearray_Ok l bs : bytearray l = Ok bs ↔ Forall is_byte l ∧ bs = l.
Proof. apply guard_Ok. Qed.

Lemma bytearray_Raise l e :
  bytearray l = Raise e ↔ Exists (λ z, ¬ is_byte z) l ∧ e = ValueError.
Proof.
  unfold bytearray. rewrite guard_Raise.
  split; intros [H ->]; (split; [|done]).
  - apply not_Forall_Exists; [apply _ | done].
  - by apply Exists_not_Forall.
Qed.

Lemma bytearray_bytes l : Forall is_byte l → bytearray l = Ok l.
Proof. intros H. by apply bytearray_Ok. Qed.

Lemma pack_B_Ok v bs : pack_B v = Ok bs ↔ is_byte v ∧ bs = [v].
Proof. apply guard_Ok. Qed.

Lemma shiftr_8_byte v : is_u16 v → is_byte (v ≫ 8).
Proof. intros H. rewrite Z.shiftr_div_pow2 by lia. apply byte_div_mod, H. Qed.

Lemma pack_H_le_Ok v bs :
  pack_H_le v = Ok bs ↔ is_u16 v ∧ bs = [v `mod` 256; v `div` 256].
Proof.
  unfold pack_H_le. rewrite land_255_mod, Z.shiftr_div_pow2 by lia.
  apply guard_Ok.
Qed.

Lemma pack_H_be_Ok v bs :
  pack_H_be v = Ok bs ↔ is_u16 v ∧ bs = [v `div` 256; v `mod` 256].
Proof.
  unfold pack_H_be. rewrite land_255_mod, Z.shiftr_div_pow2 by lia.
  apply guard_Ok.
Qed.

Lemma bytes_of_string_bytes s : Forall is_byte (bytes_of_string s).
Proof.
  unfold bytes_of_string. apply Forall_fmap, Forall_forall. intros c _. simpl.
  pose proof (Ascii.N_ascii_bounded c). unfold is_byte. lia.
Qed.

Lemma py_list_mul_Forall_inv (P : Z → Prop) l n :
  0 < n → Forall P (py_list_mul l n) → Forall P l.
Proof.
  intros Hn. unfold py_list_mul.
  destruct (Z.to_nat n) as [|k] eqn:Hk; [lia |]. simpl.
  by intros [? _]%Forall_app.
Qed.

Lemma pack_B_bytes v bs : pack_B v = Ok bs → Forall is_byte bs ∧ length bs = 1%nat.
Proof. intros [? ->]%pack_B_Ok. split; [solve_Forall | done]. Qed.

Lemma pack_H_le_bytes v bs :
  pack_H_le v = Ok bs → Forall is_byte bs ∧ length bs = 2%nat.
Proof.
  intros [[??]%byte_div_mod ->]%pack_H_le_Ok. split; [solve_Forall | done].
Qed.

Lemma pack_H_be_bytes v bs :
  pack_H_be v = Ok bs → Forall is_byte bs ∧ length bs = 2%nat.
Proof.
  intros [[??]%byte_div_mod ->]%pack_H_be_Ok. split; [solve_Forall | done].
Qed.
End bytes.

#[export] Hint Resolve shiftr_8_byte : py.
#[export] Hint Rewrite @py_enumerate_length @py_list_mul_length : pylen.
