(* ===== verification/Wheel.v ===== *)
(** * The colour wheel: [wheel(pos)]

    [wheel] follows the source branch by branch on unbounded integers.
    [wheel_ref] is the unmasked piecewise-linear curve in terms of the
    argument itself; the theorems relate the two on [0,255] and describe
    what the masks do outside. *)

From S2P Require Import Prelude.

(** ** The function *)

Definition wheel (pos : Z) : list Z :=
  let pos := 255 - pos in
  if decide (pos < 85) then
    [(255 - pos * 3) .& 255; 0; (pos * 3) .& 255]
  else if decide (pos < 170) then
    let pos := pos - 85 in
    [0; (pos * 3) .& 255; (255 - pos * 3) .& 255]
  else
    let pos := pos - 170 in
    [(pos * 3) .& 255; (255 - pos * 3) .& 255; 0].

(** ** Reference curve *)

(** Red to green on [0,85], green to blue on (85,170], blue back to red
    on (170,255], with no truncation. *)
Definition wheel_ref (pos : Z) : list Z :=
  if decide (170 < pos) then [3 * pos - 510; 0; 765 - 3 * pos]
  else if decide (85 < pos) then [0; 510 - 3 * pos; 3 * pos - 255]
  else [255 - 3 * pos; 3 * pos; 0].

Definition channel_sum (c : list Z) : Z := foldr Z.add 0 c.

(** Two colours are close when every channel differs by at most [d]. *)
Definition close_by (d : Z) (c1 c2 : list Z) : Prop :=
  Forall2 (λ a b, Z.abs (a - b) ≤ d) c1 c2.

(** ** Helper lemmas *)

Lemma land_255_shift z k : (z + 256 * k) .& 255 = z .& 255.
Proof. rewrite !land_255_mod. lia. Qed.

(** Unfolds [wheel] and [wheel_ref], splits on the band tests and removes
    the masks that cannot truncate. *)
Ltac wheel_cases :=
  unfold wheel, wheel_ref; cbv zeta;
  repeat case_decide; try lia;
  rewrite ?land_255_small by (unfold is_byte; lia).

Lemma wheel_length pos : length (wheel pos) = 3%nat.
Proof. unfold wheel. by repeat case_decide. Qed.

Lemma wheel_unmasked pos : 0 ≤ pos ≤ 255 → wheel pos = wheel_ref pos.
Proof. intros Hpos. wheel_cases; repeat (f_equal; try lia). Qed.

Lemma wheel_ref_bytes pos : 0 ≤ pos ≤ 255 → Forall is_byte (wheel_ref pos).
Proof. intros Hpos. unfold wheel_ref. repeat case_decide; solve_Forall. Qed.

(** ** Theorems *)

(** C10. For every position in [0,255] the masks of [wheel] never
    truncate: the result is the piecewise-linear reference curve, whose
    channels are bytes on that range. *)
Theorem wheel_in_range pos :
  0 ≤ pos ≤ 255 → wheel pos = wheel_ref pos ∧ Forall is_byte (wheel_ref pos).
Proof. intros Hpos. split; [by apply wheel_unmasked | by apply wheel_ref_bytes]. Qed.

Lemma wheel_in_range_witness :
  wheel 100 = wheel_ref 100 ∧ Forall is_byte (wheel_ref 100).
Proof. apply (wheel_in_range 100). lia. Defined.

(** C40. For every integer position, in range or not, [wheel] returns
    three channels and each is a byte. *)
Theorem wheel_bytes pos : length (wheel pos) = 3%nat ∧ Forall is_byte (wheel pos).
Proof.
  split; [apply wheel_length |].
  unfold wheel. repeat case_decide; solve_Forall.
Qed.

(** On [0,255] the three channels sum to 255: the wheel keeps the
    total intensity constant. *)
Theorem wheel_sum pos : 0 ≤ pos ≤ 255 → channel_sum (wheel pos) = 255.
Proof.
  intros Hpos. rewrite wheel_unmasked by done.
  unfold wheel_ref, channel_sum. repeat case_decide; simpl; lia.
Qed.

Lemma wheel_sum_witness : channel_sum (wheel 200) = 255.
Proof. apply (wheel_sum 200). lia. Defined.

(** The end points and the band boundaries: positions 0 and 255 are
    both pure red, 85 is pure green and 170 is pure blue. *)
Theorem wheel_endpoints :
  wheel 0 = [255; 0; 0] ∧ wheel 255 = [255; 0; 0] ∧
  wheel 85 = [0; 255; 0] ∧ wheel 170 = [0; 0; 255].
Proof. by vm_compute. Qed.

(** Neighbouring positions give neighbouring colours: from [pos] to
    [pos + 1] no channel moves by more than 3, across the band boundaries
    too. *)
Theorem wheel_smooth pos :
  0 ≤ pos < 255 → close_by 3 (wheel pos) (wheel (pos + 1)).
Proof.
  intros Hpos. rewrite !wheel_unmasked by lia.
  unfold close_by, wheel_ref.
  repeat case_decide; try lia; repeat (constructor; [lia|]); constructor.
Qed.

Lemma wheel_smooth_witness : close_by 3 (wheel 170) (wheel (170 + 1)).
Proof. apply (wheel_smooth 170). lia. Defined.

(** The wheel is injective on [0,254]: together with
    [wheel 255 = wheel 0] the 256 positions give exactly 255 colours. *)
Theorem wheel_inj p q :
  0 ≤ p ≤ 254 → 0 ≤ q ≤ 254 → p ≠ q → wheel p ≠ wheel q.
Proof.
  intros Hp Hq Hpq. rewrite !wheel_unmasked by lia.
  unfold wheel_ref. repeat case_decide; intros [= ]; lia.
Qed.

Lemma wheel_inj_witness : wheel 85 ≠ wheel 86.
Proof. apply (wheel_inj 85 86); lia. Defined.

(** Below the range the masks wrap: for [pos ≤ 85] (third branch of the
    source) moving down by 256 does not change the colour. *)
Lemma wheel_wrap_low pos : pos ≤ 85 → wheel (pos - 256) = wheel pos.
Proof.
  intros Hpos. unfold wheel; cbv zeta. rewrite !decide_False by lia.
  replace ((255 - (pos - 256) - 170) * 3) with ((255 - pos - 170) * 3 + 256 * 3) by lia.
  replace (255 - ((255 - pos - 170) * 3 + 256 * 3))
    with (255 - (255 - pos - 170) * 3 + 256 * (-3)) by lia.
  by rewrite !land_255_shift.
Qed.

(** Above the range they wrap in the same way: for [170 < pos] (first
    branch of the source) moving up by 256 does not change the colour. *)
Lemma wheel_wrap_high pos : 170 < pos → wheel (pos + 256) = wheel pos.
Proof.
  intros Hpos. unfold wheel; cbv zeta. rewrite !decide_True by lia.
  replace ((255 - (pos + 256)) * 3) with ((255 - pos) * 3 + 256 * (-3)) by lia.
  replace (255 - ((255 - pos) * 3 + 256 * (-3)))
    with (255 - (255 - pos) * 3 + 256 * 3) by lia.
  by rewrite !land_255_shift.
Qed.

(** Outside [0,255] the masks do act, and they wrap: in the band that
    extends below the range ([pos ≤ 85]) moving down by 256 does not
    change the colour, and in the band that extends above it
    ([170 < pos]) moving up by 256 does not. *)
Theorem wheel_wrap pos :
  (pos ≤ 85 → wheel (pos - 256) = wheel pos) ∧
  (170 < pos → wheel (pos + 256) = wheel pos).
Proof. split; [apply wheel_wrap_low | apply wheel_wrap_high]. Qed.

Lemma wheel_wrap_witness :
  wheel (85 - 256) = wheel 85 ∧ wheel (171 + 256) = wheel 171.
Proof. split; [apply (wheel_wrap 85) | apply (wheel_wrap 171)]; lia. Defined.
