(* ===== verification/Rearange.v ===== *)
(** * The pixel remapper: [rearange(buf)]

    The loop of the source is a left fold over the enumerated segment
    starts whose accumulator is [nbuf]; [rearange] flattens the result and
    builds the [bytearray].  The loop is polymorphic in the pixel, which
    the proofs use: it commutes with [fmap], so its effect on any buffer
    is read off its effect on the list of indices 0..255.

    The reference definitions say what the wiring of the panel is
    without the loop: [rearange_ref], the 32 segments by their number;
    [src_index] and [wire_pos], the pixel of a wire position and the
    wire position of a cell; [unwire], the image read off a wire
    order. *)

From S2P Require Import Prelude PyBuiltins.

(** ** The function *)

(** [list(range(0, 256, 16)) + list(range(8, 256, 16))] *)
Definition seg_starts : list Z := py_range 0 256 16 ++ py_range 8 256 16.

Section loop.
Context {A : Type}.
Implicit Types (buf nbuf line : list A) (c i : Z).

(** One iteration: the body of the [for c, i in enumerate(...)] loop. *)
Definition rearange_body buf nbuf (ci : Z * Z) : list A :=
  let '(c, i) := ci in
  let line := py_slice buf i (i + 8) in
  let line := if decide (c `mod` 2 = 1) then reverse line else line in
  nbuf ++ line.

Definition rearange_loop buf : list A :=
  foldl (rearange_body buf) [] (py_enumerate seg_starts).

(** ** Reference definitions *)

(** The pixels one iteration contributes. *)
Definition segment buf (ci : Z * Z) : list A :=
  let line := py_slice buf ci.2 (ci.2 + 8) in
  if decide (ci.1 `mod` 2 = 1) then reverse line else line.

Definition loop_segments buf : list A :=
  concat (segment buf <$> py_enumerate seg_starts).

(** The wiring of the panel, written without the loop: segment [k] of
    the 32 starts at the left half of row [k] for [k < 16] and at the
    right half of row [k - 16] from there on, holds the eight pixels
    from its start, as many as the buffer has, and runs backwards when
    [k] is odd. *)
Definition seg_start (k : nat) : nat :=
  if decide (k < 16)%nat then (16 * k)%nat else (16 * (k - 16) + 8)%nat.

Definition wire_segment buf (k : nat) : list A :=
  let line := take 8 (drop (seg_start k) buf) in
  if Nat.odd k then reverse line else line.

Definition rearange_ref buf : list A :=
  concat (wire_segment buf <$> seq 0 32).
End loop.

Definition rearange (buf : list (list Z)) : result (list Z) :=
  bytearray (concat (rearange_loop buf)).

(** The image index of the pixel at wire position [k]: segment [k / 8],
    offset [k mod 8] counted backwards in odd segments. *)
Definition src_index (k : nat) : nat :=
  let c := (k / 8)%nat in
  let j := (k `mod` 8)%nat in
  ((if decide (c < 16)%nat then 16 * c else 16 * (c - 16) + 8)
   + (if Nat.odd c then 7 - j else j))%nat.

(** The wire position of the pixel at [row], [col] of the 16x16 image. *)
Definition wire_pos (row col : nat) : nat :=
  let c := (if decide (col < 8)%nat then row else 16 + row)%nat in
  let j := (col `mod` 8)%nat in
  (8 * c + (if Nat.odd c then 7 - j else j))%nat.

(** The image a wire order shows: the pixel of [row], [col] is the one
    at wire position [wire_pos row col]. *)
Definition unwire {A} (wire : list A) : option (list A) :=
  mapM (λ k, wire !! wire_pos (k / 16) (k `mod` 16)) (seq 0 256).

(** A well-formed frame: 256 pixels of three byte channels. *)
Definition pixel_ok (p : list Z) : Prop := length p = 3%nat ∧ Forall is_byte p.

#[global] Instance pixel_ok_dec p : Decision (pixel_ok p).
Proof. unfold pixel_ok. apply _. Defined.

Definition frame_ok (buf : list (list Z)) : Prop :=
  length buf = 256%nat ∧ Forall pixel_ok buf.

(** ** The loop and its reference *)

Section loop_lemmas.
Context {A : Type}.
Implicit Types (buf nbuf : list A).

Lemma rearange_body_segment buf nbuf ci :
  rearange_body buf nbuf ci = nbuf ++ segment buf ci.
Proof. by destruct ci. Qed.

Lemma rearange_loop_segments buf : rearange_loop buf = loop_segments buf.
Proof.
  unfold rearange_loop, loop_segments.
  by rewrite (foldl_app_acc _ (segment buf)) by apply rearange_body_segment.
Qed.

Lemma py_slice_Forall (P : A → Prop) buf i j :
  Forall P buf → Forall P (py_slice buf i j).
Proof. intros H. unfold py_slice. by apply Forall_take, Forall_drop. Qed.

Lemma segment_Forall (P : A → Prop) buf ci :
  Forall P buf → Forall P (segment buf ci).
Proof.
  intros H. unfold segment.
  case_decide; rewrite ?Forall_reverse; by apply py_slice_Forall.
Qed.

(** Every pixel of the output is a pixel of the input. *)
Lemma rearange_loop_Forall (P : A → Prop) buf :
  Forall P buf → Forall P (rearange_loop buf).
Proof.
  intros H. rewrite rearange_loop_segments. unfold loop_segments.
  apply Forall_concat, Forall_fmap, Forall_forall.
  intros ci _. by apply segment_Forall.
Qed.

Lemma segment_length_le buf ci : 0 ≤ ci.2 → (length (segment buf ci) ≤ 8)%nat.
Proof.
  intros Hi. unfold segment. case_decide; rewrite ?length_reverse;
    (etrans; [apply py_slice_length_le; lia | lia]).
Qed.
End loop_lemmas.

(** The loop never looks at a pixel: it commutes with [fmap]. *)
Lemma segment_fmap {A B} (f : A → B) (buf : list A) ci :
  f <$> segment buf ci = segment (f <$> buf) ci.
Proof.
  unfold segment. case_decide; by rewrite ?fmap_reverse, py_slice_fmap.
Qed.

Lemma rearange_loop_fmap {A B} (f : A → B) (buf : list A) :
  f <$> rearange_loop buf = rearange_loop (f <$> buf).
Proof.
  rewrite (rearange_loop_segments buf), (rearange_loop_segments (f <$> buf)).
  unfold loop_segments. rewrite fmap_concat, <-list_fmap_compose. f_equal.
  apply list_fmap_ext. intros _ ci _. apply segment_fmap.
Qed.

(** ** The wire order, computed on indices *)

Lemma seg_starts_eq :
  seg_starts =
  [0; 16; 32; 48; 64; 80; 96; 112; 128; 144; 160; 176; 192; 208; 224; 240;
   8; 24; 40; 56; 72; 88; 104; 120; 136; 152; 168; 184; 200; 216; 232; 248].
Proof. by vm_compute. Qed.

(** ** The loop and the wiring *)

(** What the loop enumerates: the index and the start of each of the 32
    segments. *)
Lemma enumerate_seg_starts :
  py_enumerate seg_starts
  = (λ k : nat, (Z.of_nat k, Z.of_nat (seg_start k))) <$> seq 0 32.
Proof. by vm_compute. Qed.

Lemma odd_mod_2 (k : nat) : Z.of_nat k `mod` 2 = 1 ↔ Nat.odd k = true.
Proof.
  rewrite Nat.odd_spec. split; [intros Hk | intros [m ->]; lia].
  exists (Z.to_nat (Z.of_nat k `div` 2)). lia.
Qed.

(** An iteration contributes the segment of the wiring. *)
Lemma segment_wire {A} (buf : list A) (k : nat) :
  segment buf (Z.of_nat k, Z.of_nat (seg_start k)) = wire_segment buf k.
Proof.
  unfold segment, wire_segment. cbn [fst snd]. rewrite py_slice_nonneg by lia.
  replace (Z.to_nat (Z.of_nat (seg_start k) + 8 - Z.of_nat (seg_start k))) with 8%nat by lia.
  rewrite Nat2Z.id. destruct (Nat.odd k) eqn:Hodd.
  - by rewrite decide_True by by apply odd_mod_2.
  - rewrite decide_False; [done |]. rewrite odd_mod_2. congruence.
Qed.

(** The loop, whatever the length of the buffer and the type of its
    items, gives the 32 segments of the wiring in order. *)
Lemma rearange_loop_ref {A} (buf : list A) : rearange_loop buf = rearange_ref buf.
Proof.
  rewrite rearange_loop_segments. unfold loop_segments, rearange_ref.
  rewrite enumerate_seg_starts, <-list_fmap_compose. f_equal.
  apply list_fmap_ext. intros _ k _. apply segment_wire.
Qed.

Lemma rearange_loop_seq : rearange_loop (seq 0 256) = src_index <$> seq 0 256.
Proof. by vm_compute. Qed.

Lemma src_index_perm : src_index <$> seq 0 256 ≡ₚ seq 0 256.
Proof.
  apply NoDup_incl_Permutation.
  - by apply (bool_decide_eq_true_1 _); vm_compute.
  - by apply (bool_decide_eq_true_1 _); vm_compute.
  - by vm_compute.
Qed.

(** A property of every [k < n], checked by evaluation. *)
Lemma forall_lt_decide (P : nat → Prop) `{!∀ k, Decision (P k)} (n : nat) :
  bool_decide (Forall P (seq 0 n)) = true → ∀ k, (k < n)%nat → P k.
Proof.
  intros HP%bool_decide_eq_true_1 k Hk.
  rewrite Forall_forall in HP. apply HP, elem_of_seq. lia.
Qed.

Lemma src_index_lt k : (k < 256)%nat → (src_index k < 256)%nat.
Proof. revert k. apply (forall_lt_decide _ 256). by vm_compute. Qed.

Section wire_order.
Context {A : Type} `{!Inhabited A}.
Implicit Types (buf : list A).

Lemma rearange_loop_wire buf :
  length buf = 256%nat →
  rearange_loop buf = (λ k, buf !!! src_index k) <$> seq 0 256.
Proof.
  intros Hlen. rewrite <-(lookup_total_seq_fmap buf) at 1.
  rewrite <-rearange_loop_fmap, Hlen, rearange_loop_seq.
  by rewrite <-list_fmap_compose.
Qed.

Lemma rearange_loop_length buf :
  length buf = 256%nat → length (rearange_loop buf) = 256%nat.
Proof. intros Hlen. by rewrite rearange_loop_wire, length_fmap, length_seq. Qed.

Lemma rearange_loop_lookup buf (k : nat) :
  length buf = 256%nat → (k < 256)%nat →
  rearange_loop buf !! k = buf !! src_index k.
Proof.
  intros Hlen Hk. rewrite rearange_loop_wire, list_lookup_fmap by done.
  rewrite lookup_seq_lt by done. simpl. symmetry.
  apply list_lookup_lookup_total_lt. rewrite Hlen. by apply src_index_lt.
Qed.

Lemma rearange_loop_perm buf :
  length buf = 256%nat → rearange_loop buf ≡ₚ buf.
Proof.
  intros Hlen. rewrite <-(lookup_total_seq_fmap buf) at 2.
  rewrite rearange_loop_wire, Hlen by done.
  trans ((λ i, buf !!! i) <$> (src_index <$> seq 0 256)).
  - by rewrite <-list_fmap_compose.
  - by rewrite src_index_perm.
Qed.
End wire_order.

(** ** Index arithmetic *)

(** A property of every cell of the 16x16 grid, checked by evaluation on
    the 256 row-major indices. *)
Lemma forall_grid_check (P : nat → nat → Prop) (b : nat → nat → bool) :
  (∀ r c, b r c = true → P r c) →
  forallb (λ k, b (k / 16) (k `mod` 16))%nat (seq 0 256) = true →
  ∀ row col, (row < 16)%nat → (col < 16)%nat → P row col.
Proof.
  intros Hb Hall row col Hr Hc. apply Hb.
  rewrite forallb_forall in Hall.
  specialize (Hall (16 * row + col)%nat). cbv beta in Hall.
  rewrite <-(Nat.div_unique (16 * row + col) 16 row col) in Hall by lia.
  rewrite <-(Nat.mod_unique (16 * row + col) 16 row col) in Hall by lia.
  apply Hall, in_seq. lia.
Qed.

Lemma wire_pos_lt row col :
  (row < 16)%nat → (col < 16)%nat → (wire_pos row col < 256)%nat.
Proof.
  revert row col.
  apply (forall_grid_check _ (λ r c, bool_decide (wire_pos r c < 256)%nat)).
  - intros r c. apply bool_decide_eq_true_1.
  - by vm_compute.
Qed.

Lemma src_index_wire_pos row col :
  (row < 16)%nat → (col < 16)%nat →
  src_index (wire_pos row col) = (16 * row + col)%nat.
Proof.
  revert row col.
  apply (forall_grid_check _
    (λ r c, bool_decide (src_index (wire_pos r c) = 16 * r + c)%nat)).
  - intros r c. apply bool_decide_eq_true_1.
  - by vm_compute.
Qed.

Lemma wire_pos_src_index k :
  (k < 256)%nat → wire_pos (src_index k / 16) (src_index k `mod` 16) = k.
Proof.
  revert k.
  apply (forall_lt_decide
    (λ k, wire_pos (src_index k / 16) (src_index k `mod` 16) = k)%nat 256).
  by vm_compute.
Qed.

(** ** Reading the image back *)

Section unwire.
Context {A : Type}.
Implicit Types (buf wire : list A).

Lemma unwire_Some wire buf :
  unwire wire = Some buf ↔
  length buf = 256%nat ∧
  ∀ k, (k < 256)%nat → wire !! wire_pos (k / 16) (k `mod` 16) = buf !! k.
Proof.
  unfold unwire. rewrite mapM_Some. split.
  - intros Hall. assert (length buf = 256%nat) as Hlen.
    { apply Forall2_length in Hall. by rewrite length_seq in Hall. }
    split; [done |]. intros k Hk. rewrite Forall2_lookup in Hall. specialize (Hall k).
    rewrite lookup_seq_lt in Hall by done. rewrite Nat.add_0_l in Hall. by inversion Hall.
  - intros [Hlen Hall]. apply Forall2_lookup. intros k. destruct (decide (k < 256)%nat) as [Hk|Hk].
    + rewrite lookup_seq_lt by done. destruct (lookup_lt_is_Some_2 buf k) as [x Hx]; [lia |].
      rewrite Hx. constructor. rewrite Nat.add_0_l. by rewrite Hall.
    + rewrite lookup_seq_ge, (proj2 (lookup_ge_None _ _)) by lia. constructor.
Qed.

Lemma div_mod_16 k : (16 * (k / 16) + k `mod` 16 = k)%nat.
Proof. pose proof (Nat.div_mod_eq k 16). lia. Qed.

Lemma unwire_rearange_loop buf :
  length buf = 256%nat → unwire (rearange_loop buf) = Some buf.
Proof.
  intros Hlen. apply unwire_Some. split; [done |]. intros k Hk.
  destruct (lookup_lt_is_Some_2 buf k) as [x Hx]; [lia |]. pose (populate x) as Hinh.
  assert (k / 16 < 16)%nat by (apply Nat.Div0.div_lt_upper_bound; lia).
  assert (k `mod` 16 < 16)%nat by (apply Nat.mod_upper_bound; lia).
  rewrite rearange_loop_lookup by auto using wire_pos_lt.
  by rewrite src_index_wire_pos, div_mod_16.
Qed.

Lemma rearange_loop_unwire wire buf :
  length wire = 256%nat → unwire wire = Some buf → rearange_loop buf = wire.
Proof.
  intros Hlen [Hbuf Hall]%unwire_Some. apply list_eq. intros k.
  destruct (decide (k < 256)%nat) as [Hk|Hk].
  - destruct (lookup_lt_is_Some_2 wire k) as [x Hx]; [lia |]. pose (populate x) as Hinh.
    rewrite rearange_loop_lookup by done.
    rewrite <-Hall by by apply src_index_lt. by rewrite wire_pos_src_index.
  - destruct (lookup_lt_is_Some_2 wire 0) as [x Hx]; [lia |]. pose (populate x) as Hinh.
    rewrite !(proj2 (lookup_ge_None _ _)); [done | lia |].
    rewrite rearange_loop_length by done. lia.
Qed.

Lemma unwire_is_Some wire : length wire = 256%nat → is_Some (unwire wire).
Proof.
  intros Hlen. unfold unwire. apply mapM_is_Some, Forall_forall.
  intros k Hk%elem_of_seq. apply lookup_lt_is_Some. rewrite Hlen.
  apply wire_pos_lt; [apply Nat.Div0.div_lt_upper_bound | apply Nat.mod_upper_bound]; lia.
Qed.
End unwire.

(** ** Frames *)

Section frames.
Implicit Types (buf : list (list Z)) (bs : list Z).

Lemma frame_ok_loop buf :
  frame_ok buf → Forall pixel_ok (rearange_loop buf).
Proof. intros [_ Hpx]. by apply rearange_loop_Forall. Qed.

Lemma frame_ok_bytes buf :
  frame_ok buf → Forall is_byte (concat (rearange_loop buf)).
Proof.
  intros Hok%frame_ok_loop. apply Forall_concat.
  eapply Forall_impl; [done | by intros p [_ ?]].
Qed.

Lemma rearange_frame buf :
  frame_ok buf → rearange buf = Ok (concat (rearange_loop buf)).
Proof. intros Hok. by apply bytearray_bytes, frame_ok_bytes. Qed.

(** The pixels are read back off the bytes three at a time. *)
Lemma unwire_rearange buf bs :
  frame_ok buf → rearange buf = Ok bs → unwire (chunks 3 256 bs) = Some buf.
Proof.
  intros Hok [_ ->]%bytearray_Ok.
  rewrite <-(rearange_loop_length buf) at 1 by apply Hok.
  rewrite chunks_concat; [by apply unwire_rearange_loop, Hok |].
  eapply Forall_impl; [by apply frame_ok_loop | by intros p [? _]].
Qed.

Lemma frame_ok_concat_length buf :
  frame_ok buf → length (concat (rearange_loop buf)) = 768%nat.
Proof.
  intros Hok. rewrite (length_concat_const _ 3).
  - rewrite rearange_loop_length; [done | apply Hok].
  - eapply Forall_impl; [by apply frame_ok_loop | by intros p [? _]].
Qed.

(** The three bytes of the pixel at wire position [k]. *)
Lemma frame_wire_bytes buf (k ch : nat) p :
  frame_ok buf → (k < 256)%nat → (ch < 3)%nat →
  buf !! src_index k = Some p →
  concat (rearange_loop buf) !! (k * 3 + ch)%nat = p !! ch.
Proof.
  intros Hok Hk Hch Hp. rewrite (lookup_concat_const _ 3 k ch); [|  | done].
  - rewrite rearange_loop_lookup by (done || apply Hok). by rewrite Hp.
  - eapply Forall_impl; [by apply frame_ok_loop | by intros ? [? _]].
Qed.
End frames.

(** ** Buffers of any length *)

Lemma seg_starts_bounds :
  Forall (λ ci : Z * Z, 0 ≤ ci.2 ∧ ci.2 + 8 ≤ 256) (py_enumerate seg_starts).
Proof. by apply (bool_decide_unpack _); vm_compute. Qed.

Lemma loop_size_small (n : nat) :
  (n < 256)%nat → length (rearange_loop (replicate n ())) = n.
Proof.
  revert n. apply (forall_lt_decide _ 256). by vm_compute.
Qed.

Section any_length.
Context {A : Type}.
Implicit Types (buf extra : list A).

Lemma segment_app buf extra ci :
  0 ≤ ci.2 → ci.2 + 8 ≤ Z.of_nat (length buf) →
  segment (buf ++ extra) ci = segment buf ci.
Proof.
  intros Hlo Hhi. unfold segment. rewrite !py_slice_nonneg by lia.
  rewrite drop_app_le by lia.
  by rewrite take_app_le by (rewrite length_drop; lia).
Qed.

Lemma rearange_loop_app buf extra :
  (256 ≤ length buf)%nat → rearange_loop (buf ++ extra) = rearange_loop buf.
Proof.
  intros Hlen. rewrite !rearange_loop_segments. unfold loop_segments. f_equal.
  apply Forall_fmap_ext. eapply Forall_impl; [apply seg_starts_bounds |].
  intros ci [??]. apply segment_app; lia.
Qed.

Lemma rearange_loop_take buf :
  rearange_loop buf = rearange_loop (take 256 buf).
Proof.
  destruct (decide (256 ≤ length buf)%nat) as [Hlen|Hlen].
  - rewrite <-(take_drop 256 buf) at 1.
    apply rearange_loop_app. rewrite length_take. lia.
  - by rewrite take_ge by lia.
Qed.

(** The segment starts are the multiples of 8 below 256, in another
    order. *)
Lemma seg_starts_perm : seg_starts ≡ₚ (λ k : nat, Z.of_nat (8 * k)) <$> seq 0 32.
Proof.
  apply NoDup_incl_Permutation.
  - by apply (bool_decide_eq_true_1 _); vm_compute.
  - by apply (bool_decide_eq_true_1 _); vm_compute.
  - by vm_compute.
Qed.

Lemma segment_Permutation buf ci :
  0 ≤ ci.2 → segment buf ci ≡ₚ take 8 (drop (Z.to_nat ci.2) buf).
Proof.
  intros Hi. unfold segment. rewrite py_slice_nonneg by lia.
  replace (Z.to_nat (ci.2 + 8 - ci.2)) with 8%nat by lia.
  case_decide; [apply reverse_Permutation | done].
Qed.

(** The loop keeps the first 256 pixels, each once, whatever the length
    of the input. *)
Lemma rearange_loop_perm_take buf : rearange_loop buf ≡ₚ take 256 buf.
Proof.
  rewrite rearange_loop_segments. unfold loop_segments.
  trans (concat ((λ i, take 8 (drop (Z.to_nat i) buf)) <$> seg_starts)).
  - rewrite <-(py_enumerate_snd seg_starts) at 2. rewrite <-list_fmap_compose.
    apply concat_Permutation_pointwise, Forall2_fmap, Forall_Forall2_diag.
    eapply Forall_impl; [apply seg_starts_bounds |].
    intros ci [? _]. by apply segment_Permutation.
  - by rewrite seg_starts_perm, <-list_fmap_compose, <-(concat_chunks 8 32).
Qed.

Lemma rearange_loop_size buf :
  length (rearange_loop buf) = (length buf `min` 256)%nat.
Proof.
  rewrite rearange_loop_take.
  rewrite <-(length_fmap (λ _, ())), rearange_loop_fmap.
  rewrite (const_fmap _ _ ()) by done. rewrite length_take.
  destruct (decide (256 ≤ length buf)%nat) as [Hlen|Hlen].
  - replace (256 `min` length buf)%nat with 256%nat by lia.
    replace (length buf `min` 256)%nat with 256%nat by lia. by vm_compute.
  - rewrite loop_size_small; lia.
Qed.
End any_length.

Lemma rearange_Ok_length buf bs :
  Forall (λ p, length p = 3%nat) buf →
  rearange buf = Ok bs →
  length bs = (3 * (length buf `min` 256))%nat.
Proof.
  intros Hpx [_ ->]%bytearray_Ok.
  rewrite (length_concat_const _ 3) by by apply rearange_loop_Forall.
  rewrite rearange_loop_size. lia.
Qed.

(** ** Theorems *)

(** A frame with one coloured pixel at row 2, column 10 (index 42). *)
Definition sample_frame : list (list Z) :=
  <[42%nat := [30; 20; 10]]> (replicate 256 [0; 0; 0]).

Lemma sample_frame_ok : frame_ok sample_frame.
Proof. by apply (bool_decide_unpack _); vm_compute. Qed.

(** C20. Whatever the length of its input, [rearange] returns the bytes
    of the 32 segments of the wiring, which is written without the loop,
    its ranges and its slices: segment [k] starts at pixel [16 * k] for
    [k < 16] and at [16 * (k - 16) + 8] from there on, holds the up to
    eight pixels the input has from there, and is reversed when [k] is
    odd.  An input shorter than 256 pixels gives clipped segments, not a
    blank frame. *)
Theorem rearange_refines buf :
  rearange buf = bytearray (concat (rearange_ref buf)).
Proof. unfold rearange. by rewrite rearange_loop_ref. Qed.

(** C3. On a frame of 256 pixels of three bytes [rearange] succeeds and
    returns, for each wire position k in order, the three channels of
    the image pixel [src_index k]. *)
Theorem rearange_wire_order buf :
  frame_ok buf →
  rearange buf = Ok (concat ((λ k, buf !!! src_index k) <$> seq 0 256)).
Proof.
  intros Hok. rewrite rearange_frame by done.
  by rewrite rearange_loop_wire by apply Hok.
Qed.

Lemma rearange_wire_order_witness :
  rearange sample_frame =
  Ok (concat ((λ k, sample_frame !!! src_index k) <$> seq 0 256)).
Proof. apply (rearange_wire_order sample_frame), sample_frame_ok. Defined.

(** For every valid 256-pixel input the output is exactly 768 bytes
    long and every item is a byte. *)
Theorem rearange_length buf :
  frame_ok buf →
  ∃ bs, rearange buf = Ok bs ∧ length bs = 768%nat ∧ Forall is_byte bs.
Proof.
  intros Hok. exists (concat (rearange_loop buf)).
  auto using rearange_frame, frame_ok_concat_length, frame_ok_bytes.
Qed.

Lemma rearange_length_witness :
  ∃ bs, rearange sample_frame = Ok bs ∧ length bs = 768%nat ∧ Forall is_byte bs.
Proof. apply (rearange_length sample_frame), sample_frame_ok. Defined.

(** C21. The loop is a permutation of the first 256 pixels of its
    input, whatever the length of the input and the type of the pixels:
    none of them is lost or duplicated, and on 256 pixels the output is
    a permutation of the input. *)
Theorem rearange_permutation {A} (buf : list A) :
  rearange_loop buf ≡ₚ take 256 buf.
Proof. apply rearange_loop_perm_take. Qed.

(** C22. The pixel at [row], [col] of the image ends at wire position
    [wire_pos row col]: its channel [ch] is byte [3 * wire_pos row col +
    ch] of the output. *)
Theorem rearange_pixel_at buf bs (row col ch : nat) p :
  frame_ok buf → (row < 16)%nat → (col < 16)%nat → (ch < 3)%nat →
  buf !! (16 * row + col)%nat = Some p →
  rearange buf = Ok bs →
  bs !! (wire_pos row col * 3 + ch)%nat = p !! ch.
Proof.
  intros Hok Hr Hc Hch Hp [_ ->]%bytearray_Ok.
  apply frame_wire_bytes; [done | by apply wire_pos_lt | done |].
  by rewrite src_index_wire_pos.
Qed.

Lemma rearange_pixel_at_witness :
  concat (rearange_loop sample_frame) !! (wire_pos 2 10 * 3 + 0)%nat
  = [30; 20; 10] !! 0%nat.
Proof.
  apply (rearange_pixel_at sample_frame _ 2 10 0 [30; 20; 10]);
    [apply sample_frame_ok | lia | lia | lia | done |].
  apply rearange_frame, sample_frame_ok.
Defined.

(** [wire_pos] and [src_index] are inverse to each other on the
    grid: the wire position of a cell is below 256 and [src_index] maps
    it back to the row-major index of the cell. *)
Theorem wire_pos_correct row col :
  (row < 16)%nat → (col < 16)%nat →
  (wire_pos row col < 256)%nat ∧
  src_index (wire_pos row col) = (16 * row + col)%nat.
Proof. auto using wire_pos_lt, src_index_wire_pos. Qed.

Lemma wire_pos_correct_witness :
  (wire_pos 2 10 < 256)%nat ∧ src_index (wire_pos 2 10) = (16 * 2 + 10)%nat.
Proof. apply (wire_pos_correct 2 10); lia. Defined.

(** Conversely every wire position below 256 is the wire position
    of the cell [src_index] names, so the two maps are bijections
    between wire positions and cells. *)
Theorem src_index_correct k :
  (k < 256)%nat →
  (src_index k < 256)%nat ∧
  wire_pos (src_index k / 16) (src_index k `mod` 16) = k.
Proof. auto using src_index_lt, wire_pos_src_index. Qed.

Lemma src_index_correct_witness :
  (src_index 146 < 256)%nat ∧
  wire_pos (src_index 146 / 16) (src_index 146 `mod` 16) = 146%nat.
Proof. apply (src_index_correct 146); lia. Defined.

(** C35. On 256 pixels [rearange] raises exactly when some channel of
    some pixel is not a byte, and the only exception is [ValueError]
    (from [bytearray]); the pixels may have any number of channels. *)
Theorem rearange_raises buf e :
  length buf = 256%nat →
  rearange buf = Raise e ↔
  e = ValueError ∧ Exists (Exists (λ z, ¬ is_byte z)) buf.
Proof.
  intros Hlen. unfold rearange.
  rewrite bytearray_Raise, Exists_concat, (rearange_loop_perm buf Hlen).
  tauto.
Qed.

Lemma rearange_raises_witness :
  rearange (replicate 256 [256]) = Raise ValueError ↔
  ValueError = ValueError ∧
  Exists (Exists (λ z, ¬ is_byte z)) (replicate 256 [256]).
Proof. by apply (rearange_raises (replicate 256 [256]) ValueError). Defined.

(** C36. For pixels of three channels the output has three bytes per
    pixel of the first 256, so it is 768 bytes long only for inputs of at
    least 256 pixels: a shorter input is remapped to a shorter output,
    not to a blank frame. *)
Theorem rearange_output_size buf bs :
  Forall (λ p, length p = 3%nat) buf →
  rearange buf = Ok bs →
  length bs = (3 * (length buf `min` 256))%nat ∧
  (length bs = 768%nat ↔ (256 ≤ length buf)%nat).
Proof.
  intros Hpx Hbs. rewrite (rearange_Ok_length buf bs Hpx Hbs). lia.
Qed.

Lemma rearange_output_size_witness :
  length (concat (rearange_loop (replicate 255 [0; 0; 0])))
  = (3 * (length (replicate 255 [0; 0; 0]) `min` 256))%nat ∧
  (length (concat (rearange_loop (replicate 255 [0; 0; 0]))) = 768%nat
   ↔ (256 ≤ length (replicate 255 [0; 0; 0]))%nat).
Proof.
  apply (rearange_output_size (replicate 255 [0; 0; 0])).
  - by apply Forall_replicate.
  - by apply bytearray_bytes, (bool_decide_unpack _); vm_compute.
Defined.

(** C38. Round trip: the remapping loses nothing.  Reading the 768
    bytes of a frame three at a time and taking, for every cell of the
    grid in row-major order, the pixel at the wire position of the cell
    gives back the 256 pixels that went in. *)
Theorem rearange_roundtrip buf bs :
  frame_ok buf → rearange buf = Ok bs → unwire (chunks 3 256 bs) = Some buf.
Proof. apply unwire_rearange. Qed.

Lemma rearange_roundtrip_witness :
  unwire (chunks 3 256 (concat (rearange_loop sample_frame))) = Some sample_frame.
Proof.
  apply (rearange_roundtrip sample_frame); [apply sample_frame_ok |].
  apply rearange_frame, sample_frame_ok.
Defined.

(** Conversely every wire order of 256 pixels is the remapping of
    exactly the image read off it: the loop is a bijection on lists of
    256 pixels. *)
Theorem unwire_roundtrip {A} (wire : list A) :
  length wire = 256%nat →
  ∃ buf, unwire wire = Some buf ∧ length buf = 256%nat ∧ rearange_loop buf = wire.
Proof.
  intros Hlen. destruct (unwire_is_Some wire Hlen) as [buf Hbuf]. exists buf.
  split; [done |]. split; [by apply unwire_Some in Hbuf as [? _] |].
  by apply rearange_loop_unwire.
Qed.

(** C37. [rearange] reads the first 256 pixels of its input and nothing
    else: an input of 256 pixels or more gives the same result, or
    raises the same error, with anything appended to it. *)
Theorem rearange_ignores_tail buf extra :
  (256 ≤ length buf)%nat → rearange (buf ++ extra) = rearange buf.
Proof. intros Hlen. unfold rearange. by rewrite rearange_loop_app. Qed.

Lemma rearange_ignores_tail_witness :
  rearange (sample_frame ++ [[1; 2; 3]]) = rearange sample_frame.
Proof. by apply (rearange_ignores_tail sample_frame). Defined.
