(* ===== verification/Pil.v ===== *)
(** * The image library: what [imageToBuffer] uses of PIL

    The loader calls [Image.open(fname)] and [im.getdata()].  The library
    is not part of the repository; this file models the two calls from
    its documentation.  A decoded image has a mode, which fixes the
    number of bands of a pixel, a size, and its pixels in row-major
    order.  Opening a file is lazy: [Image_open] identifies the file and
    reads its header, and the pixels are read when they are first asked
    for, here by [getdata], which fails with [OSError] on a file whose
    data is cut short.  [getdata] yields one item per pixel: a tuple of
    band values, or a bare integer when the mode has a single band.  The
    files a program can open are a finite map from names to contents: an
    image, an image whose data is truncated, or something no decoder
    identifies. *)

From stdpp Require Import gmap.
From S2P Require Import Prelude.

(** ** Modes *)

(** The modes whose band values are bytes.  The modes of 32-bit
    integers and floats ([I], [F]) and the 16-bit modes are left out:
    the items of their data are not bytes, and for [F] not integers. *)
Inductive mode : Set :=
| Mode1
| ModeL
| ModeP
| ModeLA
| ModeRGB
| ModeYCbCr
| ModeRGBA
| ModeCMYK.

#[global] Instance mode_eq_dec : EqDecision mode.
Proof. solve_decision. Defined.

(** [len(im.getbands())] *)
Definition bands (m : mode) : nat :=
  match m with
  | Mode1 | ModeL | ModeP => 1
  | ModeLA => 2
  | ModeRGB | ModeYCbCr => 3
  | ModeRGBA | ModeCMYK => 4
  end.

(** ** Images *)

Record image : Type := mk_image {
  im_mode : mode;
  im_width : nat;
  im_height : nat;
  im_data : list (list Z)
}.

(** What a decoder produces: [width * height] pixels, each with one byte
    per band of the mode. *)
Definition pixel_wf (m : mode) (p : list Z) : Prop :=
  length p = bands m ∧ Forall is_byte p.

Definition im_wf (im : image) : Prop :=
  length (im_data im) = (im_width im * im_height im)%nat ∧
  Forall (pixel_wf (im_mode im)) (im_data im).

#[global] Instance pixel_wf_dec m p : Decision (pixel_wf m p).
Proof. unfold pixel_wf. apply _. Defined.

#[global] Instance im_wf_dec im : Decision (im_wf im).
Proof. unfold im_wf. apply _. Defined.

(** [im.getpixel((x, y))] *)
Definition getpixel (im : image) (x y : nat) : option (list Z) :=
  if decide (x < im_width im)%nat then im_data im !! (y * im_width im + x)%nat
  else None.

(** ** [im.getdata()] *)

(** An item of [list(im.getdata())]. *)
Inductive pixdata : Type :=
| PInt (v : Z)
| PTuple (bands : list Z).

#[global] Instance pixdata_eq_dec : EqDecision pixdata.
Proof. solve_decision. Defined.

Definition datum (m : mode) (p : list Z) : pixdata :=
  if decide (bands m = 1%nat) then PInt (default 0 (head p)) else PTuple p.

(** The items of a loaded image. *)
Definition pixels (im : image) : list pixdata := datum (im_mode im) <$> im_data im.

(** An opened image: what the header says, and whether the data behind
    it can be read. *)
Record handle : Type := mk_handle {
  h_image : image;
  h_loadable : bool
}.

Definition getdata (h : handle) : result (list pixdata) :=
  if h_loadable h then Ok (pixels (h_image h)) else Raise OSError.

(** ** [Image.open(fname)] *)

Inductive file : Type :=
| Encoded (im : image)
| Truncated (im : image)
| Garbage.

Implicit Types (fs : gmap string file) (fname : string).

Definition Image_open fs fname : result handle :=
  match fs !! fname with
  | None => Raise FileNotFoundError
  | Some Garbage => Raise UnidentifiedImageError
  | Some (Encoded im) => Ok (mk_handle im true)
  | Some (Truncated im) => Ok (mk_handle im false)
  end.

(** Every image file decodes to a well-formed image. *)
Definition file_wf (f : file) : Prop :=
  match f with Encoded im => im_wf im | Truncated _ | Garbage => True end.

#[global] Instance file_wf_dec f : Decision (file_wf f).
Proof. destruct f; apply _. Defined.

Definition fs_wf fs : Prop := map_Forall (λ _, file_wf) fs.

#[global] Instance fs_wf_dec fs : Decision (fs_wf fs).
Proof. unfold fs_wf. apply _. Defined.

(** ** Lemmas *)

Lemma pixels_length im : length (pixels im) = length (im_data im).
Proof. apply length_fmap. Qed.

Lemma pixels_tuples im :
  bands (im_mode im) ≠ 1%nat → pixels im = PTuple <$> im_data im.
Proof.
  intros Hb. apply list_fmap_ext. intros _ p _. unfold datum. by rewrite decide_False.
Qed.

Lemma pixels_ints im :
  bands (im_mode im) = 1%nat →
  pixels im = (λ p, PInt (default 0 (head p))) <$> im_data im.
Proof.
  intros Hb. apply list_fmap_ext. intros _ p _. unfold datum. by rewrite decide_True.
Qed.

Lemma im_wf_lengths im :
  im_wf im → Forall (λ p, length p = bands (im_mode im)) (im_data im).
Proof. intros [_ Hpx]. eapply Forall_impl; [done |]. by intros p [? _]. Qed.

Lemma im_wf_bytes im : im_wf im → Forall (Forall is_byte) (im_data im).
Proof. intros [_ Hpx]. eapply Forall_impl; [done |]. by intros p [_ ?]. Qed.

Lemma Image_open_Ok fs fname h :
  Image_open fs fname = Ok h ↔
  fs !! fname = Some (if h_loadable h then Encoded (h_image h) else Truncated (h_image h)).
Proof.
  unfold Image_open. destruct h as [im []];
    destruct (fs !! fname) as [[im'|im'|]|]; split; try done; by intros [= ->].
Qed.

Lemma Image_open_Encoded fs fname im :
  fs !! fname = Some (Encoded im) → Image_open fs fname = Ok (mk_handle im true).
Proof. intros Hf. by apply Image_open_Ok. Qed.

Lemma bands_range m : (1 ≤ bands m ≤ 4)%nat.
Proof. destruct m; simpl; lia. Qed.

Lemma getpixel_lookup im (row col : nat) :
  (col < im_width im)%nat →
  getpixel im col row = im_data im !! (im_width im * row + col)%nat.
Proof.
  intros Hc. unfold getpixel. rewrite decide_True by done. f_equal. lia.
Qed.
