(* ===== verification/ImageBuffer.v ===== *)
(** * The image loader: [imageToBuffer(fname)]

    [imageToBuffer] opens the file with the image library of [Pil], asks
    for the pixel data, which is when the library reads it, and hands it
    to [buffer_of_pix], the rest of the function: the test on
    [len(pix[0])], the comprehension that swaps to (b, g, r) and drops a
    fourth band, the 256-pixel guard with its all-zero fallback, and the
    call of [rearange].  [loader_spec] says what the function returns for
    every file, by the mode and the size of the image. *)

From stdpp Require Import gmap.
From S2P Require Import Prelude PyBuiltins Rearange Pil.

Implicit Types (fs : gmap string file) (fname : string) (im : image).
Implicit Types (data : list (list Z)) (pix : list pixdata) (p : list Z).

(** ** The function *)

(** [len(p)]: an integer has no length. *)
Definition py_len (p : pixdata) : result Z :=
  match p with
  | PInt _ => Raise TypeError
  | PTuple bands => Ok (Z.of_nat (length bands))
  end.

(** The body of [[(b,g,r) for r,g,b,a in pix]]: unpacking an item that
    is not a 4-tuple raises. *)
Definition bgr_of_rgba (p : pixdata) : result (list Z) :=
  match p with
  | PTuple [r; g; b; a] => Ok [b; g; r]
  | PTuple _ => Raise ValueError
  | PInt _ => Raise TypeError
  end.

(** The body of [[(b,g,r) for r,g,b in pix]]. *)
Definition bgr_of_rgb (p : pixdata) : result (list Z) :=
  match p with
  | PTuple [r; g; b] => Ok [b; g; r]
  | PTuple _ => Raise ValueError
  | PInt _ => Raise TypeError
  end.

(** The function from [if len(pix[0]) == 4] on. *)
Definition buffer_of_pix pix : result (list Z) :=
  p0 ← py_getitem pix 0;
  n ← py_len p0;
  pix ← (if decide (n = 4) then mapM bgr_of_rgba pix else mapM bgr_of_rgb pix);
  if decide (length pix ≠ 256%nat) then bytearray (py_list_mul [0] 768)
  else rearange pix.

Definition imageToBuffer fs fname : result (list Z) :=
  im ← Image_open fs fname;
  pix ← getdata im;
  buffer_of_pix pix.

(** ** Reference definitions *)

(** The channel swap of the comprehensions, on the bands of a pixel. *)
Definition bgr_of p : list Z :=
  match p with
  | r :: g :: b :: _ => [b; g; r]
  | _ => []
  end.

(** The all-off frame of the fallback. *)
Definition blank_frame : list Z := replicate 768 0.

(** The buffer of 256 pixels: for each wire position the pixel
    [src_index k], as b, g, r. *)
Definition wire_frame data : list Z :=
  concat ((λ k, (bgr_of <$> data) !!! src_index k) <$> seq 0 256).

(** The pixels a buffer holds: its bytes three at a time, for every
    cell of the grid the triple at the wire position of the cell,
    swapped back from (b, g, r). *)
Definition image_of_buffer (bs : list Z) : option (list (list Z)) :=
  fmap (M:=list) bgr_of <$> unwire (chunks 3 256 bs).

(** The image without its fourth band. *)
Definition drop_alpha im : image :=
  mk_image ModeRGB (im_width im) (im_height im) (take 3 <$> im_data im).

(** What the loader returns, by the content of the file. *)
Definition loader_spec (f : option file) : result (list Z) :=
  match f with
  | None => Raise FileNotFoundError
  | Some Garbage => Raise UnidentifiedImageError
  | Some (Truncated _) => Raise OSError
  | Some (Encoded im) =>
      if decide (im_data im = []) then Raise IndexError
      else match bands (im_mode im) with
           | 1 => Raise TypeError
           | 2 => Raise ValueError
           | _ => if decide (length (im_data im) ≠ 256%nat) then Ok blank_frame
                  else Ok (wire_frame (im_data im))
           end%nat
  end.

Definition is_PInt (p : pixdata) : Prop :=
  match p with PInt _ => True | PTuple _ => False end.

(** ** The comprehensions *)

Lemma bgr_of_rgb_tuple p : length p = 3%nat → bgr_of_rgb (PTuple p) = Ok (bgr_of p).
Proof. by destruct p as [|?[|?[|?[|??]]]]. Qed.

Lemma bgr_of_rgba_tuple p : length p = 4%nat → bgr_of_rgba (PTuple p) = Ok (bgr_of p).
Proof. by destruct p as [|?[|?[|?[|?[|??]]]]]. Qed.

Lemma bgr_of_rgb_pair p : length p = 2%nat → bgr_of_rgb (PTuple p) = Raise ValueError.
Proof. by destruct p as [|?[|?[|??]]]. Qed.

Lemma bgr_of_rgb_Ok x l : bgr_of_rgb x = Ok l → length l = 3%nat.
Proof. destruct x as [|[|?[|?[|?[|??]]]]]; by intros [= <-]. Qed.

Lemma bgr_of_rgba_Ok x l : bgr_of_rgba x = Ok l → length l = 3%nat.
Proof. destruct x as [|[|?[|?[|?[|?[|??]]]]]]; by intros [= <-]. Qed.

Lemma bgr_of_rgb_Raise x e :
  bgr_of_rgb x = Raise e → (e = TypeError ∧ is_PInt x) ∨ e = ValueError.
Proof.
  destruct x as [|[|?[|?[|?[|??]]]]]; intros [= <-];
    first [by right | left; by split].
Qed.

Lemma bgr_of_rgba_Raise x e :
  bgr_of_rgba x = Raise e → (e = TypeError ∧ is_PInt x) ∨ e = ValueError.
Proof.
  destruct x as [|[|?[|?[|?[|?[|??]]]]]]; intros [= <-];
    first [by right | left; by split].
Qed.

Lemma bgr_of_take p : length p = 4%nat → bgr_of (take 3 p) = bgr_of p.
Proof. by destruct p as [|?[|?[|?[|?[|??]]]]]. Qed.

Lemma bgr_of_pixel_ok p :
  (3 ≤ length p)%nat → Forall is_byte p → pixel_ok (bgr_of p).
Proof.
  destruct p as [|r[|g[|b p]]]; simpl; [lia.. |]. intros _ Hp.
  inversion Hp as [|? ? Hr Hp1]; inversion Hp1 as [|? ? Hg Hp2];
    inversion Hp2 as [|? ? Hb _]; subst.
  split; [done | solve_Forall].
Qed.

(** The comprehension step: which exception it raises. *)
Lemma swap_step_Raise (n : Z) pix e :
  (if decide (n = 4) then mapM bgr_of_rgba pix else mapM bgr_of_rgb pix) = Raise e →
  (e = TypeError ∧ Exists is_PInt pix) ∨ e = ValueError.
Proof.
  intros H.
  assert (Exists (λ x, (e = TypeError ∧ is_PInt x) ∨ e = ValueError) pix) as Hex.
  { case_decide; apply mapM_result_Raise in H;
      (eapply Exists_impl; [done |]); simpl;
      eauto using bgr_of_rgb_Raise, bgr_of_rgba_Raise. }
  apply Exists_exists in Hex as (x & Hx & [[-> ?]| ->]); [left|by right].
  split; [done |]. apply Exists_exists. eauto.
Qed.

(** On success every item is a triple. *)
Lemma swap_step_triples (n : Z) pix buf :
  (if decide (n = 4) then mapM bgr_of_rgba pix else mapM bgr_of_rgb pix) = Ok buf →
  Forall (λ p, length p = 3%nat) buf ∧ length buf = length pix.
Proof.
  case_decide; intros Hm; (split; [|by eapply mapM_result_length]).
  - eapply mapM_result_Forall; [apply bgr_of_rgba_Ok | done].
  - eapply mapM_result_Forall; [apply bgr_of_rgb_Ok | done].
Qed.

(** On the tuples of an image of three or of four bands. *)
Lemma swap_step_tuples (n : nat) data :
  n = 3%nat ∨ n = 4%nat → Forall (λ p, length p = n) data →
  (if decide (Z.of_nat n = 4) then mapM bgr_of_rgba (PTuple <$> data)
   else mapM bgr_of_rgb (PTuple <$> data)) = Ok (bgr_of <$> data).
Proof.
  intros [-> | ->] Hdata; [rewrite decide_False by done | rewrite decide_True by done];
    apply mapM_result_fmap_Ok; (eapply Forall_impl; [done |]);
    auto using bgr_of_rgb_tuple, bgr_of_rgba_tuple.
Qed.

(** ** The function of the pixel list *)

Lemma blank_frame_eq : bytearray (py_list_mul [0] 768) = Ok blank_frame.
Proof. by vm_compute. Qed.

Lemma blank_frame_bytes : length blank_frame = 768%nat ∧ Forall is_byte blank_frame.
Proof. by apply (bool_decide_unpack _); vm_compute. Qed.

Lemma buffer_of_pix_cons x pix :
  buffer_of_pix (x :: pix) =
  n ← py_len x;
  buf ← (if decide (n = 4) then mapM bgr_of_rgba (x :: pix)
          else mapM bgr_of_rgb (x :: pix));
  if decide (length buf ≠ 256%nat) then Ok blank_frame else rearange buf.
Proof.
  unfold buffer_of_pix. rewrite py_getitem_0, blank_frame_eq. done.
Qed.

Lemma buffer_of_pix_Ok_inv pix bs :
  buffer_of_pix pix = Ok bs →
  ∃ buf, Forall (λ p, length p = 3%nat) buf ∧ length buf = length pix ∧
    if decide (length buf ≠ 256%nat) then bs = blank_frame
    else rearange buf = Ok bs.
Proof.
  destruct pix as [|x pix]; [done |]. rewrite buffer_of_pix_cons.
  intros (n & _ & (buf & Hs & H)%bind_Ok)%bind_Ok. exists buf.
  destruct (swap_step_triples _ _ _ Hs) as [Htri Hlen].
  split; [done | split; [done |]]. case_decide; [by injection H as <- | done].
Qed.

Lemma buffer_of_pix_size pix bs :
  buffer_of_pix pix = Ok bs → length bs = 768%nat ∧ Forall is_byte bs.
Proof.
  intros (buf & Htri & Hlen & Hbs)%buffer_of_pix_Ok_inv.
  case_decide as Hn; [subst bs; apply blank_frame_bytes |].
  split.
  - rewrite (rearange_Ok_length buf bs) by done. lia.
  - by apply bytearray_Ok in Hbs as [? ->].
Qed.

(** Which exceptions the function raises, whatever the items are. *)
Lemma buffer_of_pix_Raise pix e :
  buffer_of_pix pix = Raise e →
  (e = IndexError ∧ pix = []) ∨
  (e = TypeError ∧ Exists is_PInt pix) ∨
  (e = ValueError ∧ pix ≠ []).
Proof.
  destruct pix as [|x pix]; [intros [= <-]; by left |].
  rewrite buffer_of_pix_cons.
  intros [H|(n & Hn & [H|(buf & Hp & H)]%bind_Raise)]%bind_Raise; right.
  - destruct x; [injection H as <-; left; split; [done | by left] | done].
  - apply swap_step_Raise in H as [?| ->]; [by left | by right].
  - right. split; [|done]. case_decide; [done |].
    by apply bytearray_Raise in H as [_ ->].
Qed.

(** On the data of an image of three or four bands. *)
Lemma buffer_of_pix_tuples (n : nat) data :
  n = 3%nat ∨ n = 4%nat → data ≠ [] → Forall (λ p, length p = n) data →
  buffer_of_pix (PTuple <$> data) =
  if decide (length data ≠ 256%nat) then Ok blank_frame
  else rearange (bgr_of <$> data).
Proof.
  intros Hn Hne Hdata. destruct data as [|p data]; [done |].
  rewrite fmap_cons, buffer_of_pix_cons. simpl py_len.
  rewrite (Forall_inv Hdata), bind_Ok_l, <-fmap_cons.
  by rewrite (swap_step_tuples n) by done; rewrite bind_Ok_l, length_fmap.
Qed.

(** On the data of an image of two bands. *)
Lemma buffer_of_pix_pairs data :
  data ≠ [] → Forall (λ p, length p = 2%nat) data →
  buffer_of_pix (PTuple <$> data) = Raise ValueError.
Proof.
  intros Hne Hdata. destruct data as [|p data]; [done |].
  rewrite fmap_cons, buffer_of_pix_cons. simpl py_len.
  rewrite (Forall_inv Hdata), bind_Ok_l, decide_False by done.
  by rewrite (mapM_result_Raise_head _ _ _ ValueError)
    by apply bgr_of_rgb_pair, (Forall_inv Hdata).
Qed.

(** On the data of an image of one band. *)
Lemma buffer_of_pix_ints (f : list Z → Z) data :
  data ≠ [] → buffer_of_pix ((λ p, PInt (f p)) <$> data) = Raise TypeError.
Proof. intros Hne. by destruct data. Qed.

(** ** Frames *)

Lemma bgr_frame_ok data :
  length data = 256%nat →
  Forall (λ p, (3 ≤ length p)%nat ∧ Forall is_byte p) data →
  frame_ok (bgr_of <$> data).
Proof.
  intros Hlen Hdata. split; [by rewrite length_fmap |].
  apply Forall_fmap. eapply Forall_impl; [done |].
  intros p [? ?]. by apply bgr_of_pixel_ok.
Qed.

Lemma rearange_wire_frame data :
  frame_ok (bgr_of <$> data) → rearange (bgr_of <$> data) = Ok (wire_frame data).
Proof.
  intros Hok. rewrite rearange_frame by done.
  by rewrite rearange_loop_wire by apply Hok.
Qed.

(** Swapping twice gives back the first three bands. *)
Lemma bgr_of_bgr_of p : (3 ≤ length p)%nat → bgr_of (bgr_of p) = take 3 p.
Proof. destruct p as [|r[|g[|b p]]]; simpl; [lia.. | done]. Qed.

(** The image is read back off the frame. *)
Lemma unwire_wire_frame data :
  length data = 256%nat →
  Forall (λ p, (3 ≤ length p)%nat ∧ Forall is_byte p) data →
  image_of_buffer (wire_frame data) = Some (take 3 <$> data).
Proof.
  intros Hlen Hdata. pose proof (bgr_frame_ok data Hlen Hdata) as Hok.
  unfold image_of_buffer. rewrite (unwire_rearange (bgr_of <$> data)) by (done || by apply rearange_wire_frame).
  simpl. f_equal. rewrite <-list_fmap_compose. apply Forall_fmap_ext.
  eapply Forall_impl; [done |]. intros p [? _]. by apply bgr_of_bgr_of.
Qed.

(** ** The function of the image *)

Lemma im_wf_pixels im :
  im_wf im → (3 ≤ bands (im_mode im))%nat →
  Forall (λ p, (3 ≤ length p)%nat ∧ Forall is_byte p) (im_data im).
Proof.
  intros [_ Hpx] Hb. eapply Forall_impl; [done |]. intros p [-> ?]. done.
Qed.

Lemma buffer_of_bands im :
  im_wf im → (3 ≤ bands (im_mode im))%nat → im_data im ≠ [] →
  buffer_of_pix (pixels im) =
  if decide (length (im_data im) ≠ 256%nat) then Ok blank_frame
  else Ok (wire_frame (im_data im)).
Proof.
  intros Hwf Hb Hne. pose proof (bands_range (im_mode im)).
  rewrite pixels_tuples by lia.
  rewrite (buffer_of_pix_tuples (bands (im_mode im)))
    by (lia || done || by apply im_wf_lengths).
  case_decide as Hlen; [done |].
  apply rearange_wire_frame, bgr_frame_ok; [lia | by apply im_wf_pixels].
Qed.

Lemma buffer_of_image im :
  im_wf im → buffer_of_pix (pixels im) = loader_spec (Some (Encoded im)).
Proof.
  intros Hwf. unfold loader_spec. case_decide as Hne.
  { unfold pixels. by rewrite Hne. }
  pose proof (bands_range (im_mode im)) as Hr.
  destruct (bands (im_mode im)) as [|[|[|n]]] eqn:Hb; [lia | | |].
  - rewrite pixels_ints by done. by apply buffer_of_pix_ints.
  - rewrite pixels_tuples by lia. apply buffer_of_pix_pairs; [done |].
    rewrite <-Hb. by apply im_wf_lengths.
  - rewrite buffer_of_bands by (done || lia). done.
Qed.

Lemma imageToBuffer_file fs fname im :
  fs !! fname = Some (Encoded im) →
  imageToBuffer fs fname = buffer_of_pix (pixels im).
Proof.
  intros Hf%Image_open_Encoded. unfold imageToBuffer. by rewrite Hf.
Qed.

(** ** Theorems *)

(** A 16 x 16 RGB image with one coloured pixel at row 2, column 10, the
    same image with an alpha band, a grey image and a file that is no
    image. *)
Definition sample_image : image :=
  mk_image ModeRGB 16 16 (<[42%nat := [10; 20; 30]]> (replicate 256 [0; 0; 0])).

Definition sample_rgba : image :=
  mk_image ModeRGBA 16 16 (<[42%nat := [10; 20; 30; 255]]> (replicate 256 [0; 0; 0; 0])).

Definition sample_fs : gmap string file :=
  {[ "umbrella.png" := Encoded sample_image;
     "alpha.png" := Encoded sample_rgba;
     "grey.png" := Encoded (mk_image ModeL 2 1 [[7]; [9]]);
     "icon.png" := Encoded (mk_image ModeRGB 1 1 [[200; 1; 7]]);
     "cut.png" := Truncated sample_image;
     "notes.txt" := Garbage ]}.

Lemma sample_image_wf : im_wf sample_image.
Proof. by apply (bool_decide_unpack _); vm_compute. Qed.

Lemma sample_rgba_wf : im_wf sample_rgba.
Proof. by apply (bool_decide_unpack _); vm_compute. Qed.

Lemma sample_fs_wf : fs_wf sample_fs.
Proof. by apply (bool_decide_unpack _); vm_compute. Qed.

(** C8. Whenever [imageToBuffer] returns, it returns exactly 768 bytes,
    whatever the file holds. *)
Theorem imageToBuffer_size fs fname bs :
  imageToBuffer fs fname = Ok bs → length bs = 768%nat ∧ Forall is_byte bs.
Proof.
  intros (h & _ & (pix & _ & Hbs)%bind_Ok)%bind_Ok. by apply buffer_of_pix_size in Hbs.
Qed.

Lemma imageToBuffer_size_witness :
  length (wire_frame (im_data sample_image)) = 768%nat ∧
  Forall is_byte (wire_frame (im_data sample_image)).
Proof.
  apply (imageToBuffer_size sample_fs "umbrella.png").
  rewrite (imageToBuffer_file _ _ sample_image) by done.
  by rewrite buffer_of_bands by (apply sample_image_wf || done || simpl; lia).
Defined.

(** C13. When every image file decodes to a well-formed image,
    [imageToBuffer] returns what [loader_spec] says: the error of the
    library for a missing, undecodable or truncated file, [IndexError]
    for an image without pixels, [TypeError] for one band, [ValueError]
    for two, the blank frame for three or four bands and a size other
    than 256 pixels, and the image in wire order, as b, g, r, for 256
    pixels. *)
Theorem imageToBuffer_spec fs fname :
  fs_wf fs → imageToBuffer fs fname = loader_spec (fs !! fname).
Proof.
  intros Hfs. destruct (fs !! fname) as [[im|im|]|] eqn:Hf.
  - rewrite (imageToBuffer_file _ _ im) by done. apply buffer_of_image, (Hfs _ _ Hf).
  - unfold imageToBuffer, Image_open. by rewrite Hf.
  - unfold imageToBuffer, Image_open. by rewrite Hf.
  - unfold imageToBuffer, Image_open. by rewrite Hf.
Qed.

Lemma imageToBuffer_spec_witness :
  imageToBuffer sample_fs "cut.png" = loader_spec (sample_fs !! "cut.png").
Proof. apply (imageToBuffer_spec sample_fs "cut.png"), sample_fs_wf. Defined.

(** C23. On a 256-pixel image of three or four bands the result is, for
    each wire position k in order, the pixel [src_index k] of the image
    with its first three bands swapped to (b, g, r). *)
Theorem imageToBuffer_rgb fs fname im :
  fs !! fname = Some (Encoded im) → im_wf im →
  (3 ≤ bands (im_mode im))%nat → length (im_data im) = 256%nat →
  imageToBuffer fs fname = Ok (wire_frame (im_data im)).
Proof.
  intros Hf Hwf Hb Hlen. rewrite (imageToBuffer_file _ _ im) by done.
  assert (im_data im ≠ []) by (intros Hnil; by rewrite Hnil in Hlen).
  rewrite buffer_of_bands by done. by rewrite decide_False by lia.
Qed.

Lemma imageToBuffer_rgb_witness :
  imageToBuffer sample_fs "umbrella.png" = Ok (wire_frame (im_data sample_image)).
Proof.
  apply (imageToBuffer_rgb sample_fs "umbrella.png" sample_image);
    [done | apply sample_image_wf | simpl; lia | done].
Defined.

(** C5. Round trip: the buffer of a 256-pixel image of three or four
    bands holds the whole image: [image_of_buffer] reads the first
    three bands of every pixel of the image off it, in row-major
    order. *)
Theorem imageToBuffer_roundtrip fs fname im bs :
  fs !! fname = Some (Encoded im) → im_wf im →
  (3 ≤ bands (im_mode im))%nat → length (im_data im) = 256%nat →
  imageToBuffer fs fname = Ok bs →
  image_of_buffer bs = Some (take 3 <$> im_data im).
Proof.
  intros Hf Hwf Hb Hlen. rewrite (imageToBuffer_file _ _ im) by done.
  assert (im_data im ≠ []) by (intros Hnil; by rewrite Hnil in Hlen).
  rewrite buffer_of_bands, decide_False by (done || lia). intros <-%(inj Ok).
  by apply unwire_wire_frame, im_wf_pixels.
Qed.

Lemma imageToBuffer_roundtrip_witness :
  image_of_buffer (wire_frame (im_data sample_rgba))
  = Some (take 3 <$> im_data sample_rgba).
Proof.
  apply (imageToBuffer_roundtrip sample_fs "alpha.png" sample_rgba);
    [done | apply sample_rgba_wf | simpl; lia | done |].
  rewrite (imageToBuffer_file _ _ sample_rgba) by done.
  rewrite buffer_of_bands by (apply sample_rgba_wf || (simpl; lia) || done). done.
Defined.

(** C4. End to end: the pixel (r, g, b) at [row], [col] of a 16 x 16 RGB
    image is found at byte offset [3 * wire_pos row col] of the buffer
    the loader returns, as b, g, r. *)
Theorem imageToBuffer_pixel_at fs fname im (row col : nat) r g b :
  fs !! fname = Some (Encoded im) → im_wf im → im_mode im = ModeRGB →
  im_width im = 16%nat → im_height im = 16%nat →
  (row < 16)%nat → (col < 16)%nat →
  getpixel im col row = Some [r; g; b] →
  ∃ bs, imageToBuffer fs fname = Ok bs ∧
    bs !! (wire_pos row col * 3)%nat = Some b ∧
    bs !! (wire_pos row col * 3 + 1)%nat = Some g ∧
    bs !! (wire_pos row col * 3 + 2)%nat = Some r.
Proof.
  intros Hf Hwf Hm Hw Hh Hr Hc Hp. rewrite getpixel_lookup, Hw in Hp by lia.
  pose proof Hwf as [Hlen _]. rewrite Hw, Hh in Hlen.
  assert (3 ≤ bands (im_mode im))%nat as Hb by (rewrite Hm; simpl; lia).
  exists (concat (rearange_loop (bgr_of <$> im_data im))).
  pose proof (bgr_frame_ok _ Hlen (im_wf_pixels _ Hwf Hb)) as Hok.
  split.
  { rewrite (imageToBuffer_rgb _ _ im), <-rearange_wire_frame by done.
    by rewrite rearange_frame. }
  assert ((bgr_of <$> im_data im) !! src_index (wire_pos row col) = Some [b; g; r])
    as Hq by by rewrite src_index_wire_pos, list_lookup_fmap, Hp.
  pose proof (wire_pos_lt row col Hr Hc) as Hlt.
  rewrite <-(Nat.add_0_r (wire_pos row col * 3)) at 1.
  by rewrite !(frame_wire_bytes _ _ _ [b; g; r]) by (done || lia).
Qed.

Lemma imageToBuffer_pixel_at_witness :
  ∃ bs, imageToBuffer sample_fs "umbrella.png" = Ok bs ∧
    bs !! (wire_pos 2 10 * 3)%nat = Some 30 ∧
    bs !! (wire_pos 2 10 * 3 + 1)%nat = Some 20 ∧
    bs !! (wire_pos 2 10 * 3 + 2)%nat = Some 10.
Proof.
  apply (imageToBuffer_pixel_at sample_fs "umbrella.png" sample_image 2 10 10 20 30);
    [done | apply sample_image_wf | done | done | done | lia | lia | done].
Defined.

(** C25. An image of four bands (RGBA, but CMYK too) gives what the image
    of its first three bands gives: the fourth band is dropped and never
    looked at. *)
Theorem imageToBuffer_alpha fs fname im :
  im_wf im → bands (im_mode im) = 4%nat →
  imageToBuffer (<[fname := Encoded im]> fs) fname =
  imageToBuffer (<[fname := Encoded (drop_alpha im)]> fs) fname.
Proof.
  intros Hwf Hb.
  rewrite (imageToBuffer_file _ _ im), (imageToBuffer_file _ _ (drop_alpha im))
    by apply lookup_insert_eq.
  destruct (decide (im_data im = [])) as [Hnil|Hne].
  { unfold pixels. simpl. by rewrite Hnil. }
  rewrite pixels_tuples by lia. rewrite (pixels_tuples (drop_alpha im)) by done.
  pose proof (im_wf_lengths im Hwf) as Hlen. rewrite Hb in Hlen. simpl.
  rewrite (buffer_of_pix_tuples 4), (buffer_of_pix_tuples 3); auto.
  - rewrite length_fmap, <-list_fmap_compose.
    replace (bgr_of ∘ take 3 <$> im_data im) with (bgr_of <$> im_data im); [done |].
    apply Forall_fmap_ext. eapply Forall_impl; [done |].
    intros p Hp. simpl. by rewrite bgr_of_take.
  - by destruct (im_data im).
  - apply Forall_fmap. eapply Forall_impl; [done |].
    intros p Hp. simpl in *. rewrite length_take. lia.
Qed.

Lemma imageToBuffer_alpha_witness :
  imageToBuffer (<["alpha.png" := Encoded sample_rgba]> sample_fs) "alpha.png" =
  imageToBuffer (<["alpha.png" := Encoded (drop_alpha sample_rgba)]> sample_fs) "alpha.png".
Proof.
  apply (imageToBuffer_alpha sample_fs "alpha.png" sample_rgba);
    [apply sample_rgba_wf | done].
Defined.

(** C24. An image of three or four bands that holds at least one pixel and
    not exactly 256 gives the blank frame of 768 zero bytes, whatever its
    colours. *)
Theorem imageToBuffer_fallback fs fname im :
  fs !! fname = Some (Encoded im) → im_wf im →
  (3 ≤ bands (im_mode im))%nat →
  im_data im ≠ [] → length (im_data im) ≠ 256%nat →
  imageToBuffer fs fname = Ok (replicate 768 0).
Proof.
  intros Hf Hwf Hb Hne Hlen. rewrite (imageToBuffer_file _ _ im) by done.
  rewrite buffer_of_bands by done. by rewrite decide_True.
Qed.

Lemma imageToBuffer_fallback_witness :
  imageToBuffer sample_fs "icon.png" = Ok (replicate 768 0).
Proof.
  apply (imageToBuffer_fallback sample_fs "icon.png"
           (mk_image ModeRGB 1 1 [[200; 1; 7]]));
    [done | by apply (bool_decide_unpack _); vm_compute | simpl; lia | done | done].
Defined.

(** C39. On a well-formed image the loader raises exactly in three cases:
    [IndexError] when the image has no pixel (from [pix[0]], before the
    size test), [TypeError] when it has one band ([len] of an integer)
    and [ValueError] when it has two (unpacking a pair into r, g, b). *)
Theorem imageToBuffer_errors fs fname im e :
  fs !! fname = Some (Encoded im) → im_wf im →
  imageToBuffer fs fname = Raise e ↔
  (im_data im = [] ∧ e = IndexError) ∨
  (im_data im ≠ [] ∧ bands (im_mode im) = 1%nat ∧ e = TypeError) ∨
  (im_data im ≠ [] ∧ bands (im_mode im) = 2%nat ∧ e = ValueError).
Proof.
  intros Hf Hwf. rewrite (imageToBuffer_file _ _ im), buffer_of_image by done.
  unfold loader_spec. pose proof (bands_range (im_mode im)).
  case_decide as Hne.
  { split; [intros [= <-]; by left | by intros [[_ ->]|[[? _]|[? _]]]]. }
  destruct (bands (im_mode im)) as [|[|[|n]]]; [lia | | |].
  - split; [intros [= <-]; by right; left | by intros [[? _]|[(_ & _ & ->)|(_ & ? & _)]]].
  - split; [intros [= <-]; by right; right | by intros [[? _]|[(_ & ? & _)|(_ & _ & ->)]]].
  - split; [by case_decide | by intros [[? _]|[(_ & ? & _)|(_ & ? & _)]]].
Qed.

Lemma imageToBuffer_errors_witness :
  imageToBuffer sample_fs "grey.png" = Raise TypeError ↔
  (im_data (mk_image ModeL 2 1 [[7]; [9]]) = [] ∧ TypeError = IndexError) ∨
  (im_data (mk_image ModeL 2 1 [[7]; [9]]) ≠ [] ∧
   bands (im_mode (mk_image ModeL 2 1 [[7]; [9]])) = 1%nat ∧ TypeError = TypeError) ∨
  (im_data (mk_image ModeL 2 1 [[7]; [9]]) ≠ [] ∧
   bands (im_mode (mk_image ModeL 2 1 [[7]; [9]])) = 2%nat ∧ TypeError = ValueError).
Proof.
  apply (imageToBuffer_errors sample_fs "grey.png" (mk_image ModeL 2 1 [[7]; [9]]));
    [done | by apply (bool_decide_unpack _); vm_compute].
Defined.
