(* ===== verification/Socket.v ===== *)
(** * The UDP socket the sender owns

    [Socket] states what the sender relies on: [socket.socket] returns
    a socket with no datagram sent and broadcasting off, or raises
    [OSError] when the system has none to give; [setsockopt] switches
    broadcasting, and a [sendto] that returns hands exactly one datagram
    to the network, after the earlier ones; a [sendto] to a port outside
    0..65535 raises [OverflowError] before anything reaches the network,
    and any other [sendto] that fails raises [OSError]; a call that
    raises hands over nothing.  The sender's theorems are proved against
    this interface.

    Two implementations discharge it.  [udp] follows the rules of a
    datagram socket that matter to the program: the port is checked
    first, a datagram of more than 65507 bytes is refused, and so is one
    addressed to the limited broadcast address while [SO_BROADCAST] is
    off.  [flaky] is a [udp] socket behind a network that fails after a
    given number of datagrams, and [no_socket] is a system that has no
    socket left to give.  Both are modelled from the documentation of the socket
    interface: the operating system is not part of the repository. *)

From S2P Require Import Prelude.

(** ** Data *)

(** [(host, port)] *)
Definition address : Type := string * Z.

(** The bytes handed to [sendto] and their destination. *)
Definition datagram : Type := list Z * address.

(** A UDP port number: what [sendto] accepts as the second component of
    an address. *)
Definition is_port (p : Z) : Prop := 0 ≤ p ≤ 65535.

#[global] Instance is_port_dec p : Decision (is_port p).
Proof. unfold is_port. apply _. Defined.

(** ** The interface *)

Class Socket (Sk : Type) : Type := {
  sock_socket : result Sk;
  sock_setsockopt_broadcast : Sk → Z → Sk;
  sock_sendto : Sk → list Z → address → result Sk;
  sock_sent : Sk → list datagram;
  sock_broadcast : Sk → bool;
  sock_socket_Ok s :
    sock_socket = Ok s → sock_sent s = [] ∧ sock_broadcast s = false;
  sock_socket_Raise e : sock_socket = Raise e → e = OSError;
  sock_setsockopt_sent s v :
    sock_sent (sock_setsockopt_broadcast s v) = sock_sent s;
  sock_setsockopt_flag s v :
    sock_broadcast (sock_setsockopt_broadcast s v) = bool_decide (v ≠ 0);
  sock_sendto_Ok s d a s' :
    sock_sendto s d a = Ok s' →
    sock_sent s' = sock_sent s ++ [(d, a)] ∧ sock_broadcast s' = sock_broadcast s;
  sock_sendto_port s d a : ¬ is_port a.2 → sock_sendto s d a = Raise OverflowError;
  sock_sendto_Raise s d a e : is_port a.2 → sock_sendto s d a = Raise e → e = OSError
}.

(** ** A datagram socket *)

Record udp : Type := mk_udp {
  udp_broadcast : bool;
  udp_sent : list datagram
}.

Definition limited_broadcast : string := "255.255.255.255".

(** The largest payload of a UDP datagram over IPv4. *)
Definition max_udp_payload : Z := 65507.

Definition udp_open : udp := mk_udp false [].

Lemma udp_open_Ok (s : udp) : Ok udp_open = Ok s → udp_sent s = [] ∧ udp_broadcast s = false.
Proof. by intros [= <-]. Qed.

Definition udp_setsockopt_broadcast (s : udp) (v : Z) : udp :=
  mk_udp (bool_decide (v ≠ 0)) (udp_sent s).

(** [sendto] of a datagram socket.  The host of the address is taken
    to be a dotted address, as the two the program uses are: a host
    name would be resolved before the port is looked at, and the error
    of a name that does not resolve ([socket.gaierror], an [OSError])
    would come before the [OverflowError] of a port out of range.  For
    an address the order of the two tests cannot be observed. *)
Definition udp_sendto (s : udp) (d : list Z) (a : address) : result udp :=
  if decide (¬ is_port a.2) then Raise OverflowError
  else if decide (max_udp_payload < Z.of_nat (length d)) then Raise OSError
  else if decide (a.1 = limited_broadcast ∧ udp_broadcast s = false) then Raise OSError
  else Ok (mk_udp (udp_broadcast s) (udp_sent s ++ [(d, a)])).

Lemma udp_sendto_Ok s d a s' :
  udp_sendto s d a = Ok s' →
  udp_sent s' = udp_sent s ++ [(d, a)] ∧ udp_broadcast s' = udp_broadcast s.
Proof. unfold udp_sendto. repeat case_decide; by intros [= <-]. Qed.

Lemma udp_sendto_port s d a : ¬ is_port a.2 → udp_sendto s d a = Raise OverflowError.
Proof. intros Hp. unfold udp_sendto. by rewrite decide_True. Qed.

Lemma udp_sendto_Raise s d a e :
  is_port a.2 → udp_sendto s d a = Raise e → e = OSError.
Proof. intros Hp. unfold udp_sendto. repeat case_decide; by intros [= <-]. Qed.

#[export] Instance udp_socket : Socket udp := {|
  sock_socket := Ok udp_open;
  sock_setsockopt_broadcast := udp_setsockopt_broadcast;
  sock_sendto := udp_sendto;
  sock_sent := udp_sent;
  sock_broadcast := udp_broadcast;
  sock_socket_Ok := udp_open_Ok;
  sock_socket_Raise e := ltac:(done);
  sock_setsockopt_sent _ _ := eq_refl;
  sock_setsockopt_flag _ _ := eq_refl;
  sock_sendto_Ok := udp_sendto_Ok;
  sock_sendto_port := udp_sendto_port;
  sock_sendto_Raise := udp_sendto_Raise
|}.

(** ** A socket behind a network that fails *)

Record flaky : Type := mk_flaky {
  flaky_left : nat;
  flaky_udp : udp
}.

Definition flaky_sendto (s : flaky) (d : list Z) (a : address) : result flaky :=
  if decide (¬ is_port a.2) then Raise OverflowError
  else match flaky_left s with
       | O => Raise OSError
       | S n => u ← udp_sendto (flaky_udp s) d a; Ok (mk_flaky n u)
       end.

Lemma flaky_sendto_Ok s d a s' :
  flaky_sendto s d a = Ok s' →
  udp_sent (flaky_udp s') = udp_sent (flaky_udp s) ++ [(d, a)] ∧
  udp_broadcast (flaky_udp s') = udp_broadcast (flaky_udp s).
Proof.
  unfold flaky_sendto. case_decide; [done |]. destruct (flaky_left s); [done |].
  intros (u & Hu & [= <-])%bind_Ok. by apply udp_sendto_Ok.
Qed.

Lemma flaky_sendto_port s d a : ¬ is_port a.2 → flaky_sendto s d a = Raise OverflowError.
Proof. intros Hp. unfold flaky_sendto. by rewrite decide_True. Qed.

Lemma flaky_sendto_Raise s d a e :
  is_port a.2 → flaky_sendto s d a = Raise e → e = OSError.
Proof.
  intros Hp. unfold flaky_sendto. rewrite decide_False by tauto.
  destruct (flaky_left s); [by intros [= <-] |].
  intros [Hu|(u & _ & [=])]%bind_Raise. by apply udp_sendto_Raise in Hu.
Qed.

Lemma flaky_open_Ok budget (s : flaky) :
  Ok (mk_flaky budget udp_open) = Ok s →
  udp_sent (flaky_udp s) = [] ∧ udp_broadcast (flaky_udp s) = false.
Proof. by intros [= <-]. Qed.

(** A socket that sends [budget] datagrams and then fails. *)
Definition flaky_socket (budget : nat) : Socket flaky := {|
  sock_socket := Ok (mk_flaky budget udp_open);
  sock_setsockopt_broadcast s v :=
    mk_flaky (flaky_left s) (udp_setsockopt_broadcast (flaky_udp s) v);
  sock_sendto := flaky_sendto;
  sock_sent s := udp_sent (flaky_udp s);
  sock_broadcast s := udp_broadcast (flaky_udp s);
  sock_socket_Ok := flaky_open_Ok budget;
  sock_socket_Raise e := ltac:(done);
  sock_setsockopt_sent _ _ := eq_refl;
  sock_setsockopt_flag _ _ := eq_refl;
  sock_sendto_Ok := flaky_sendto_Ok;
  sock_sendto_port := flaky_sendto_port;
  sock_sendto_Raise := flaky_sendto_Raise
|}.

(** ** A system with no socket left *)

Lemma no_socket_Raise e : Raise (A:=udp) OSError = Raise e → e = OSError.
Proof. by intros [= <-]. Qed.

(** [socket.socket] raises [OSError], as it does when the process has
    used up its descriptors. *)
Definition no_socket : Socket udp := {|
  sock_socket := Raise OSError;
  sock_setsockopt_broadcast := udp_setsockopt_broadcast;
  sock_sendto := udp_sendto;
  sock_sent := udp_sent;
  sock_broadcast := udp_broadcast;
  sock_socket_Ok s := ltac:(done);
  sock_socket_Raise := no_socket_Raise;
  sock_setsockopt_sent _ _ := eq_refl;
  sock_setsockopt_flag _ _ := eq_refl;
  sock_sendto_Ok := udp_sendto_Ok;
  sock_sendto_port := udp_sendto_port;
  sock_sendto_Raise := udp_sendto_Raise
|}.

(** ** Lemmas *)

(** A [sendto] that returns was given a port. *)
Lemma sock_sendto_Ok_port `{Socket Sk} (s s' : Sk) d a :
  sock_sendto s d a = Ok s' → is_port a.2.
Proof.
  intros Hs. destruct (decide (is_port a.2)) as [|Hp]; [done |].
  by rewrite (sock_sendto_port _ _ _ Hp) in Hs.
Qed.

(** On a [udp] socket with broadcasting on, a datagram that fits is
    always sent to a port. *)
Lemma udp_sendto_total (s : udp) d a :
  is_port a.2 → udp_broadcast s = true → Z.of_nat (length d) ≤ max_udp_payload →
  udp_sendto s d a = Ok (mk_udp true (udp_sent s ++ [(d, a)])).
Proof.
  intros Hp Hb Hd. unfold udp_sendto. rewrite decide_False by tauto.
  rewrite decide_False by lia. rewrite decide_False by (rewrite Hb; by intros [_ ?]).
  by rewrite Hb.
Qed.

(** With broadcasting off the limited broadcast address is refused. *)
Lemma udp_sendto_no_broadcast (s : udp) d port :
  is_port port → udp_broadcast s = false →
  udp_sendto s d (limited_broadcast, port) = Raise OSError.
Proof.
  intros Hp Hb. unfold udp_sendto. rewrite decide_False by (simpl; tauto).
  case_decide; [done |]. by rewrite decide_True.
Qed.

Lemma flaky_sendto_exhausted (u : udp) d a :
  is_port a.2 → flaky_sendto (mk_flaky 0 u) d a = Raise OSError.
Proof. intros Hp. unfold flaky_sendto. by rewrite decide_False by tauto. Qed.
