(* ===== verification/ArtNet.v ===== *)
(** * The datagram sender: class [ArtNet]

    The object is a record of its attributes.  [__init__] returns the
    object or the exception [socket.socket] raised, in which case there
    is no object.  A method takes the object and returns the new object
    or the exception raised, in which case the caller still holds the
    old object: every assignment of [sendrgb] and [sendwa] comes after
    the last call that can raise.  The socket is any implementation of
    [Socket.Socket].

    [transmit] is the common body of the two methods, as a reference
    definition; [cmd], [exec], [run] and [step] describe sequences of
    calls, for the properties of everything a sender has sent. *)

From S2P Require Import Prelude PyBuiltins Socket.

Module ArtNet.

Section sender.
Context {Sk : Type} `{!Socket Sk}.

(** ** State *)

Record obj : Type := mk {
  seq : Z;
  dst : string;
  port : Z;
  brightness : Z;
  controlb : bool;
  sock : Sk;
  universe : Z;
  hdr : list Z
}.

(** ** [__init__] *)

Definition default_dst : string := "255.255.255.255".
Definition default_port : Z := 0x1936.
Definition default_brightness : Z := 6.
Definition default_controlb : bool := true.

Definition init (dst : string) (port brightness : Z) (controlb : bool) : result obj :=
  s ← sock_socket;
  Ok {| seq := 0;
        dst := dst;
        port := port;
        brightness := 8 - brightness;
        controlb := controlb;
        sock := sock_setsockopt_broadcast s 1;
        universe := 3;
        hdr := (bytes_of_string "Art-Net" ++ [0]) ++ ([0; 0x50] ++ [0; 14]) |}.

(** ** [sendrgb] and [sendwa] *)

(** The two assignments a method ends with: the socket after [sendto]
    and [self.seq = (self.seq + 1) % 256]. *)
Definition sent_one (self : obj) (sock' : Sk) : obj :=
  {| seq := (seq self + 1) `mod` 256;
     dst := dst self;
     port := port self;
     brightness := brightness self;
     controlb := controlb self;
     sock := sock';
     universe := universe self;
     hdr := hdr self |}.

Definition sendrgb (self : obj) (r g b : Z) : result obj :=
  buf ← bytearray (py_list_mul [r; g; b; 0; 0] 12);
  p_seq ← pack_B (seq self);
  p_uni ← pack_H_le (universe self);
  p_len ← pack_H_be (Z.of_nat (length buf));
  sock' ← sock_sendto (sock self)
    (hdr self ++ p_seq ++ [0] ++ p_uni ++ p_len ++ buf) (dst self, port self);
  Ok (sent_one self sock').

Definition sendwa (self : obj) (w a : Z) : result obj :=
  buf ← bytearray (py_list_mul [0; 0; 0; a; w] 12);
  p_seq ← pack_B (seq self);
  p_uni ← pack_H_le (universe self);
  p_len ← pack_H_be (Z.of_nat (length buf));
  sock' ← sock_sendto (sock self)
    (hdr self ++ p_seq ++ [0] ++ p_uni ++ p_len ++ buf) (dst self, port self);
  Ok (sent_one self sock').

(** ** Reference definitions *)

(** The twelve fixed bytes every datagram starts with. *)
Definition artdmx_header : list Z :=
  [65; 114; 116; 45; 78; 101; 116; 0; 0; 80; 0; 14].

(** The datagram of an object for a payload: header, sequence number,
    physical port 0, universe low byte first, length high byte first,
    payload. *)
Definition frame (self : obj) (payload : list Z) : list Z :=
  hdr self ++
  [seq self; 0; universe self `mod` 256; universe self `div` 256;
   Z.of_nat (length payload) `div` 256; Z.of_nat (length payload) `mod` 256] ++
  payload.

(** The common body of [sendrgb] and [sendwa]. *)
Definition transmit (self : obj) (payload : list Z) : result obj :=
  buf ← bytearray payload;
  p_seq ← pack_B (seq self);
  p_uni ← pack_H_le (universe self);
  p_len ← pack_H_be (Z.of_nat (length buf));
  sock' ← sock_sendto (sock self)
    (hdr self ++ p_seq ++ [0] ++ p_uni ++ p_len ++ buf) (dst self, port self);
  Ok (sent_one self sock').

Definition rgb_payload (r g b : Z) : list Z := py_list_mul [r; g; b; 0; 0] 12.
Definition wa_payload (w a : Z) : list Z := py_list_mul [0; 0; 0; a; w] 12.

(** Well-formed objects: what [pack] needs of the attributes. *)
Definition wf (self : obj) : Prop :=
  is_byte (seq self) ∧ is_u16 (universe self) ∧ Forall is_byte (hdr self).

(** ** Sequences of calls *)

Inductive cmd : Type :=
| RGB (r g b : Z)
| WA (w a : Z).

#[global] Instance cmd_eq_dec : EqDecision cmd.
Proof. solve_decision. Defined.

Definition exec (self : obj) (c : cmd) : result obj :=
  match c with
  | RGB r g b => sendrgb self r g b
  | WA w a => sendwa self w a
  end.

Definition payload_of (c : cmd) : list Z :=
  match c with
  | RGB r g b => rgb_payload r g b
  | WA w a => wa_payload w a
  end.

Fixpoint run (self : obj) (cs : list cmd) : result obj :=
  match cs with
  | [] => Ok self
  | c :: cs => self' ← exec self c; run self' cs
  end.

(** One successful call. *)
Inductive step : obj → obj → Prop :=
| step_exec self c self' : exec self c = Ok self' → step self self'.

(** ** The body of a method *)

Lemma sendrgb_transmit self r g b :
  sendrgb self r g b = transmit self (rgb_payload r g b).
Proof. done. Qed.

Lemma sendwa_transmit self w a :
  sendwa self w a = transmit self (wa_payload w a).
Proof. done. Qed.

Lemma exec_transmit self c : exec self c = transmit self (payload_of c).
Proof. by destruct c. Qed.

(** On a well-formed object the three [pack] calls cannot raise: a call
    succeeds exactly when the payload is made of bytes, is short enough
    for its length field and the socket sends the datagram. *)
Lemma transmit_Ok self payload self' :
  wf self →
  transmit self payload = Ok self' ↔
  Forall is_byte payload ∧ is_u16 (Z.of_nat (length payload)) ∧
  ∃ sock', sock_sendto (sock self) (frame self payload) (dst self, port self) = Ok sock'
    ∧ self' = sent_one self sock'.
Proof.
  intros (Hseq & Huni & _). unfold transmit, frame. split.
  - intros H. inv_bind.
    repeat match goal with
    | H : bytearray _ = Ok _ |- _ => apply bytearray_Ok in H as [? ->]
    | H : pack_B _ = Ok _ |- _ => apply pack_B_Ok in H as [? ->]
    | H : pack_H_le _ = Ok _ |- _ => apply pack_H_le_Ok in H as [? ->]
    | H : pack_H_be _ = Ok _ |- _ => apply pack_H_be_Ok in H as [? ->]
    end.
    subst. eauto.
  - intros (Hp & Hlen & sock' & Hs & ->).
    rewrite (bytearray_bytes _ Hp), bind_Ok_l.
    rewrite (proj2 (pack_B_Ok _ _) (conj Hseq eq_refl)), bind_Ok_l.
    rewrite (proj2 (pack_H_le_Ok _ _) (conj Huni eq_refl)), bind_Ok_l.
    rewrite (proj2 (pack_H_be_Ok _ _) (conj Hlen eq_refl)), bind_Ok_l.
    simpl in *. by rewrite Hs.
Qed.

Lemma transmit_Raise self payload e :
  wf self →
  transmit self payload = Raise e ↔
  (e = ValueError ∧ ¬ Forall is_byte payload) ∨
  (e = StructError ∧ Forall is_byte payload ∧ ¬ is_u16 (Z.of_nat (length payload))) ∨
  (Forall is_byte payload ∧ is_u16 (Z.of_nat (length payload)) ∧
   sock_sendto (sock self) (frame self payload) (dst self, port self) = Raise e).
Proof.
  intros (Hseq & Huni & _). unfold transmit, frame, bytearray.
  destruct (decide (Forall is_byte payload)) as [Hp|Hp]; simpl.
  2: { split; [intros [= <-]; by left | intros [[-> _]|[(_ & ? & _)|(? & _)]]; done]. }
  rewrite (proj2 (pack_B_Ok _ _) (conj Hseq eq_refl)), bind_Ok_l.
  rewrite (proj2 (pack_H_le_Ok _ _) (conj Huni eq_refl)), bind_Ok_l.
  unfold pack_H_be. rewrite land_255_mod, Z.shiftr_div_pow2 by lia.
  destruct (decide (is_u16 (Z.of_nat (length payload)))) as [Hlen|Hlen]; simpl.
  2: { split; [intros [= <-]; right; by left
              | intros [[_ ?]|[(-> & _)|(_ & ? & _)]]; done]. }
  change (2 ^ 8) with 256.
  destruct (sock_sendto _ _ _) as [sock'|e'] eqn:Hs; simpl.
  - split; [done | intros [[_ ?]|[(_ & _ & ?)|(_ & _ & ?)]]; done].
  - split; [intros [= <-]; by do 2 right | intros [[_ ?]|[(_ & _ & ?)|(_ & _ & ?)]]; congruence].
Qed.

(** ** Payloads *)

Lemma rgb_payload_eq r g b :
  rgb_payload r g b = concat (replicate 12 [r; g; b; 0; 0]).
Proof. done. Qed.

Lemma wa_payload_eq w a :
  wa_payload w a = concat (replicate 12 [0; 0; 0; a; w]).
Proof. done. Qed.

Lemma rgb_payload_bytes r g b :
  Forall is_byte (rgb_payload r g b) ↔ is_byte r ∧ is_byte g ∧ is_byte b.
Proof.
  split.
  - intros H%py_list_mul_Forall_inv; [|lia].
    by apply Forall_cons in H as (? & (? & (? & _)%Forall_cons)%Forall_cons).
  - intros (? & ? & ?). apply py_list_mul_Forall. solve_Forall.
Qed.

Lemma wa_payload_bytes w a :
  Forall is_byte (wa_payload w a) ↔ is_byte w ∧ is_byte a.
Proof.
  split.
  - intros H%py_list_mul_Forall_inv; [|lia].
    do 3 apply Forall_cons in H as [_ H].
    by apply Forall_cons in H as (? & (? & _)%Forall_cons).
  - intros (? & ?). apply py_list_mul_Forall. solve_Forall.
Qed.

Lemma payload_of_length c : length (payload_of c) = 60%nat.
Proof. by destruct c. Qed.

(** The arguments of a call are bytes. *)
Definition cmd_ok (c : cmd) : Prop :=
  match c with
  | RGB r g b => is_byte r ∧ is_byte g ∧ is_byte b
  | WA w a => is_byte w ∧ is_byte a
  end.

#[global] Instance cmd_ok_dec c : Decision (cmd_ok c).
Proof. destruct c; apply _. Defined.

Lemma payload_of_bytes c : Forall is_byte (payload_of c) ↔ cmd_ok c.
Proof. destruct c; [apply rgb_payload_bytes | apply wa_payload_bytes]. Qed.

(** ** One call *)

(** What the object has sent, oldest first. *)
Definition outbox (self : obj) : list datagram := sock_sent (sock self).

Lemma exec_Ok self c self' :
  wf self →
  exec self c = Ok self' ↔
  cmd_ok c ∧
  ∃ sock', sock_sendto (sock self) (frame self (payload_of c)) (dst self, port self) = Ok sock'
    ∧ self' = sent_one self sock'.
Proof.
  intros Hwf. rewrite exec_transmit, transmit_Ok, payload_of_bytes by done.
  rewrite payload_of_length. unfold is_u16. intuition lia.
Qed.

Lemma exec_Raise self c e :
  wf self →
  exec self c = Raise e ↔
  (e = ValueError ∧ ¬ cmd_ok c) ∨
  (cmd_ok c ∧
   sock_sendto (sock self) (frame self (payload_of c)) (dst self, port self) = Raise e).
Proof.
  intros Hwf. rewrite exec_transmit, transmit_Raise, payload_of_bytes by done.
  rewrite payload_of_length. unfold is_u16. intuition lia.
Qed.

Lemma sent_one_wf self sock' : wf self → wf (sent_one self sock').
Proof.
  intros (? & ? & ?). split; [|done]. simpl. unfold is_byte. lia.
Qed.

Lemma exec_wf self c self' : wf self → exec self c = Ok self' → wf self'.
Proof.
  intros Hwf (_ & sock' & _ & ->)%exec_Ok; [|done]. by apply sent_one_wf.
Qed.

Lemma exec_outbox self c self' :
  wf self → exec self c = Ok self' →
  outbox self' = outbox self ++ [(frame self (payload_of c), (dst self, port self))].
Proof.
  intros Hwf (_ & sock' & Hs & ->)%exec_Ok; [|done].
  by apply sock_sendto_Ok in Hs as [? _].
Qed.

Lemma exec_seq self c self' :
  exec self c = Ok self' → seq self' = (seq self + 1) `mod` 256.
Proof.
  rewrite exec_transmit. unfold transmit. intros H. inv_bind. by subst.
Qed.

(** ** Sequences of calls *)

Lemma run_snoc self cs c :
  run self (cs ++ [c]) = self' ← run self cs; exec self' c.
Proof.
  revert self. induction cs as [|c' cs IH]; intros self; simpl.
  - by destruct (exec self c).
  - destruct (exec self c'); simpl; [apply IH | done].
Qed.

Lemma run_wf self cs self' : wf self → run self cs = Ok self' → wf self'.
Proof.
  revert self. induction cs as [|c cs IH]; intros self Hwf; simpl.
  - by intros [= <-].
  - intros (self1 & H1 & H2)%bind_Ok. eauto using exec_wf.
Qed.

Lemma run_seq self cs self' :
  run self cs = Ok self' →
  seq self' = (seq self + Z.of_nat (length cs)) `mod` 256 ∨ (cs = [] ∧ self' = self).
Proof.
  revert self. induction cs as [|c cs IH]; intros self; simpl.
  - intros [= <-]. by right.
  - intros (self1 & H1%exec_seq & [H2|[-> ->]]%IH)%bind_Ok; left.
    + rewrite H2, H1. simpl length. lia.
    + rewrite H1. simpl. done.
Qed.

Lemma run_rtc self cs self' : run self cs = Ok self' → rtc step self self'.
Proof.
  revert self. induction cs as [|c cs IH]; intros self; simpl.
  - by intros [= <-].
  - intros (self1 & H1 & H2)%bind_Ok.
    eapply rtc_l; [by econstructor | by apply IH].
Qed.

Lemma rtc_run self self' : rtc step self self' → ∃ cs, run self cs = Ok self'.
Proof.
  induction 1 as [self|self self1 self' [? c ? Hc] _ [cs Hcs]].
  - by exists [].
  - exists (c :: cs). simpl. by rewrite Hc.
Qed.

(** ** Everything a sender has sent *)

(** The [i]-th datagram of a sender created for [(d, p)]. *)
Definition sent_ok (d : string) (p : Z) (i : nat) (dg : datagram) : Prop :=
  ∃ payload,
    dg = (artdmx_header ++ [Z.of_nat i `mod` 256; 0; 3; 0; 0; 60] ++ payload, (d, p)) ∧
    length payload = 60%nat ∧ Forall is_byte payload.

Definition inv (d : string) (p : Z) (self : obj) : Prop :=
  wf self ∧ hdr self = artdmx_header ∧ universe self = 3 ∧
  dst self = d ∧ port self = p ∧
  seq self = Z.of_nat (length (outbox self)) `mod` 256 ∧
  ∀ i dg, outbox self !! i = Some dg → sent_ok d p i dg.

(** [__init__] returns when [socket.socket] does, and raises what it
    raises. *)
Lemma init_Ok d p b c self :
  init d p b c = Ok self ↔
  ∃ s, sock_socket = Ok s ∧
    self = mk 0 d p (8 - b) c (sock_setsockopt_broadcast s 1) 3 artdmx_header.
Proof.
  unfold init. rewrite bind_Ok. split; intros (s & Hs & Heq); exists s; split; try done.
  - by injection Heq as <-.
  - by rewrite Heq.
Qed.

Lemma init_Raise d p b c e : init d p b c = Raise e ↔ sock_socket = Raise e.
Proof.
  unfold init. rewrite bind_Raise. split; [by intros [?|(? & _ & ?)] | by left].
Qed.

Lemma init_outbox d p b c self : init d p b c = Ok self → outbox self = [].
Proof.
  intros (s & [Hs _]%sock_socket_Ok & ->)%init_Ok.
  unfold outbox. simpl. by rewrite sock_setsockopt_sent.
Qed.

Lemma init_wf d p b c self : init d p b c = Ok self → wf self.
Proof.
  intros (s & _ & ->)%init_Ok. split; [done | split; [done |]].
  by apply (bool_decide_unpack _); vm_compute.
Qed.

Lemma inv_init d p b c self : init d p b c = Ok self → inv d p self.
Proof.
  intros Hi. split; [by eapply init_wf |].
  rewrite (init_outbox _ _ _ _ _ Hi). apply init_Ok in Hi as (s & _ & ->).
  do 5 (split; [done |]). by intros i dg.
Qed.

Lemma inv_frame d p self payload :
  inv d p self → length payload = 60%nat →
  frame self payload =
  artdmx_header ++ [Z.of_nat (length (outbox self)) `mod` 256; 0; 3; 0; 0; 60] ++ payload.
Proof.
  intros (_ & Hh & Hu & _ & _ & Hs & _) Hlen. unfold frame.
  by rewrite Hh, Hu, Hs, Hlen.
Qed.

Lemma inv_step d p self self' : inv d p self → step self self' → inv d p self'.
Proof.
  intros Hinv Hst. revert Hinv. destruct Hst as [self c self' Hc].
  intros (Hwf & Hh & Hu & Hd & Hp & Hs & Hall).
  assert (inv d p self) as Hinv by done.
  pose proof (exec_outbox _ _ _ Hwf Hc) as Hout.
  pose proof (exec_seq _ _ _ Hc) as Hseq.
  apply exec_Ok in Hc as (Hok & sock' & _ & ->); [|done].
  split; [by apply sent_one_wf |]. do 4 (split; [done |]). split.
  - rewrite Hseq, Hout, Hs, length_app. simpl length. lia.
  - intros i dg. rewrite Hout.
    intros [[_ Hi]|[Hi [= <-]]]%lookup_snoc_Some; [by apply Hall |].
    exists (payload_of c). rewrite (inv_frame d p) by (done || apply payload_of_length).
    rewrite Hd, Hp, Hi. split; [done |].
    split; [apply payload_of_length | by apply payload_of_bytes].
Qed.

Lemma reachable_inv d p b c self0 self :
  init d p b c = Ok self0 → rtc step self0 self → inv d p self.
Proof. intros Hi. apply rtc_invariant; [apply inv_step | by eapply inv_init]. Qed.

(** A call that returns leaves the socket options as they were, so
    that what [__init__] has set stays set. *)
Lemma step_broadcast self self' :
  wf self → step self self' → sock_broadcast (sock self') = sock_broadcast (sock self).
Proof.
  intros Hwf Hst. destruct Hst as [self c self' Hc].
  apply exec_Ok in Hc as (_ & sock' & Hs & ->); [|done].
  by apply sock_sendto_Ok in Hs as [_ ?].
Qed.

Lemma reachable_broadcast d p b c self0 self :
  init d p b c = Ok self0 → rtc step self0 self → sock_broadcast (sock self) = true.
Proof.
  intros Hi Hrun.
  cut (inv d p self ∧ sock_broadcast (sock self) = true); [by intros [_ ?] |].
  revert Hrun. apply (rtc_invariant _ (λ self, inv d p self ∧ sock_broadcast (sock self) = true)).
  - intros x y [Hinv Hb] Hst. split; [by eapply inv_step |].
    rewrite <-Hb. apply step_broadcast; [apply Hinv | done].
  - split; [by eapply inv_init |]. apply init_Ok in Hi as (s & _ & ->).
    simpl. by rewrite sock_setsockopt_flag.
Qed.

(** The datagram of the [i]-th call of a sequence run on an object that
    had sent [base] datagrams. *)
Definition expected (d : string) (p : Z) (base i : nat) (c : cmd) : datagram :=
  (artdmx_header ++ [Z.of_nat (base + i) `mod` 256; 0; 3; 0; 0; 60] ++ payload_of c,
   (d, p)).

Lemma run_outbox d p self cs self' :
  inv d p self → run self cs = Ok self' →
  inv d p self' ∧
  outbox self' = outbox self ++ imap (expected d p (length (outbox self))) cs.
Proof.
  intros Hinv. revert self'. induction cs as [|c cs IH] using rev_ind; intros self'.
  - intros [= <-]. by rewrite app_nil_r.
  - rewrite run_snoc. intros (self1 & [Hinv1 Hout1]%IH & Hc)%bind_Ok.
    split; [eapply inv_step; [done | by econstructor] |].
    pose proof Hinv1 as (Hwf1 & _ & _ & Hd & Hp & _).
    rewrite (exec_outbox self1 c self' Hwf1 Hc).
    rewrite (inv_frame d p) by (done || apply payload_of_length).
    rewrite imap_app, (app_assoc (outbox self)), <-Hout1. f_equal. simpl.
    unfold expected. rewrite Hd, Hp, Hout1, length_app, length_imap.
    by rewrite Nat.add_0_r.
Qed.

(** A sequence of calls with byte arguments can only fail in [sendto]. *)
(** A sequence of calls with byte arguments to a port can only fail in
    the network. *)
Lemma run_Raise d p self cs e :
  is_port p → inv d p self → Forall cmd_ok cs → run self cs = Raise e → e = OSError.
Proof.
  intros Hport Hinv Hcs. revert self Hinv.
  induction Hcs as [|c cs Hc _ IH]; intros self Hinv; [done |].
  simpl. intros [Hx|(self1 & H1 & Hr)]%bind_Raise.
  - pose proof Hinv as (Hwf & _ & _ & _ & Hp & _).
    apply exec_Raise in Hx as [[_ ?]|[_ Hs]]; [done | | done].
    apply sock_sendto_Raise in Hs; [done |]. simpl. by rewrite Hp.
  - apply (IH self1); [|done]. eapply inv_step; [done | by econstructor].
Qed.

(** The exceptions of a call, by their cause. *)
Lemma exec_Raise_cases self c e :
  wf self → exec self c = Raise e →
  (e = ValueError ∧ ¬ cmd_ok c) ∨
  (e = OverflowError ∧ cmd_ok c ∧ ¬ is_port (port self)) ∨
  (e = OSError ∧ cmd_ok c ∧ is_port (port self)).
Proof.
  intros Hwf [?|[? Hs]]%exec_Raise; [by left | right | done].
  destruct (decide (is_port (port self))) as [Hp|Hp].
  - right. by pose proof (sock_sendto_Raise _ _ (_, _) _ Hp Hs) as ->.
  - left. rewrite sock_sendto_port in Hs by done. by injection Hs as <-.
Qed.

(** ** The port, which [__init__] stores unchecked *)

(** With a port outside 0..65535 a call with byte arguments raises
    [OverflowError]. *)
Lemma exec_bad_port self c :
  wf self → cmd_ok c → ¬ is_port (port self) → exec self c = Raise OverflowError.
Proof.
  intros Hwf Hc Hp. apply exec_Raise; [done |]. right. split; [done |].
  by apply sock_sendto_port.
Qed.

(** A call that returns was made on an object with a port. *)
Lemma step_port self self' : wf self → step self self' → is_port (port self).
Proof.
  intros Hwf Hst. destruct Hst as [self c self' Hc].
  apply exec_Ok in Hc as (_ & sock' & Hs & _); [|done].
  by apply sock_sendto_Ok_port in Hs.
Qed.

(** A sender created with a port that is none never gets anywhere: the
    only object reachable from it is itself. *)
Lemma bad_port_stuck d p b c0 self0 self :
  ¬ is_port p → init d p b c0 = Ok self0 → rtc step self0 self → self = self0.
Proof.
  intros Hp Hi Hrtc. destruct (rtc_inv _ _ Hrtc) as [|(self1 & Hst & _)]; [done |].
  apply step_port in Hst; [|by eapply init_wf].
  apply init_Ok in Hi as (s & _ & ->). done.
Qed.

(** ** The configuration that is stored and not used *)

Definition with_config (br : Z) (cb : bool) (self : obj) : obj :=
  {| seq := seq self;
     dst := dst self;
     port := port self;
     brightness := br;
     controlb := cb;
     sock := sock self;
     universe := universe self;
     hdr := hdr self |}.

Lemma transmit_with_config br cb self payload :
  transmit (with_config br cb self) payload = with_config br cb <$> transmit self payload.
Proof.
  unfold transmit. simpl.
  destruct (bytearray payload); simpl; [|done].
  destruct (pack_B _); simpl; [|done].
  destruct (pack_H_le _); simpl; [|done].
  destruct (pack_H_be _); simpl; [|done].
  by destruct (sock_sendto _ _ _).
Qed.

(** ** The receiver's view *)

(** What a receiver reads off a datagram: sequence number, physical
    port, universe and payload. *)
Definition parse (dg : list Z) : option (Z * Z * Z * list Z) :=
  if decide (take 12 dg = artdmx_header) then
    match drop 12 dg with
    | s :: ph :: ulo :: uhi :: lhi :: llo :: payload =>
        if decide (Z.of_nat (length payload) = lhi * 256 + llo)
        then Some (s, ph, uhi * 256 + ulo, payload) else None
    | _ => None
    end
  else None.

Lemma parse_frame_eq self payload :
  hdr self = artdmx_header →
  parse (frame self payload) = Some (seq self, 0, universe self, payload).
Proof.
  intros Hh. unfold parse, frame. rewrite Hh.
  rewrite take_app_length', drop_app_length' by done.
  rewrite decide_True by done. simpl. rewrite decide_True by lia.
  do 3 f_equal. lia.
Qed.

End sender.

Arguments obj Sk : clear implicits.

(** ** A sender on a datagram socket *)

Section udp_sender.
Implicit Types (self : obj udp) (c : cmd).

(** The sender of the demonstration, as [__init__] returns it. *)
Definition demo : obj udp :=
  mk 0 "10.20.255.255" 0x1936 2 false (mk_udp true []) 3 artdmx_header.

Lemma demo_init : init "10.20.255.255" 0x1936 6 false = Ok demo.
Proof. done. Qed.

Lemma demo_wf : wf demo.
Proof. apply (init_wf _ _ _ _ _ demo_init). Qed.

(** The object a successful [sendrgb] of [self] returns. *)
Definition mk_udp_sent self (r g b : Z) : obj udp :=
  sent_one self
    (mk_udp (udp_broadcast (sock self))
       (udp_sent (sock self) ++
        [(frame self (rgb_payload r g b), (dst self, port self))])).

Lemma udp_exec_total d p self c :
  is_port p → inv d p self → udp_broadcast (sock self) = true → cmd_ok c →
  ∃ self', exec self c = Ok self' ∧ udp_broadcast (sock self') = true.
Proof.
  intros Hport Hinv Hb Hc. pose proof Hinv as (Hwf & _ & _ & _ & Hp & _).
  eexists. rewrite exec_Ok by done. split; [split; [done |]; eexists; split; [|done] |].
  - apply (udp_sendto_total (sock self)); [simpl; by rewrite Hp | done |].
    rewrite (inv_frame d p) by (done || apply payload_of_length).
    rewrite !length_app, payload_of_length. by compute.
  - done.
Qed.

Lemma udp_run_total d p self cs :
  is_port p → inv d p self → udp_broadcast (sock self) = true → Forall cmd_ok cs →
  is_Ok (run self cs).
Proof.
  intros Hport Hinv Hb Hcs. revert self Hinv Hb.
  induction Hcs as [|c cs Hc _ IH]; intros self Hinv Hb; [by eexists |].
  destruct (udp_exec_total d p self c) as (self1 & H1 & Hb1); [done..|].
  simpl. rewrite H1. apply IH; [|done].
  eapply inv_step; [done | by econstructor].
Qed.

(** [self] as it would have been created for another port. *)
Definition with_port (p : Z) self : obj udp :=
  mk (seq self) (dst self) p (brightness self) (controlb self) (sock self)
     (universe self) (hdr self).

End udp_sender.

(** ** Theorems *)

(** C1. A [sendrgb] that returns on a well-formed object had byte
    arguments, has handed exactly one datagram to the socket, after the
    earlier ones, and has incremented the sequence counter modulo 256;
    the datagram is the header, the sequence number, physical port 0, the
    universe low byte first, the length 60 high byte first, and the group
    [r, g, b, 0, 0] twelve times. *)
Theorem sendrgb_spec {Sk : Type} `{!Socket Sk} (self self' : obj Sk) r g b :
  wf self → sendrgb self r g b = Ok self' →
  (is_byte r ∧ is_byte g ∧ is_byte b) ∧
  seq self' = (seq self + 1) `mod` 256 ∧
  outbox self' = outbox self ++
    [(hdr self ++
      [seq self; 0; universe self `mod` 256; universe self `div` 256; 0; 60] ++
      concat (replicate 12 [r; g; b; 0; 0]), (dst self, port self))].
Proof.
  intros Hwf Hs. split; [|split].
  - by apply (exec_Ok self (RGB r g b)) in Hs as [? _].
  - apply (exec_seq self (RGB r g b) self' Hs).
  - apply (exec_outbox self (RGB r g b) self' Hwf Hs).
Qed.

Lemma sendrgb_spec_witness :
  (is_byte 10 ∧ is_byte 20 ∧ is_byte 30) ∧
  seq (mk_udp_sent demo 10 20 30) = (seq demo + 1) `mod` 256 ∧
  outbox (mk_udp_sent demo 10 20 30) = outbox demo ++
    [(hdr demo ++
      [seq demo; 0; universe demo `mod` 256; universe demo `div` 256; 0; 60] ++
      concat (replicate 12 [10; 20; 30; 0; 0]), (dst demo, port demo))].
Proof.
  apply (sendrgb_spec demo (mk_udp_sent demo 10 20 30) 10 20 30);
    [apply demo_wf | done].
Defined.

(** C11. [sendwa] behaves as [sendrgb] with the group [0, 0, 0, a, w]:
    the amber argument is byte 3 of each group and the white argument
    byte 4. *)
Theorem sendwa_spec {Sk : Type} `{!Socket Sk} (self self' : obj Sk) w a :
  wf self → sendwa self w a = Ok self' →
  (is_byte w ∧ is_byte a) ∧
  seq self' = (seq self + 1) `mod` 256 ∧
  outbox self' = outbox self ++
    [(hdr self ++
      [seq self; 0; universe self `mod` 256; universe self `div` 256; 0; 60] ++
      concat (replicate 12 [0; 0; 0; a; w]), (dst self, port self))].
Proof.
  intros Hwf Hs. split; [|split].
  - by apply (exec_Ok self (WA w a)) in Hs as [? _].
  - apply (exec_seq self (WA w a) self' Hs).
  - apply (exec_outbox self (WA w a) self' Hwf Hs).
Qed.

Lemma sendwa_spec_witness :
  (is_byte 5 ∧ is_byte 9) ∧
  seq (sent_one demo (mk_udp true [(frame demo (wa_payload 5 9), (dst demo, port demo))]))
  = (seq demo + 1) `mod` 256 ∧
  outbox (sent_one demo (mk_udp true [(frame demo (wa_payload 5 9), (dst demo, port demo))]))
  = outbox demo ++
    [(hdr demo ++
      [seq demo; 0; universe demo `mod` 256; universe demo `div` 256; 0; 60] ++
      concat (replicate 12 [0; 0; 0; 9; 5]), (dst demo, port demo))].
Proof.
  apply (sendwa_spec demo
    (sent_one demo (mk_udp true [(frame demo (wa_payload 5 9), (dst demo, port demo))]))
    5 9); [apply demo_wf | done].
Defined.

(** C32. [__init__] raises only when [socket.socket] does, and then
    [OSError].  The object it returns otherwise has sequence number 0,
    the destination and the port it was given, [8 - brightness] as its
    brightness, universe 3 and the twelve header bytes; it is well
    formed, has sent nothing and has broadcasting switched on. *)
Theorem init_spec {Sk : Type} `{!Socket Sk} d p b c :
  match init (Sk:=Sk) d p b c with
  | Ok self =>
      seq self = 0 ∧ dst self = d ∧ port self = p ∧ brightness self = 8 - b ∧
      controlb self = c ∧ universe self = 3 ∧ hdr self = artdmx_header ∧
      outbox self = [] ∧ sock_broadcast (sock self) = true ∧ wf self
  | Raise e => e = OSError ∧ sock_socket (Sk:=Sk) = Raise OSError
  end.
Proof.
  destruct (init d p b c) as [self|e] eqn:Hi.
  - pose proof (init_outbox _ _ _ _ _ Hi) as Hout. pose proof (init_wf _ _ _ _ _ Hi) as Hwf.
    apply init_Ok in Hi as (s & _ & ->). do 7 (split; [done |]).
    split; [done |]. split; [|done]. simpl. by rewrite sock_setsockopt_flag.
  - apply init_Raise in Hi. by pose proof (sock_socket_Raise _ Hi) as ->.
Qed.

(** C6. Every object reached from [__init__] by calls that returned
    satisfies the invariant: it is well formed, header, universe and
    destination are the initial ones, the sequence counter is the number
    of datagrams sent modulo 256, and the i-th datagram sent carries
    sequence number [i mod 256] and 60 payload bytes. *)
Theorem sender_invariant {Sk : Type} `{!Socket Sk} d p b c (self0 self : obj Sk) :
  init d p b c = Ok self0 → rtc step self0 self → inv d p self.
Proof. apply reachable_inv. Qed.

Lemma sender_invariant_witness :
  inv "10.20.255.255" 0x1936 (mk_udp_sent demo 10 20 30).
Proof.
  apply (sender_invariant "10.20.255.255" 0x1936 6 false demo); [done |].
  by apply (run_rtc demo [RGB 10 20 30]).
Defined.

(** C26. Every datagram a sender has sent starts with the tag
    ["Art-Net\0"] and the four marker bytes, carries at offset 12 its
    index modulo 256 (sequence numbers have no gap), is 78 bytes long,
    holds only bytes and went to the destination of the constructor. *)
Theorem sent_datagram_shape {Sk : Type} `{!Socket Sk} d p b c (self0 self : obj Sk) i dg :
  init d p b c = Ok self0 → rtc step self0 self → outbox self !! i = Some dg →
  take 12 dg.1 = artdmx_header ∧
  dg.1 !! 12%nat = Some (Z.of_nat i `mod` 256) ∧
  length dg.1 = 78%nat ∧ Forall is_byte dg.1 ∧ dg.2 = (d, p).
Proof.
  intros H0 Hrtc Hi.
  destruct (reachable_inv _ _ _ _ _ _ H0 Hrtc) as (_ & _ & _ & _ & _ & _ & Hall).
  destruct (Hall i dg Hi) as (payload & -> & Hlen & Hb). simpl.
  split; [done |]. split; [done |]. split; [by rewrite Hlen |]. split; [|done].
  solve_Forall. done.
Qed.

Lemma sent_datagram_shape_witness :
  take 12 (frame demo (rgb_payload 10 20 30), (dst demo, port demo)).1 = artdmx_header ∧
  (frame demo (rgb_payload 10 20 30), (dst demo, port demo)).1 !! 12%nat
  = Some (Z.of_nat 0 `mod` 256) ∧
  length (frame demo (rgb_payload 10 20 30), (dst demo, port demo)).1 = 78%nat ∧
  Forall is_byte (frame demo (rgb_payload 10 20 30), (dst demo, port demo)).1 ∧
  (frame demo (rgb_payload 10 20 30), (dst demo, port demo)).2 = ("10.20.255.255"%string, 0x1936).
Proof.
  apply (sent_datagram_shape "10.20.255.255" 0x1936 6 false demo
           (mk_udp_sent demo 10 20 30) 0).
  - done.
  - by apply (run_rtc demo [RGB 10 20 30]).
  - done.
Defined.

(** C7. After [n] calls that returned, whichever of the two methods each
    was, the sequence counter is [(seq + n) mod 256]: it goes up by one
    per call and wraps. *)
Theorem seq_wraps {Sk : Type} `{!Socket Sk} (self self' : obj Sk) cs :
  wf self → run self cs = Ok self' →
  seq self' = (seq self + Z.of_nat (length cs)) `mod` 256.
Proof.
  intros (Hseq & _) [?|[-> ->]]%run_seq; [done |].
  simpl. unfold is_byte in Hseq. lia.
Qed.

Lemma seq_wraps_witness :
  seq (mk_udp_sent demo 1 2 3) = (seq demo + Z.of_nat (length [RGB 1 2 3])) `mod` 256.
Proof. apply (seq_wraps demo (mk_udp_sent demo 1 2 3) [RGB 1 2 3]); [apply demo_wf | done]. Defined.

(** After 256 calls that returned the sequence counter is back at
    its initial value. *)
Theorem seq_period_256 {Sk : Type} `{!Socket Sk} (self self' : obj Sk) cs :
  wf self → length cs = 256%nat → run self cs = Ok self' → seq self' = seq self.
Proof.
  intros Hwf Hlen [Hs|[-> _]]%run_seq; [|done].
  destruct Hwf as (Hseq & _). unfold is_byte in Hseq. rewrite Hs, Hlen. lia.
Qed.

Lemma seq_period_256_witness :
  seq (from_result demo (run demo (replicate 256 (WA 0 0)))) = seq demo.
Proof.
  apply (seq_period_256 demo _ (replicate 256 (WA 0 0)));
    [apply demo_wf | by rewrite length_replicate |].
  apply is_Ok_from_result, (udp_run_total "10.20.255.255" 0x1936);
    [by compute | apply (inv_init _ _ _ _ _ demo_init) | done | by apply Forall_replicate].
Defined.

(** C2. The datagrams of a sequence of calls on a fresh sender are, in
    order, the expected ones: call number [i] gives the header, sequence
    number [i mod 256], universe 3, length 60 and the payload of the
    call, sent to the destination of the constructor. *)
Theorem run_trace {Sk : Type} `{!Socket Sk} d p b c cs (self' : obj Sk) :
  (self ← init d p b c; run self cs) = Ok self' →
  outbox self' = imap (expected d p 0) cs.
Proof.
  intros (self & Hi & [_ Hout]%(run_outbox d p))%bind_Ok; [|by eapply inv_init].
  by rewrite (init_outbox _ _ _ _ _ Hi) in Hout.
Qed.

Lemma run_trace_witness :
  outbox (mk_udp_sent demo 10 20 30)
  = imap (expected "10.20.255.255" 0x1936 0) [RGB 10 20 30].
Proof. by apply (run_trace "10.20.255.255" 0x1936 6 false [RGB 10 20 30]). Defined.

(** C27. A call on a well-formed object raises [ValueError] exactly
    when an argument is not a byte, [OverflowError] exactly when the
    arguments are bytes and the stored port is outside 0..65535, and
    [OSError] exactly when the arguments are bytes, the port is one and
    [sendto] raises it; it raises nothing else: [struct.error] cannot
    occur. *)
Theorem send_raises {Sk : Type} `{!Socket Sk} (self : obj Sk) c e :
  wf self →
  exec self c = Raise e ↔
  (e = ValueError ∧ ¬ cmd_ok c) ∨
  (e = OverflowError ∧ cmd_ok c ∧ ¬ is_port (port self)) ∨
  (e = OSError ∧ cmd_ok c ∧ is_port (port self) ∧
   sock_sendto (sock self) (frame self (payload_of c)) (dst self, port self) = Raise OSError).
Proof.
  intros Hwf. split.
  - intros He. destruct (exec_Raise_cases self c e Hwf He) as [?|[?|(-> & Hc & Hp)]];
      [by left | right; by left |].
    do 2 right. by apply exec_Raise in He as [[? _]|[_ ?]].
  - intros [[-> ?]|[(-> & ? & ?)|(-> & ? & _ & ?)]].
    + apply exec_Raise; auto.
    + by apply exec_bad_port.
    + apply exec_Raise; auto.
Qed.

Lemma send_raises_witness :
  exec demo (RGB 256 0 0) = Raise ValueError ↔
  (ValueError = ValueError ∧ ¬ cmd_ok (RGB 256 0 0)) ∨
  (ValueError = OverflowError ∧ cmd_ok (RGB 256 0 0) ∧ ¬ is_port (port demo)) ∨
  (ValueError = OSError ∧ cmd_ok (RGB 256 0 0) ∧ is_port (port demo) ∧
   sock_sendto (sock demo) (frame demo (payload_of (RGB 256 0 0))) (dst demo, port demo)
   = Raise OSError).
Proof. apply (send_raises demo (RGB 256 0 0) ValueError), demo_wf. Defined.

(** C28. [__init__] stores the port it is given unchecked.  A sender
    created with a port outside 0..65535 is well formed, and every call
    of it with byte arguments raises [OverflowError]: it never sends a
    datagram, and the only object it ever is is the one [__init__]
    returned. *)
Theorem port_unchecked {Sk : Type} `{!Socket Sk} d p b c0 (self0 self : obj Sk) c :
  ¬ is_port p → init d p b c0 = Ok self0 → rtc step self0 self → cmd_ok c →
  self = self0 ∧ wf self ∧ port self = p ∧ outbox self = [] ∧ seq self = 0 ∧
  exec self c = Raise OverflowError.
Proof.
  intros Hp Hi ->%(bad_port_stuck d p b c0) Hc; [|done..].
  pose proof (init_wf _ _ _ _ _ Hi) as Hwf. pose proof (init_outbox _ _ _ _ _ Hi) as Hout.
  apply init_Ok in Hi as (s & _ & ->). do 5 (split; [done |]).
  by apply exec_bad_port.
Qed.

Lemma port_unchecked_witness :
  with_port 70000 demo = with_port 70000 demo ∧ wf (with_port 70000 demo) ∧
  port (with_port 70000 demo) = 70000 ∧ outbox (with_port 70000 demo) = [] ∧
  seq (with_port 70000 demo) = 0 ∧
  exec (with_port 70000 demo) (RGB 1 2 3) = Raise OverflowError.
Proof.
  apply (port_unchecked "10.20.255.255" 70000 6 false (with_port 70000 demo) _ (RGB 1 2 3));
    [unfold is_port; lia | done | done | done].
Defined.

(** On a datagram socket every sequence of calls with byte arguments
    on a sender freshly constructed with a port in 0..65535 returns: the
    constructor has switched broadcasting on and a datagram is 78
    bytes. *)
Theorem udp_send_total d p b c cs :
  is_port p → Forall cmd_ok cs →
  is_Ok (self ← init (Sk:=udp) d p b c; run self cs).
Proof.
  intros Hp Hcs. apply (udp_run_total d p); [done | by apply (inv_init d p b c) | done | done].
Qed.

Lemma udp_send_total_witness :
  is_Ok (self ← init (Sk:=udp) "255.255.255.255" 0x1936 6 true; run self [RGB 1 2 3; WA 4 5]).
Proof.
  apply (udp_send_total "255.255.255.255" 0x1936 6 true [RGB 1 2 3; WA 4 5]).
  - by compute.
  - by apply (bool_decide_unpack _); vm_compute.
Defined.

(** C31. What [__init__] sets on the socket lasts as long as the
    object: every object reached from [__init__] by calls that returned
    has broadcasting switched on, whatever the socket and however many
    datagrams have been sent. *)
Theorem broadcast_kept {Sk : Type} `{!Socket Sk} d p b c (self0 self : obj Sk) :
  init d p b c = Ok self0 → rtc step self0 self → sock_broadcast (sock self) = true.
Proof. apply reachable_broadcast. Qed.

Lemma broadcast_kept_witness :
  sock_broadcast (sock (mk_udp_sent demo 10 20 30)) = true.
Proof.
  apply (broadcast_kept "10.20.255.255" 0x1936 6 false demo); [done |].
  by apply (run_rtc demo [RGB 10 20 30]).
Defined.

(** The stored [brightness] and [controlb] are never read: a call on
    an object with another configuration sends the same datagram and
    returns the same object up to these two attributes. *)
Theorem exec_with_config {Sk : Type} `{!Socket Sk} (self : obj Sk) br cb c :
  exec (with_config br cb self) c = with_config br cb <$> exec self c.
Proof. rewrite !exec_transmit. apply transmit_with_config. Qed.

(** C33. A receiver that parses the datagram of a call gets back the
    sequence number of the object before the call, physical port 0, the
    universe and the payload. *)
Theorem parse_sent {Sk : Type} `{!Socket Sk} (self self' : obj Sk) c :
  wf self → hdr self = artdmx_header → exec self c = Ok self' →
  ∃ dg, last (outbox self') = Some dg ∧
    parse dg.1 = Some (seq self, 0, universe self, payload_of c).
Proof.
  intros Hwf Hh Hc. eexists. rewrite (exec_outbox self c self' Hwf Hc), last_snoc.
  split; [done |]. by apply parse_frame_eq.
Qed.

Lemma parse_sent_witness :
  ∃ dg, last (outbox (mk_udp_sent demo 10 20 30)) = Some dg ∧
    parse dg.1 = Some (seq demo, 0, universe demo, payload_of (RGB 10 20 30)).
Proof.
  apply (parse_sent demo (mk_udp_sent demo 10 20 30) (RGB 10 20 30));
    [apply demo_wf | done | done].
Defined.

End ArtNet.
