(* ===== verification/Session.v ===== *)
(** * The sender session: what the class [ArtNet] promises

    The specification describes the datagram sender as a session: a
    sequence counter that wraps at 256 and a destination, with two send
    operations that emit one datagram each.  [session] is that machine,
    with no socket, no header attribute and no configuration: a call
    with byte arguments to a port either appends its datagram and
    increments the counter, or fails in the network and changes
    nothing.  [refines] relates an object of the class to a session, and
    the theorems show that the class implements the session: the object
    [__init__] returns refines the initial session and every call does
    what the session allows.  On a datagram socket the converse holds
    too: every session run without a network failure is the run of the
    class.

    The second part is the equivalence of objects that differ in the
    stored configuration only, which no method reads: it is respected by
    every operation, so it can be rewritten with. *)

From S2P Require Import Prelude PyBuiltins Socket ArtNet.

(** ** The session *)

Record session : Type := mk_session {
  s_seq : Z;
  s_sent : list datagram
}.

#[global] Instance session_eq_dec : EqDecision session.
Proof. solve_decision. Defined.

Definition session0 : session := mk_session 0 [].

Section session.
Context (d : string) (p : Z).
Implicit Types (s : session) (c : ArtNet.cmd) (cs : list ArtNet.cmd).

(** The datagram of a call at sequence number [n]. *)
Definition dgram (n : Z) c : datagram :=
  (ArtNet.artdmx_header ++ [n; 0; 3; 0; 0; 60] ++ ArtNet.payload_of c, (d, p)).

(** The session after a call that sent its datagram. *)
Definition sent s c : session :=
  mk_session ((s_seq s + 1) `mod` 256) (s_sent s ++ [dgram (s_seq s) c]).

(** What a call may do. *)
Inductive send s c : result session → Prop :=
| send_Ok : ArtNet.cmd_ok c → is_port p → send s c (Ok (sent s c))
| send_bad_arg : ¬ ArtNet.cmd_ok c → send s c (Raise ValueError)
| send_bad_port : ArtNet.cmd_ok c → ¬ is_port p → send s c (Raise OverflowError)
| send_failed : ArtNet.cmd_ok c → is_port p → send s c (Raise OSError).

(** The same as a function of whether the network takes the datagram. *)
Definition session_send (net_ok : bool) s c : result session :=
  if decide (ArtNet.cmd_ok c) then
    if decide (is_port p) then (if net_ok then Ok (sent s c) else Raise OSError)
    else Raise OverflowError
  else Raise ValueError.

(** A sequence of calls stops at the first that raises. *)
Inductive sends s : list ArtNet.cmd → result session → Prop :=
| sends_nil : sends s [] (Ok s)
| sends_cons c cs s' r : send s c (Ok s') → sends s' cs r → sends s (c :: cs) r
| sends_raise c cs e : send s c (Raise e) → sends s (c :: cs) (Raise e).

(** The invariant of a session: the counter is the number of datagrams
    sent modulo 256, and the i-th datagram is that of a call at sequence
    number [i mod 256]. *)
Definition session_inv s : Prop :=
  s_seq s = Z.of_nat (length (s_sent s)) `mod` 256 ∧
  ∀ i dg, s_sent s !! i = Some dg →
    ∃ c, ArtNet.cmd_ok c ∧ dg = dgram (Z.of_nat i `mod` 256) c.

(** ** Lemmas on sessions *)

Lemma send_session_send s c r : send s c r ↔ ∃ net_ok, session_send net_ok s c = r.
Proof.
  unfold session_send. split.
  - intros [Hc Hp|Hc|Hc Hp|Hc Hp]; [exists true | exists true | exists true | exists false];
      repeat case_decide; done.
  - intros [net_ok <-]. repeat case_decide; [destruct net_ok | |]; by constructor.
Qed.

#[global] Instance send_dec s c r : Decision (send s c r).
Proof.
  refine (cast_if (decide (session_send true s c = r ∨ session_send false s c = r)));
    rewrite send_session_send.
  - destruct_or!; by eexists.
  - intros [[] ?]; auto.
Defined.

Lemma send_Ok_inv s c s' : send s c (Ok s') → ArtNet.cmd_ok c ∧ is_port p ∧ s' = sent s c.
Proof. by inversion 1. Qed.

Lemma session_inv_0 : session_inv session0.
Proof. by split. Qed.

Lemma session_inv_sent s c : ArtNet.cmd_ok c → session_inv s → session_inv (sent s c).
Proof.
  intros Hc [Hseq Hall]. split; simpl.
  - rewrite Hseq, length_app. simpl length. lia.
  - intros i dg [[_ Hi]|[Hi [= <-]]]%lookup_snoc_Some; [by apply Hall |].
    exists c. by rewrite Hi, Hseq.
Qed.

Lemma sends_Ok_foldl s cs s' :
  sends s cs (Ok s') ↔ Forall ArtNet.cmd_ok cs ∧ (cs = [] ∨ is_port p) ∧ s' = foldl sent s cs.
Proof.
  revert s. induction cs as [|c cs IH]; intros s.
  - split; [inversion 1; auto | intros (_ & _ & ->); constructor].
  - split.
    + intros H. inversion H as [|c' cs' s1 r Hsend Hrest|]; subst.
      apply send_Ok_inv in Hsend as (Hc & Hp & ->). apply IH in Hrest as (Hcs & _ & ->).
      split; [by constructor | by split; [right |]].
    + intros ([Hc Hcs]%Forall_cons & [[=]|Hp] & ->).
      econstructor; [by constructor |]. apply IH. by split; [| split; [right |]].
Qed.

Lemma sends_inv s cs s' : session_inv s → sends s cs (Ok s') → session_inv s'.
Proof.
  intros Hs (Hcs & _ & ->)%sends_Ok_foldl. revert s Hs.
  induction Hcs as [|c cs Hc _ IH]; intros s Hs; [done |].
  by apply IH, session_inv_sent.
Qed.

(** ** The class implements the session *)

Section refinement.
Context {Sk : Type} `{!Socket Sk}.
Implicit Types (self : ArtNet.obj Sk).

(** The session of an object. *)
Definition refines self s : Prop :=
  ArtNet.hdr self = ArtNet.artdmx_header ∧ ArtNet.universe self = 3 ∧
  ArtNet.dst self = d ∧ ArtNet.port self = p ∧
  ArtNet.seq self = s_seq s ∧ is_byte (s_seq s) ∧ ArtNet.outbox self = s_sent s.

Lemma refines_wf self s : refines self s → ArtNet.wf self.
Proof.
  intros (Hh & Hu & _ & _ & Hs & Hb & _). split; [by rewrite Hs |].
  split; [by rewrite Hu |]. rewrite Hh. by apply (bool_decide_unpack _); vm_compute.
Qed.

Lemma refines_frame self s c :
  refines self s →
  (ArtNet.frame self (ArtNet.payload_of c), (ArtNet.dst self, ArtNet.port self))
  = dgram (s_seq s) c.
Proof.
  intros (Hh & Hu & Hd & Hp & Hs & _). unfold ArtNet.frame, dgram.
  by rewrite Hh, Hu, Hd, Hp, Hs, ArtNet.payload_of_length.
Qed.

Lemma init_refines b (cb : bool) self :
  ArtNet.init d p b cb = Ok self → refines self session0.
Proof.
  intros Hi. pose proof (ArtNet.init_outbox _ _ _ _ _ Hi) as Hout.
  apply ArtNet.init_Ok in Hi as (sk & _ & ->). by repeat split.
Qed.

(** The invariant of the session is the invariant of its objects. *)
Lemma refines_inv self s : refines self s → session_inv s → ArtNet.inv d p self.
Proof.
  intros Hr [Hseq Hall]. split; [by eapply refines_wf |].
  destruct Hr as (Hh & Hu & Hd & Hp & Hs & _ & Ho).
  do 4 (split; [done |]). rewrite Ho, Hs. split; [done |].
  intros i dg (c & Hc & ->)%Hall. exists (ArtNet.payload_of c).
  split; [done |]. split; [apply ArtNet.payload_of_length | by apply ArtNet.payload_of_bytes].
Qed.

(** A call that returns has sent the datagram of the session. *)
Lemma exec_Ok_refines self s c self' :
  refines self s → ArtNet.exec self c = Ok self' →
  ArtNet.cmd_ok c ∧ is_port p ∧ refines self' (sent s c).
Proof.
  intros Hr Hc. pose proof (refines_wf _ _ Hr) as Hwf.
  pose proof (ArtNet.exec_outbox _ _ _ Hwf Hc) as Hout.
  pose proof (ArtNet.exec_seq _ _ _ Hc) as Hseq.
  rewrite (refines_frame _ s) in Hout by done.
  destruct Hr as (Hh & Hu & Hd & Hp & Hs & Hb & Ho).
  apply ArtNet.exec_Ok in Hc as (Hok & sock' & Hsend & ->); [|done].
  apply sock_sendto_Ok_port in Hsend. simpl in Hsend. rewrite Hp in Hsend.
  do 2 (split; [done |]). repeat split; simpl; try done.
  - by rewrite Hs.
  - apply Z.mod_pos_bound. lia.
  - apply Z.mod_pos_bound. lia.
  - by rewrite Hout, Ho.
Qed.

(** One call: what the object does, the session allows. *)
Lemma exec_refines self s c :
  refines self s → ∃ r, send s c r ∧ result_rel refines (ArtNet.exec self c) r.
Proof.
  intros Hr. destruct (ArtNet.exec self c) as [self'|e] eqn:Hc.
  - destruct (exec_Ok_refines self s c self' Hr Hc) as (Hok & Hp & Hr').
    exists (Ok (sent s c)). split; by constructor.
  - exists (Raise e). split; [|constructor].
    pose proof Hr as (_ & _ & _ & Hp & _).
    apply ArtNet.exec_Raise_cases in Hc as [[-> ?]|[(-> & ? & ?)|(-> & ? & ?)]];
      [| | | by eapply refines_wf]; rewrite ?Hp in *; by constructor.
Qed.

(** A sequence of calls. *)
Lemma run_refines self s cs :
  refines self s → ∃ r, sends s cs r ∧ result_rel refines (ArtNet.run self cs) r.
Proof.
  revert self s. induction cs as [|c cs IH]; intros self s Hr.
  { exists (Ok s). split; by constructor. }
  destruct (exec_refines self s c Hr) as (r1 & Hsend & Hrel). simpl.
  destruct Hrel as [self1 s1 Hr1|e]; simpl.
  - destruct (IH self1 s1 Hr1) as (r & Hsends & Hrel). exists r. split; [|done].
    by econstructor.
  - exists (Raise e). split; [by constructor | constructor].
Qed.

(** Every object reached from [__init__] stands for a session that
    satisfies the invariant, which gives the invariant of the class
    again, by way of the session. *)
Lemma reachable_session b (cb : bool) self0 self :
  ArtNet.init d p b cb = Ok self0 → rtc ArtNet.step self0 self →
  ∃ s, refines self s ∧ session_inv s.
Proof.
  intros Hi%init_refines Hrtc.
  cut (∃ s, refines self s ∧ session_inv s); [done |].
  revert Hrtc. apply (rtc_invariant ArtNet.step (λ self, ∃ s, refines self s ∧ session_inv s)).
  - intros self1 self2 (s & Hr & Hs) Hst. destruct Hst as [self1 c self2 Hc].
    destruct (exec_Ok_refines _ s c _ Hr Hc) as (Hok & _ & Hr').
    exists (sent s c). split; [done | by apply session_inv_sent].
  - exists session0. split; [done | apply session_inv_0].
Qed.

Lemma reachable_inv_session b (cb : bool) self0 self :
  ArtNet.init d p b cb = Ok self0 → rtc ArtNet.step self0 self → ArtNet.inv d p self.
Proof.
  intros Hi Hrtc. destruct (reachable_session b cb self0 self Hi Hrtc) as (s & Hr & Hs).
  by eapply refines_inv.
Qed.

End refinement.

(** ** On a datagram socket the session is implemented exactly *)

Lemma udp_exec_sent (self : ArtNet.obj udp) s c :
  refines self s → udp_broadcast (ArtNet.sock self) = true →
  ArtNet.cmd_ok c → is_port p →
  ∃ self', ArtNet.exec self c = Ok self' ∧ refines self' (sent s c) ∧
    udp_broadcast (ArtNet.sock self') = true.
Proof.
  intros Hr Hb Hc Hp. pose proof (refines_wf _ _ Hr) as Hwf.
  pose proof Hr as (_ & _ & _ & Hport & _).
  pose proof (f_equal fst (refines_frame self s c Hr)) as Hf. simpl in Hf.
  assert (∃ self', ArtNet.exec self c = Ok self' ∧ udp_broadcast (ArtNet.sock self') = true)
    as (self' & He & Hb').
  { eexists. rewrite ArtNet.exec_Ok by done.
    split; [split; [done |]; eexists; split; [|done] |].
    - apply (udp_sendto_total (ArtNet.sock self)); [simpl; by rewrite Hport | done |].
      rewrite Hf. simpl length. rewrite ArtNet.payload_of_length. by compute.
    - done. }
  exists self'. split; [done |]. split; [|done].
  by apply (exec_Ok_refines self s c self').
Qed.

Lemma udp_run_sent (self : ArtNet.obj udp) s cs :
  refines self s → udp_broadcast (ArtNet.sock self) = true →
  Forall ArtNet.cmd_ok cs → is_port p →
  result_rel refines (ArtNet.run self cs) (Ok (foldl sent s cs)).
Proof.
  intros Hr Hb Hcs Hp. revert self s Hr Hb.
  induction Hcs as [|c cs Hc _ IH]; intros self s Hr Hb; [by constructor |].
  destruct (udp_exec_sent self s c) as (self1 & H1 & Hr1 & Hb1); [done..|].
  simpl. rewrite H1. by apply IH.
Qed.

End session.

(** ** Objects up to the stored configuration *)

Section config.
Context {Sk : Type} `{!Socket Sk}.
Implicit Types (self : ArtNet.obj Sk) (c : ArtNet.cmd) (cs : list ArtNet.cmd).

(** Two objects are equivalent when they agree on every attribute but
    [brightness] and [controlb]. *)
#[global] Instance obj_equiv : Equiv (ArtNet.obj Sk) := λ self1 self2,
  ArtNet.with_config 0 false self1 = ArtNet.with_config 0 false self2.

#[global] Instance obj_equivalence : Equivalence (≡@{ArtNet.obj Sk}).
Proof.
  unfold equiv, obj_equiv. split; [by intros ? | by intros ?? | by intros ??? -> ->].
Qed.

Lemma obj_equiv_fields self1 self2 :
  self1 ≡ self2 ↔
  ArtNet.seq self1 = ArtNet.seq self2 ∧ ArtNet.dst self1 = ArtNet.dst self2 ∧
  ArtNet.port self1 = ArtNet.port self2 ∧ ArtNet.sock self1 = ArtNet.sock self2 ∧
  ArtNet.universe self1 = ArtNet.universe self2 ∧ ArtNet.hdr self1 = ArtNet.hdr self2.
Proof.
  unfold equiv, obj_equiv, ArtNet.with_config. split.
  - by intros [= -> -> -> -> -> ->].
  - by intros (-> & -> & -> & -> & -> & ->).
Qed.

Lemma with_config_equiv br cb self : ArtNet.with_config br cb self ≡ self.
Proof. done. Qed.

#[global] Instance seq_proper : Proper ((≡) ==> (=)) (ArtNet.seq (Sk:=Sk)).
Proof. by intros ?? (? & _)%obj_equiv_fields. Qed.

#[global] Instance outbox_proper : Proper ((≡) ==> (=)) (ArtNet.outbox (Sk:=Sk)).
Proof. intros ?? (_ & _ & _ & Hs & _)%obj_equiv_fields. unfold ArtNet.outbox. by rewrite Hs. Qed.

#[global] Instance refines_proper d p :
  Proper ((≡) ==> (=) ==> iff) (refines (Sk:=Sk) d p).
Proof.
  intros self1 self2 (Hq & Hd & Hp & Hs & Hu & Hh)%obj_equiv_fields s ? <-.
  unfold refines, ArtNet.outbox. by rewrite Hq, Hd, Hp, Hs, Hu, Hh.
Qed.

(** A call does not look at the configuration. *)
Lemma exec_config br cb self c :
  ArtNet.exec (ArtNet.with_config br cb self) c ≡ ArtNet.exec self c.
Proof. rewrite ArtNet.exec_with_config. by destruct (ArtNet.exec self c); constructor. Qed.

#[global] Instance exec_proper : Proper ((≡) ==> (=) ==> (≡)) (ArtNet.exec (Sk:=Sk)).
Proof.
  intros self1 self2 Heq c ? <-.
  rewrite <-(exec_config 0 false self1), <-(exec_config 0 false self2).
  unfold equiv, obj_equiv in Heq. by rewrite Heq.
Qed.

#[global] Instance run_proper : Proper ((≡) ==> (=) ==> (≡)) (ArtNet.run (Sk:=Sk)).
Proof.
  intros self1 self2 Heq cs ? <-. revert self1 self2 Heq.
  induction cs as [|c cs IH]; intros self1 self2 Heq; simpl; [by constructor |].
  apply (result_rel_bind (≡) (≡)); [by rewrite Heq | done].
Qed.

(** The constructor gives equivalent objects whatever it stores. *)
Lemma init_equiv d p b cb b' cb' :
  ArtNet.init (Sk:=Sk) d p b cb ≡ ArtNet.init d p b' cb'.
Proof. unfold ArtNet.init. by destruct sock_socket; constructor. Qed.

End config.

(** ** Theorems *)

(** C12. The class implements the sender session of the specification:
    the object [__init__] returns stands for the session that has sent
    nothing at sequence number 0, and whatever a sequence of calls on it
    does, the session allows: the same exception, raised by the same
    call, or an object that stands for the session the calls lead to. *)
Theorem sender_refines {Sk : Type} `{!Socket Sk} d p b cb (self : ArtNet.obj Sk) cs :
  ArtNet.init d p b cb = Ok self →
  refines d p self session0 ∧
  ∃ r, sends d p session0 cs r ∧ result_rel (refines d p) (ArtNet.run self cs) r.
Proof.
  intros Hr%init_refines. split; [done |]. by apply run_refines.
Qed.

Lemma sender_refines_witness :
  refines "10.20.255.255" 0x1936 ArtNet.demo session0 ∧
  ∃ r, sends "10.20.255.255" 0x1936 session0 [ArtNet.RGB 10 20 30; ArtNet.WA 256 0] r ∧
    result_rel (refines "10.20.255.255" 0x1936)
      (ArtNet.run ArtNet.demo [ArtNet.RGB 10 20 30; ArtNet.WA 256 0]) r.
Proof.
  by apply (sender_refines "10.20.255.255" 0x1936 6 false ArtNet.demo
              [ArtNet.RGB 10 20 30; ArtNet.WA 256 0]).
Defined.

(** C30. On a datagram socket the class does exactly what the session
    does when the network takes every datagram: a sender constructed
    with a port in 0..65535 runs every sequence of calls with byte
    arguments to its end, and the object it leaves stands for the
    session after these calls. *)
Theorem udp_session d p b cb cs :
  is_port p → Forall ArtNet.cmd_ok cs →
  result_rel (refines d p)
    (self ← ArtNet.init (Sk:=udp) d p b cb; ArtNet.run self cs)
    (Ok (foldl (sent d p) session0 cs)).
Proof.
  intros Hp Hcs. destruct (ArtNet.init (Sk:=udp) d p b cb) as [self|e] eqn:Hi; [|done].
  rewrite bind_Ok_l. apply udp_run_sent; [by eapply init_refines | | done | done].
  by apply ArtNet.init_Ok in Hi as (sk & [= <-] & ->).
Qed.

Lemma udp_session_witness :
  result_rel (refines "255.255.255.255" 0x1936)
    (self ← ArtNet.init (Sk:=udp) "255.255.255.255" 0x1936 6 true;
     ArtNet.run self [ArtNet.RGB 1 2 3; ArtNet.WA 4 5])
    (Ok (foldl (sent "255.255.255.255" 0x1936) session0 [ArtNet.RGB 1 2 3; ArtNet.WA 4 5])).
Proof.
  apply (udp_session "255.255.255.255" 0x1936 6 true [ArtNet.RGB 1 2 3; ArtNet.WA 4 5]).
  - by compute.
  - by apply (bool_decide_unpack _); vm_compute.
Defined.

(** C34. The stored [brightness] and [controlb] are never read: senders
    constructed with different values of them are equivalent, stay so
    under every sequence of calls, raise the same exceptions and send
    the same datagrams. *)
Theorem config_unused {Sk : Type} `{!Socket Sk} d p b cb b' cb' cs :
  (self ← ArtNet.init (Sk:=Sk) d p b cb; ArtNet.run self cs)
  ≡ (self ← ArtNet.init d p b' cb'; ArtNet.run self cs) ∧
  ArtNet.outbox <$> (self ← ArtNet.init (Sk:=Sk) d p b cb; ArtNet.run self cs)
  = ArtNet.outbox <$> (self ← ArtNet.init d p b' cb'; ArtNet.run self cs).
Proof.
  assert ((self ← ArtNet.init (Sk:=Sk) d p b cb; ArtNet.run self cs)
          ≡ (self ← ArtNet.init d p b' cb'; ArtNet.run self cs)) as Heq.
  { apply (result_rel_bind (≡) (≡)); [apply init_equiv |].
    intros self1 self2 Hs. by rewrite Hs. }
  split; [done |]. apply result_rel_eq.
  apply (result_rel_fmap (≡) (=) _ _ _ _ Heq). intros self1 self2 Hs. by rewrite Hs.
Qed.
