(* ===== verification/Driver.v ===== *)
(** * The demonstration: the [__main__] block

    The block creates a sender and is from then on a straight-line
    program over that sender and the clock: [time.sleep] advances the
    clock, a send leaves it alone.  The world
    also records the clock at each send ([stamps]), which no statement of
    the source reads: it is there to state how long each colour is held.
    [main] follows the block statement by statement; [demo_cmds] is the
    list of the 516 calls it makes, as a reference. *)

From S2P Require Import Prelude PyBuiltins Socket ArtNet.

Section driver.
Context {Sk : Type} `{!Socket Sk}.

(** ** State *)

Record world : Type := mk_world {
  art : ArtNet.obj Sk;
  clock : Z;
  stamps : list Z
}.

(** ** Statements *)

(** [art.sendrgb(r, g, b)] *)
Definition do_sendrgb (w : world) (r g b : Z) : result world :=
  a ← ArtNet.sendrgb (art w) r g b;
  Ok (mk_world a (clock w) (stamps w ++ [clock w])).

(** [art.sendwa(w, a)] *)
Definition do_sendwa (w : world) (wh am : Z) : result world :=
  a ← ArtNet.sendwa (art w) wh am;
  Ok (mk_world a (clock w) (stamps w ++ [clock w])).

(** [time.sleep(secs)] *)
Definition sleep (w : world) (secs : Z) : world :=
  mk_world (art w) (clock w + secs) (stamps w).

(** [for i in items: body]: stops at the first iteration that raises. *)
Fixpoint for_each (items : list Z) (body : world → Z → result world)
    (w : world) : result world :=
  match items with
  | [] => Ok w
  | i :: items => w' ← body w i; for_each items body w'
  end.

(** ** The block *)

(** The world once the sender is created: the clock starts at 0. *)
Definition world0 (a : ArtNet.obj Sk) : world := mk_world a 0 [].

Definition main : result world :=
  a ← ArtNet.init "10.20.255.255" ArtNet.default_port ArtNet.default_brightness false;
  let w := world0 a in
  w ← do_sendrgb w 255 255 255;
  let w := sleep w 1 in
  w ← do_sendrgb w 0 255 255;
  let w := sleep w 1 in
  w ← do_sendrgb w 0 0 255;
  let w := sleep w 1 in
  w ← do_sendrgb w 0 255 0;
  let w := sleep w 1 in
  w ← do_sendrgb w 255 0 0;
  let w := sleep w 1 in
  w ← do_sendwa w 255 255;
  let w := sleep w 1 in
  w ← for_each (py_range 0 255 1) (λ w i, do_sendwa w i 0) w;
  for_each (py_range 0 255 1) (λ w i, do_sendwa w 0 i) w.

(** ** Reference definitions *)

(** The calls of the block, in order. *)
Definition demo_cmds : list ArtNet.cmd :=
  [ArtNet.RGB 255 255 255; ArtNet.RGB 0 255 255; ArtNet.RGB 0 0 255;
   ArtNet.RGB 0 255 0; ArtNet.RGB 255 0 0; ArtNet.WA 255 255] ++
  ((λ i, ArtNet.WA i 0) <$> py_range 0 255 1) ++
  ((λ i, ArtNet.WA 0 i) <$> py_range 0 255 1).

(** The clock at each call: one second apart for the six colours, then
    no delay. *)
Definition demo_stamps : list Z := [0; 1; 2; 3; 4; 5] ++ replicate 510 6.

(** The block as a list of statements. *)
Inductive stmt : Type :=
| Send (c : ArtNet.cmd)
| Sleep (secs : Z).

Definition main_stmts : list stmt :=
  [Send (ArtNet.RGB 255 255 255); Sleep 1; Send (ArtNet.RGB 0 255 255); Sleep 1;
   Send (ArtNet.RGB 0 0 255); Sleep 1; Send (ArtNet.RGB 0 255 0); Sleep 1;
   Send (ArtNet.RGB 255 0 0); Sleep 1; Send (ArtNet.WA 255 255); Sleep 1] ++
  ((λ i, Send (ArtNet.WA i 0)) <$> py_range 0 255 1) ++
  ((λ i, Send (ArtNet.WA 0 i)) <$> py_range 0 255 1).

Fixpoint run_stmts (w : world) (ss : list stmt) : result world :=
  match ss with
  | [] => Ok w
  | Send c :: ss =>
      a ← ArtNet.exec (art w) c;
      run_stmts (mk_world a (clock w) (stamps w ++ [clock w])) ss
  | Sleep secs :: ss => run_stmts (sleep w secs) ss
  end.

(** The calls, the total sleep and the stamps of a list of statements
    started at clock [t]. *)
Definition cmds_of (ss : list stmt) : list ArtNet.cmd :=
  omap (λ s, match s with Send c => Some c | Sleep _ => None end) ss.

Fixpoint stamps_of (t : Z) (ss : list stmt) : list Z :=
  match ss with
  | [] => []
  | Send _ :: ss => t :: stamps_of t ss
  | Sleep secs :: ss => stamps_of (t + secs) ss
  end.

Definition sleep_of (ss : list stmt) : Z :=
  foldr (λ s t, match s with Send _ => t | Sleep secs => secs + t end) 0 ss.

(** The block: the sender is created, then the statements run. *)
Definition run_main (ss : list stmt) : result world :=
  a ← ArtNet.init "10.20.255.255" ArtNet.default_port ArtNet.default_brightness false;
  run_stmts (world0 a) ss.

(** ** Lemmas *)

Lemma run_stmts_app w ss1 ss2 :
  run_stmts w (ss1 ++ ss2) = w' ← run_stmts w ss1; run_stmts w' ss2.
Proof.
  revert w. induction ss1 as [|[c|secs] ss1 IH]; intros w; simpl; [done | | apply IH].
  destruct (ArtNet.exec (art w) c); simpl; [apply IH | done].
Qed.

Lemma for_each_stmts (f : Z → ArtNet.cmd) body items w :
  (∀ w i, body w i =
     a ← ArtNet.exec (art w) (f i); Ok (mk_world a (clock w) (stamps w ++ [clock w]))) →
  for_each items body w = run_stmts w ((λ i, Send (f i)) <$> items).
Proof.
  intros Hbody. revert w. induction items as [|i items IH]; intros w; [done |].
  simpl. rewrite Hbody. destruct (ArtNet.exec (art w) (f i)); simpl; [apply IH | done].
Qed.

Lemma send_rgb_stmt w r g b (k : world → result world) ss :
  (∀ w', k w' = run_stmts w' ss) →
  (w' ← do_sendrgb w r g b; k w') = run_stmts w (Send (ArtNet.RGB r g b) :: ss).
Proof.
  intros Hk. unfold do_sendrgb. cbn [run_stmts ArtNet.exec].
  destruct (ArtNet.sendrgb (art w) r g b); [apply Hk | done].
Qed.

Lemma send_wa_stmt w wh am (k : world → result world) ss :
  (∀ w', k w' = run_stmts w' ss) →
  (w' ← do_sendwa w wh am; k w') = run_stmts w (Send (ArtNet.WA wh am) :: ss).
Proof.
  intros Hk. unfold do_sendwa. cbn [run_stmts ArtNet.exec].
  destruct (ArtNet.sendwa (art w) wh am); [apply Hk | done].
Qed.

Lemma ramps_stmts w (ss1 ss2 : list Z) :
  (w' ← for_each ss1 (λ w i, do_sendwa w i 0) w;
   for_each ss2 (λ w i, do_sendwa w 0 i) w') =
  run_stmts w (((λ i, Send (ArtNet.WA i 0)) <$> ss1) ++
               ((λ i, Send (ArtNet.WA 0 i)) <$> ss2)).
Proof.
  rewrite run_stmts_app, (for_each_stmts (λ i, ArtNet.WA i 0)) by done.
  destruct (run_stmts w _) as [w'|e]; [|done].
  apply (for_each_stmts (λ i, ArtNet.WA 0 i)). done.
Qed.

Lemma sleep_stmt w secs ss :
  run_stmts w (Sleep secs :: ss) = run_stmts (sleep w secs) ss.
Proof. done. Qed.

Lemma main_stmts_eq : main = run_main main_stmts.
Proof.
  unfold main, run_main, main_stmts. destruct (ArtNet.init _ _ _ _) as [a|e]; [|done].
  rewrite !bind_Ok_l. cbv zeta. cbn [app].
  do 5 (apply send_rgb_stmt; intros ?; rewrite sleep_stmt).
  apply send_wa_stmt; intros ?; rewrite sleep_stmt.
  apply ramps_stmts.
Qed.

Lemma run_stmts_art w ss : art <$> run_stmts w ss = ArtNet.run (art w) (cmds_of ss).
Proof.
  revert w. induction ss as [|[c|secs] ss IH]; intros w; simpl;
    [done | | exact (IH (sleep w secs))].
  destruct (ArtNet.exec (art w) c); simpl; [apply IH | done].
Qed.

Lemma run_stmts_time w ss w' :
  run_stmts w ss = Ok w' →
  clock w' = clock w + sleep_of ss ∧ stamps w' = stamps w ++ stamps_of (clock w) ss.
Proof.
  revert w. induction ss as [|[c|secs] ss IH]; intros w; simpl.
  - intros [= <-]. by rewrite Z.add_0_r, app_nil_r.
  - intros (a & _ & [Hc Hs]%IH)%bind_Ok. simpl in *.
    by rewrite Hc, Hs, <-app_assoc.
  - intros [Hc Hs]%IH. simpl in *. rewrite Hc, Hs. split; [lia | done].
Qed.

Lemma main_cmds : cmds_of main_stmts = demo_cmds.
Proof. by vm_compute. Qed.

Lemma main_stamps : stamps_of 0 main_stmts = demo_stamps ∧ sleep_of main_stmts = 6.
Proof. by vm_compute. Qed.

End driver.

Arguments world Sk : clear implicits.

(** ** Theorems *)

Lemma main_run {Sk : Type} `{!Socket Sk} :
  art <$> main =
  a ← ArtNet.init "10.20.255.255" 0x1936 6 false; ArtNet.run a demo_cmds.
Proof.
  rewrite main_stmts_eq. unfold run_main.
  change ArtNet.default_port with 0x1936. change ArtNet.default_brightness with 6.
  destruct (ArtNet.init _ _ _ _) as [a|e]; [|done].
  by rewrite !bind_Ok_l, run_stmts_art, main_cmds.
Qed.

(** A block that went past its first line has created its sender. *)
Lemma main_Ok_init {Sk : Type} `{!Socket Sk} (w : world Sk) :
  main = Ok w →
  ∃ a, ArtNet.init "10.20.255.255" 0x1936 6 false = Ok a ∧
    run_stmts (world0 a) main_stmts = Ok w.
Proof. rewrite main_stmts_eq. intros (a & Hi & Hr)%bind_Ok. by exists a. Qed.

Lemma demo_cmds_ok : Forall ArtNet.cmd_ok demo_cmds.
Proof. by apply (bool_decide_unpack _); vm_compute. Qed.

Lemma main_udp_Ok : is_Ok (main (Sk:=udp)).
Proof.
  pose proof (ArtNet.udp_run_total "10.20.255.255" 0x1936 ArtNet.demo demo_cmds) as [a Ha].
  - by compute.
  - apply (ArtNet.inv_init _ _ _ _ _ ArtNet.demo_init).
  - done.
  - apply demo_cmds_ok.
  - pose proof (main_run (Sk:=udp)) as Hm. rewrite ArtNet.demo_init, bind_Ok_l, Ha in Hm.
    destruct main; [by eexists | done].
Qed.

(** A network that fails after three datagrams: the block stops at its
    fourth call. *)
Lemma main_flaky : main (Socket0:=flaky_socket 3) = Raise OSError.
Proof. by vm_compute. Qed.

(** A system with no socket left: the block stops at its first line. *)
Lemma main_no_socket : main (Socket0:=no_socket) = Raise OSError.
Proof. done. Qed.

(** C29. The block makes exactly the 516 calls of [demo_cmds], in order,
    on a sender constructed for 10.20.255.255: five colours, one
    white-and-amber flash, then [sendwa(i, 0)] and [sendwa(0, i)] for i
    from 0 to 254; it stops when the constructor raises and at the first
    call that raises. *)
Theorem main_calls {Sk : Type} `{!Socket Sk} :
  art <$> main =
  a ← ArtNet.init "10.20.255.255" 0x1936 6 false; ArtNet.run a demo_cmds.
Proof. apply main_run. Qed.

(** What a block that ran to its end has sent, and when. *)
Lemma main_Ok_outbox {Sk : Type} `{!Socket Sk} (w : world Sk) :
  main = Ok w →
  ArtNet.inv "10.20.255.255" 0x1936 (art w) ∧
  ArtNet.outbox (art w) = imap (ArtNet.expected "10.20.255.255" 0x1936 0) demo_cmds.
Proof.
  intros Hw. pose proof main_run as Hm. rewrite Hw in Hm. symmetry in Hm.
  apply bind_Ok in Hm as (a & Hi & Hrun).
  destruct (ArtNet.run_outbox "10.20.255.255" 0x1936 _ _ _
              (ArtNet.inv_init _ _ _ _ _ Hi) Hrun) as [Hinv Hout].
  by rewrite (ArtNet.init_outbox _ _ _ _ _ Hi), app_nil_l in Hout.
Qed.

Lemma main_Ok_time {Sk : Type} `{!Socket Sk} (w : world Sk) :
  main = Ok w → clock w = 6 ∧ stamps w = demo_stamps.
Proof.
  intros (a & _ & [Hc Hs]%run_stmts_time)%main_Ok_init.
  destruct main_stamps as [Hst Hsl].
  change (clock (world0 a)) with 0 in Hc, Hs. change (stamps (world0 a)) with (@nil Z) in Hs.
  by rewrite Hc, Hs, Hst, Hsl.
Qed.

(** C9. When the block runs to its end it has sent, in order, the 516
    datagrams of its calls with sequence numbers 0, 1, ..., 255, 0, ...
    and leaves the sequence counter at 4. *)
Theorem main_trace {Sk : Type} `{!Socket Sk} (w : world Sk) :
  main = Ok w →
  ArtNet.outbox (art w) = imap (ArtNet.expected "10.20.255.255" 0x1936 0) demo_cmds ∧
  ArtNet.seq (art w) = 4.
Proof.
  intros [(_ & _ & _ & _ & _ & Hseq & _) Hout]%main_Ok_outbox. split; [done |].
  rewrite Hseq, Hout, length_imap. by vm_compute.
Qed.

Lemma main_trace_witness :
  ArtNet.outbox (art (from_result (world0 ArtNet.demo) (main (Sk:=udp))))
  = imap (ArtNet.expected "10.20.255.255" 0x1936 0) demo_cmds ∧
  ArtNet.seq (art (from_result (world0 ArtNet.demo) (main (Sk:=udp)))) = 4.
Proof.
  apply (main_trace (from_result (world0 ArtNet.demo) (main (Sk:=udp)))).
  apply is_Ok_from_result, main_udp_Ok.
Defined.

(** When the block runs to its end six seconds have been slept: the
    six first calls are made one second apart and the 510 calls of the
    two ramps with no delay. *)
Theorem main_timing {Sk : Type} `{!Socket Sk} (w : world Sk) :
  main = Ok w → clock w = 6 ∧ stamps w = demo_stamps.
Proof. apply main_Ok_time. Qed.

Lemma main_timing_witness :
  clock (from_result (world0 ArtNet.demo) (main (Sk:=udp))) = 6 ∧
  stamps (from_result (world0 ArtNet.demo) (main (Sk:=udp))) = demo_stamps.
Proof.
  apply (main_timing (from_result (world0 ArtNet.demo) (main (Sk:=udp)))).
  apply is_Ok_from_result, main_udp_Ok.
Defined.

(** On a datagram socket the block runs to its end: no call raises. *)
Theorem main_returns : is_Ok (main (Sk:=udp)).
Proof. apply main_udp_Ok. Qed.

(** Whatever the socket, the block can only fail with [OSError],
    raised by [socket.socket] or by [sendto]: every argument it passes
    is a byte and the sequence number, universe and length always fit
    their fields, so no call raises [ValueError] or [struct.error]. *)
Theorem main_raises {Sk : Type} `{!Socket Sk} e : main = Raise e → e = OSError.
Proof.
  intros Hm. pose proof main_run as Hr. rewrite Hm in Hr. symmetry in Hr.
  apply bind_Raise in Hr as [Hi|(a & Hi & Hr)].
  - by apply ArtNet.init_Raise, sock_socket_Raise in Hi.
  - apply (ArtNet.run_Raise "10.20.255.255" 0x1936 a demo_cmds);
      [by compute | by eapply ArtNet.inv_init | apply demo_cmds_ok | done].
Qed.

Lemma main_raises_witness : OSError = OSError.
Proof. apply (main_raises (Socket0:=flaky_socket 3) OSError), main_flaky. Defined.
