(* ===== verification/Steps.v ===== *)
(** * The demonstration, one statement at a time

    [Driver.main] runs the [__main__] block as a function.  This file
    gives the same block a transition relation: the first step creates
    the sender, a configuration then holds the world and the statements
    still to run, a step runs the first of them, and the end of the
    block or an exception is a final configuration.  The configuration
    of an exception raised by a call keeps the world it was raised in,
    which a result of [main] does not: it is what a run that failed has
    sent.  The relation is deterministic and every step shortens the
    list of statements, so every run is finite, of this block as of any
    list of statements; [reached] is the invariant of the
    configurations of a run, and what it gives for the block is the
    theorem of this file. *)

From S2P Require Import Prelude PyBuiltins Socket ArtNet Driver.

Section steps.
Context {Sk : Type} `{!Socket Sk}.
Implicit Types (w : world Sk) (ss : list stmt) (e : exn).

(** ** Configurations and steps *)

Inductive config : Type :=
| Start ss
| Failed e
| Running w ss
| Returned w
| Raised w e.

(** The world after a call that returned the sender [a]. *)
Definition sent w (a : ArtNet.obj Sk) : world Sk :=
  mk_world a (clock w) (stamps w ++ [clock w]).

Inductive step : relation config :=
| step_new ss a :
    ArtNet.init "10.20.255.255" ArtNet.default_port ArtNet.default_brightness false = Ok a →
    step (Start ss) (Running (world0 a) ss)
| step_new_raise ss e :
    ArtNet.init "10.20.255.255" ArtNet.default_port ArtNet.default_brightness false
    = Raise e →
    step (Start ss) (Failed e)
| step_send w c ss a :
    ArtNet.exec (art w) c = Ok a →
    step (Running w (Send c :: ss)) (Running (sent w a) ss)
| step_raise w c ss e :
    ArtNet.exec (art w) c = Raise e →
    step (Running w (Send c :: ss)) (Raised w e)
| step_sleep w secs ss :
    step (Running w (Sleep secs :: ss)) (Running (sleep w secs) ss)
| step_return w :
    step (Running w []) (Returned w).

(** The step as a function. *)
Definition next (c : config) : option config :=
  match c with
  | Start ss =>
      Some (match ArtNet.init "10.20.255.255" ArtNet.default_port
                    ArtNet.default_brightness false with
            | Ok a => Running (world0 a) ss
            | Raise e => Failed e
            end)
  | Running w (Send c :: ss) =>
      Some (match ArtNet.exec (art w) c with
            | Ok a => Running (sent w a) ss
            | Raise e => Raised w e
            end)
  | Running w (Sleep secs :: ss) => Some (Running (sleep w secs) ss)
  | Running w [] => Some (Returned w)
  | Failed _ | Returned _ | Raised _ _ => None
  end.

(** The final configuration of a list of statements run in a world. *)
Fixpoint final w ss : config :=
  match ss with
  | [] => Returned w
  | Send c :: ss =>
      match ArtNet.exec (art w) c with
      | Ok a => final (sent w a) ss
      | Raise e => Raised w e
      end
  | Sleep secs :: ss => final (sleep w secs) ss
  end.

(** The final configuration of a block. *)
Definition finish ss : config :=
  match ArtNet.init "10.20.255.255" ArtNet.default_port ArtNet.default_brightness false with
  | Ok a => final (world0 a) ss
  | Raise e => Failed e
  end.

(** The world of a configuration that has one, what its sender has
    sent, and the result of a final configuration. *)
Definition world_of (c : config) : option (world Sk) :=
  match c with
  | Start _ | Failed _ => None
  | Running w _ | Returned w | Raised w _ => Some w
  end.

Definition sent_by (c : config) : list datagram :=
  from_option (λ w, ArtNet.outbox (art w)) [] (world_of c).

Definition outcome (c : config) : option (result (world Sk)) :=
  match c with
  | Start _ | Running _ _ => None
  | Returned w => Some (Ok w)
  | Failed e | Raised _ e => Some (Raise e)
  end.

(** The steps a configuration has left, at most. *)
Definition fuel (c : config) : nat :=
  match c with
  | Start ss => S (S (length ss))
  | Running _ ss => S (length ss)
  | Failed _ | Returned _ | Raised _ _ => 0
  end.

(** The invariant of a run from [Running w0 ss0]: the statements split
    into those run, which returned the world of the configuration, and
    those left; a run that raised did so in the first statement left. *)
Definition reached w0 ss0 (c : config) : Prop :=
  ∃ ss1 ss2, ss0 = ss1 ++ ss2 ∧ Ok <$> world_of c = Some (run_stmts w0 ss1) ∧
    match c with
    | Start _ | Failed _ => False
    | Running _ ss => ss = ss2
    | Returned _ => ss2 = []
    | Raised w e =>
        ∃ cmd ss3, ss2 = Send cmd :: ss3 ∧ ArtNet.exec (art w) cmd = Raise e
    end.

(** ** Lemmas *)

Lemma step_next c c' : step c c' ↔ next c = Some c'.
Proof.
  split.
  - intros [ss a Ha|ss e He|w c0 ss a Ha|w c0 ss e He|w secs ss|w]; simpl;
      by rewrite ?Ha, ?He.
  - destruct c as [ss| |w [|[c0|secs] ss]| |]; simpl; intros [= <-]; try constructor.
    + destruct (ArtNet.init _ _ _ _) eqn:Hi; by constructor.
    + destruct (ArtNet.exec (art w) c0) eqn:Hc; by constructor.
Qed.

Lemma step_deterministic : deterministic step.
Proof. intros c c1 c2 H1%step_next H2%step_next. congruence. Qed.

Lemma step_fuel c c' : step c c' → (fuel c' < fuel c)%nat.
Proof. intros []; simpl; lia. Qed.

Lemma step_sn c : sn step c.
Proof. apply (sn_measure step fuel), step_fuel. Qed.

Lemma final_nf w ss : nf step (final w ss).
Proof.
  revert w. induction ss as [|[c|secs] ss IH]; intros w; simpl; [| |apply IH].
  - by intros [c' Hc%step_next].
  - destruct (ArtNet.exec (art w) c); [apply IH | by intros [c' Hc%step_next]].
Qed.

Lemma final_outcome w ss : outcome (final w ss) = Some (run_stmts w ss).
Proof.
  revert w. induction ss as [|[c|secs] ss IH]; intros w; simpl; [done | | apply IH].
  destruct (ArtNet.exec (art w) c); simpl; [apply IH | done].
Qed.

(** The run of a list of statements, within one step per statement and
    one to return. *)
Lemma final_bsteps w ss : bsteps step (fuel (Running w ss)) (Running w ss) (final w ss).
Proof.
  revert w. induction ss as [|[c|secs] ss IH]; intros w; simpl.
  - eapply bsteps_l; [constructor | apply bsteps_refl].
  - destruct (ArtNet.exec (art w) c) as [a|e] eqn:Hc; simpl.
    + eapply bsteps_l; [by constructor | apply IH].
    + eapply bsteps_l; [by constructor | apply bsteps_refl].
  - eapply bsteps_l; [constructor | apply IH].
Qed.

Lemma final_rtc w ss : rtc step (Running w ss) (final w ss).
Proof. eapply rtc_bsteps_2, final_bsteps. Qed.

(** Every run that cannot go on has ended in [final]. *)
Lemma final_unique w ss c : rtc step (Running w ss) c → nf step c → c = final w ss.
Proof.
  intros Hc Hnf.
  eapply (deterministic_nf_unique step);
    eauto using step_deterministic, final_rtc, final_nf.
Qed.

(** ** The block from its first line *)

Lemma finish_nf ss : nf step (finish ss).
Proof.
  unfold finish. destruct (ArtNet.init _ _ _ _); [apply final_nf |].
  by intros [c' Hc%step_next].
Qed.

Lemma finish_outcome ss : outcome (finish ss) = Some (run_main ss).
Proof.
  unfold finish, run_main. destruct (ArtNet.init _ _ _ _); [apply final_outcome | done].
Qed.

Lemma finish_bsteps ss : bsteps step (fuel (Start ss)) (Start ss) (finish ss).
Proof.
  unfold finish. destruct (ArtNet.init _ _ _ _) as [a|e] eqn:Hi.
  - eapply bsteps_l; [by constructor | apply final_bsteps].
  - eapply bsteps_l; [by constructor | apply bsteps_refl].
Qed.

Lemma finish_unique ss c : rtc step (Start ss) c → nf step c → c = finish ss.
Proof.
  intros Hc Hnf.
  eapply (deterministic_nf_unique step);
    eauto using step_deterministic, finish_nf, rtc_bsteps_2, finish_bsteps.
Qed.

(** A run of the block is at its start, has failed to create the
    sender, or is a run of the statements in the world of the sender
    created. *)
Lemma Start_rtc ss c :
  rtc step (Start ss) c →
  c = Start ss ∨
  (∃ e, ArtNet.init "10.20.255.255" 0x1936 6 false = Raise e ∧ c = Failed e) ∨
  (∃ a, ArtNet.init "10.20.255.255" 0x1936 6 false = Ok a ∧
        rtc step (Running (world0 a) ss) c).
Proof.
  intros [->|(c1 & Hst & Hrtc)]%rtc_inv; [by left | right].
  inversion Hst as [? a Ha|? e He| | | |]; subst; [right; by exists a | left].
  exists e. split; [done |].
  destruct (rtc_inv _ _ Hrtc) as [|(c2 & Hst2%step_next & _)]; done.
Qed.

(** ** The invariant of a run *)

Lemma run_stmts_snoc w ss (s : stmt) :
  run_stmts w (ss ++ [s]) = w' ← run_stmts w ss; run_stmts w' [s].
Proof. apply run_stmts_app. Qed.

Lemma reached_init w0 ss0 : reached w0 ss0 (Running w0 ss0).
Proof. by exists [], ss0. Qed.

Lemma reached_step w0 ss0 c c' : reached w0 ss0 c → step c c' → reached w0 ss0 c'.
Proof.
  intros (ss1 & ss2 & -> & Hrun & Hc) Hst.
  destruct Hst as [ss a Ha|ss e He|w c0 ss a Ha|w c0 ss e He|w secs ss|w];
    simpl in *; [done | done | | | |]; apply (inj Some) in Hrun; symmetry in Hrun; subst.
  - exists (ss1 ++ [Send c0]), ss. rewrite <-app_assoc. split; [done |].
    rewrite run_stmts_snoc, Hrun. simpl. by rewrite Ha.
  - exists ss1, (Send c0 :: ss). rewrite Hrun. do 2 (split; [done |]). by exists c0, ss.
  - exists (ss1 ++ [Sleep secs]), ss. rewrite <-app_assoc. split; [done |].
    by rewrite run_stmts_snoc, Hrun.
  - exists ss1, []. by rewrite Hrun.
Qed.

Lemma reachable_reached w0 ss0 c : rtc step (Running w0 ss0) c → reached w0 ss0 c.
Proof.
  apply (rtc_invariant step (reached w0 ss0)); [apply reached_step | apply reached_init].
Qed.

End steps.

Arguments config Sk : clear implicits.

(** ** The run of the block *)

Section main_run.
Context {Sk : Type} `{!Socket Sk}.
Implicit Types (c : config Sk).

Lemma demo_cmds_length : length demo_cmds = 516%nat.
Proof. by vm_compute. Qed.

(** What holds of every configuration of a run of the statements of
    the block, once the sender is created: the calls split into those
    made and those left, the sender satisfies its invariant and has sent
    the datagrams of the calls made, and an exception was raised by the
    first call left. *)
Lemma main_reached a c :
  ArtNet.init "10.20.255.255" 0x1936 6 false = Ok a →
  rtc step (Running (world0 a) main_stmts) c →
  ∃ w cs1 cs2, world_of c = Some w ∧ demo_cmds = cs1 ++ cs2 ∧
    ArtNet.inv "10.20.255.255" 0x1936 (art w) ∧
    ArtNet.outbox (art w) = imap (ArtNet.expected "10.20.255.255" 0x1936 0) cs1 ∧
    match c with
    | Returned _ => cs2 = []
    | Raised _ e => ∃ cmd cs3, cs2 = cmd :: cs3 ∧ ArtNet.exec (art w) cmd = Raise e
    | _ => True
    end.
Proof.
  intros Hi (ss1 & ss2 & Hss & Hrun & Hc)%reachable_reached.
  destruct (world_of c) as [w|] eqn:Hw; [|done]. apply (inj Some) in Hrun. symmetry in Hrun.
  exists w, (cmds_of ss1), (cmds_of ss2). split; [done |].
  split; [rewrite <-main_cmds, Hss; apply omap_app |].
  pose proof (run_stmts_art (world0 a) ss1) as Hart. rewrite Hrun in Hart.
  symmetry in Hart.
  destruct (ArtNet.run_outbox "10.20.255.255" 0x1936 _ _ _
              (ArtNet.inv_init _ _ _ _ _ Hi) Hart) as [Hinv Hout].
  rewrite (ArtNet.init_outbox _ _ _ _ _ Hi) in Hout. do 2 (split; [done |]).
  destruct c as [ss| |w' ss|w'|w' e]; [done | done | done | by subst ss2 |].
  injection Hw as ->. destruct Hc as (cmd & ss3 & -> & He). by exists cmd, (cmds_of ss3).
Qed.

Lemma trace_prefix (cs1 cs2 : list ArtNet.cmd) :
  demo_cmds = cs1 ++ cs2 →
  imap (ArtNet.expected "10.20.255.255" 0x1936 0) cs1
    `prefix_of` imap (ArtNet.expected "10.20.255.255" 0x1936 0) demo_cmds.
Proof. intros ->. rewrite imap_app. by eexists. Qed.

(** A call of the block that raises raises [OSError]. *)
Lemma raise_in_demo cs1 cmd cs3 (a : ArtNet.obj Sk) e :
  demo_cmds = cs1 ++ cmd :: cs3 → ArtNet.inv "10.20.255.255" 0x1936 a →
  ArtNet.exec a cmd = Raise e → e = OSError.
Proof.
  intros Hcs Hinv He.
  apply (ArtNet.run_Raise "10.20.255.255" 0x1936 a [cmd]); [by compute | done | |].
  - pose proof demo_cmds_ok as Hok. rewrite Hcs in Hok.
    apply Forall_app in Hok as [_ Hok]. apply Forall_cons in Hok as [? _]. by constructor.
  - simpl. by rewrite He.
Qed.

End main_run.

(** ** Theorems *)

(** Runs are finite, whatever the statements are: no run of a list of
    statements is infinite, it reaches its final configuration within
    one step to create the sender, one per statement and one to return,
    a run that cannot go on has ended there, and the result of that
    configuration is the result of the statements run as a function.
    This is a property of the relation, which consumes a list: it holds
    of the block as of any other list of statements. *)
Lemma run_terminates {Sk : Type} `{!Socket Sk} (ss : list stmt) :
  sn step (Start ss) ∧
  bsteps step (2 + length ss) (Start ss) (finish ss) ∧
  (∀ c : config Sk, rtc step (Start ss) c → nf step c → c = finish ss) ∧
  outcome (finish ss) = Some (run_main ss).
Proof.
  split; [apply step_sn | split; [|split]].
  - apply (finish_bsteps ss).
  - apply finish_unique.
  - apply finish_outcome.
Qed.

(** C14. Whatever the socket does and wherever a run of the block has got
    to, what has been sent is a prefix of the 516 datagrams of the
    block, in order: nothing when the sender could not be created, all
    of them when the block has returned, fewer when a call has raised;
    the exception is then [OSError], from [socket.socket] or from
    [sendto], and the calls after the failing one were not made. *)
Theorem main_progress {Sk : Type} `{!Socket Sk} (c : config Sk) :
  rtc step (Start main_stmts) c →
  sent_by c `prefix_of` imap (ArtNet.expected "10.20.255.255" 0x1936 0) demo_cmds ∧
  match c with
  | Start _ | Running _ _ => True
  | Failed e => e = OSError
  | Returned w => length (ArtNet.outbox (art w)) = 516%nat
  | Raised w e => e = OSError ∧ (length (ArtNet.outbox (art w)) < 516)%nat
  end.
Proof.
  intros [->|[(e & Hi & ->)|(a & Hi & Hrtc)]]%Start_rtc.
  - split; [apply prefix_nil | done].
  - split; [apply prefix_nil |]. by apply ArtNet.init_Raise, sock_socket_Raise in Hi.
  - destruct (main_reached a c Hi Hrtc) as (w & cs1 & cs2 & Hw & Hcs & Hinv & Hout & Hc).
    pose proof demo_cmds_length as Hlen. rewrite Hcs, length_app in Hlen.
    unfold sent_by. rewrite Hw. simpl. rewrite Hout. split; [by eapply trace_prefix |].
    destruct c as [ss| |w' ss|w'|w' e]; simplify_eq/=; [done | |].
    + rewrite Hout, length_imap, app_nil_r in *. lia.
    + destruct Hc as (cmd & cs3 & -> & He). rewrite Hout, length_imap. simpl in Hlen.
      split; [by eapply raise_in_demo | lia].
Qed.

(** A network that fails after three datagrams. *)
Definition flaky3 : Socket flaky := flaky_socket 3.

#[local] Existing Instance flaky3.

Lemma main_progress_witness :
  sent_by (finish (Sk:=flaky) main_stmts)
    `prefix_of` imap (ArtNet.expected "10.20.255.255" 0x1936 0) demo_cmds ∧
  match finish (Sk:=flaky) main_stmts with
  | Start _ | Running _ _ => True
  | Failed e => e = OSError
  | Returned w => length (ArtNet.outbox (art w)) = 516%nat
  | Raised w e => e = OSError ∧ (length (ArtNet.outbox (art w)) < 516)%nat
  end.
Proof.
  apply (main_progress (finish (Sk:=flaky) main_stmts)).
  eapply rtc_bsteps_2, finish_bsteps.
Defined.
