(* ===== verification/Fixture.v ===== *)
(** * The fixtures: what the datagrams show

    The program drives twelve fixtures of five channels each, in the
    order red, green, blue, white, amber.  The fixtures are not part of
    the repository; this file models from the specification what a node
    listening on a universe does with a datagram: one that parses and is
    addressed to its universe replaces every channel, any other is
    ignored, and between datagrams the fixtures hold their state.  The
    network may lose, repeat and reorder datagrams: what is delivered is
    any list of datagrams that were sent.

    [demo_show] is the show the demonstration is meant to give, as the
    list of the colours shown with the time of each. *)

From S2P Require Import Prelude PyBuiltins Socket ArtNet Driver.

(** ** Colours and fixtures *)

Record colour : Type := mk_colour {
  red : Z;
  green : Z;
  blue : Z;
  white : Z;
  amber : Z
}.

#[global] Instance colour_eq_dec : EqDecision colour.
Proof. solve_decision. Defined.

Definition off : colour := mk_colour 0 0 0 0 0.

(** The twelve fixtures before the first datagram. *)
Definition dark : list colour := replicate 12 off.

(** The channels of a payload, fixture by fixture. *)
Fixpoint decode (payload : list Z) : list colour :=
  match payload with
  | r :: g :: b :: w :: a :: payload => mk_colour r g b w a :: decode payload
  | _ => []
  end.

(** A node on [universe] receives a datagram. *)
Definition receive (universe : Z) (lights : list colour) (dg : datagram) : list colour :=
  match ArtNet.parse dg.1 with
  | Some (_, _, u, payload) => if decide (u = universe) then decode payload else lights
  | None => lights
  end.

Definition receive_all (universe : Z) (lights : list colour) (dgs : list datagram) :
    list colour :=
  foldl (receive universe) lights dgs.

(** ** The show *)

(** The colour a call asks for: [sendwa(w, a)] puts [a] on the fourth
    channel and [w] on the fifth. *)
Definition colour_of (c : ArtNet.cmd) : colour :=
  match c with
  | ArtNet.RGB r g b => mk_colour r g b 0 0
  | ArtNet.WA w a => mk_colour 0 0 0 a w
  end.

(** The demonstration as it is meant: five colours and a flash of white
    and amber, a second each, then a ramp of amber and a ramp of white
    without delay. *)
Definition demo_show : list (Z * colour) :=
  [(0, mk_colour 255 255 255 0 0); (1, mk_colour 0 255 255 0 0);
   (2, mk_colour 0 0 255 0 0); (3, mk_colour 0 255 0 0 0);
   (4, mk_colour 255 0 0 0 0); (5, mk_colour 0 0 0 255 255)] ++
  ((λ i, (6, mk_colour 0 0 0 0 i)) <$> py_range 0 255 1) ++
  ((λ i, (6, mk_colour 0 0 0 i 0)) <$> py_range 0 255 1).

(** What a world has shown at each send, on a network that loses
    nothing: the time of the send and the fixtures after it. *)
Definition shown {Sk : Type} `{!Socket Sk} (w : world Sk) : list (Z * list colour) :=
  zip (stamps w) (receive 3 dark <$> ArtNet.outbox (art w)).

(** ** Lemmas *)

Lemma decode_payload c : decode (ArtNet.payload_of c) = replicate 12 (colour_of c).
Proof. by destruct c. Qed.

Lemma parse_expected d p base i c :
  ArtNet.parse (ArtNet.expected d p base i c).1
  = Some (Z.of_nat (base + i) `mod` 256, 0, 3, ArtNet.payload_of c).
Proof.
  unfold ArtNet.parse, ArtNet.expected. cbn [fst].
  rewrite take_app_length', drop_app_length' by done.
  rewrite decide_True by done. simpl. by rewrite ArtNet.payload_of_length.
Qed.

Lemma receive_expected lights d p base i c :
  receive 3 lights (ArtNet.expected d p base i c) = replicate 12 (colour_of c).
Proof. unfold receive. by rewrite parse_expected, decide_True, decode_payload. Qed.

Section fixtures.
Context {Sk : Type} `{!Socket Sk}.
Implicit Types (self : ArtNet.obj Sk) (delivered : list datagram).

(** Every datagram of a sender is the datagram of one of its calls. *)
Lemma outbox_expected d p b c0 self0 self :
  ArtNet.init d p b c0 = Ok self0 → rtc ArtNet.step self0 self →
  Forall (λ dg, ∃ i c, dg = ArtNet.expected d p 0 i c) (ArtNet.outbox self).
Proof.
  intros Hi [cs Hcs]%ArtNet.rtc_run.
  destruct (ArtNet.run_outbox d p _ _ _ (ArtNet.inv_init _ _ _ _ _ Hi) Hcs) as [_ Hout].
  rewrite (ArtNet.init_outbox _ _ _ _ _ Hi) in Hout. rewrite Hout. apply Forall_forall.
  intros dg (i & c & -> & _)%elem_of_lookup_imap. eauto.
Qed.

Lemma receive_all_snoc u lights delivered dg :
  receive_all u lights (delivered ++ [dg]) = receive u (receive_all u lights delivered) dg.
Proof. unfold receive_all. by rewrite foldl_app. Qed.

(** The fixtures after any delivery of datagrams of calls. *)
Lemma receive_all_expected d p delivered :
  Forall (λ dg, ∃ i c, dg = ArtNet.expected d p 0 i c) delivered →
  ∃ col, receive_all 3 dark delivered = replicate 12 col ∧
    (delivered = [] → col = off) ∧
    (∀ i c, last delivered = Some (ArtNet.expected d p 0 i c) → col = colour_of c).
Proof.
  destruct delivered as [|dg delivered _] using rev_ind.
  { intros _. exists off. by split. }
  intros [_ (i & c & ->)%Forall_singleton]%Forall_app. exists (colour_of c).
  rewrite receive_all_snoc, receive_expected. split; [done |].
  split; [intros Hnil; by destruct delivered |].
  intros i' c'. rewrite last_snoc. intros Heq%(inj Some).
  apply (f_equal (receive 3 dark)) in Heq. rewrite !receive_expected in Heq.
  by injection Heq.
Qed.

End fixtures.

(** What the fixtures are given by a block that ran to its end. *)
Lemma main_Ok_shown {Sk : Type} `{!Socket Sk} (w : world Sk) :
  main = Ok w → shown w = (λ tc, (tc.1, replicate 12 tc.2)) <$> demo_show.
Proof.
  intros Hw. unfold shown.
  destruct (main_Ok_outbox w Hw) as [_ ->]. destruct (main_Ok_time w Hw) as [_ ->].
  by vm_compute.
Qed.

(** ** Theorems *)

(** C17. Whatever the network loses, repeats or reorders of what a sender
    has sent, the twelve fixtures always show one and the same colour:
    none before the first datagram arrives, and then the colour of the
    call whose datagram arrived last. *)
Theorem fixtures_hold {Sk : Type} `{!Socket Sk} d p b c0 (self0 self : ArtNet.obj Sk)
    (delivered : list datagram) :
  ArtNet.init d p b c0 = Ok self0 → rtc ArtNet.step self0 self →
  Forall (.∈ ArtNet.outbox self) delivered →
  ∃ col, receive_all 3 dark delivered = replicate 12 col ∧
    (delivered = [] → col = off) ∧
    (∀ i c, last delivered = Some (ArtNet.expected d p 0 i c) → col = colour_of c).
Proof.
  intros Hi Hself Hdel. apply (receive_all_expected d p).
  eapply Forall_impl; [done |]. intros dg Hdg. simpl in Hdg.
  by eapply Forall_forall in Hdg; [|by eapply outbox_expected].
Qed.

Lemma fixtures_hold_witness :
  ∃ col,
    receive_all 3 dark
      [ArtNet.expected "10.20.255.255" 0x1936 0 0 (ArtNet.RGB 10 20 30);
       ArtNet.expected "10.20.255.255" 0x1936 0 0 (ArtNet.RGB 10 20 30)]
    = replicate 12 col ∧
    ([ArtNet.expected "10.20.255.255" 0x1936 0 0 (ArtNet.RGB 10 20 30);
      ArtNet.expected "10.20.255.255" 0x1936 0 0 (ArtNet.RGB 10 20 30)] = [] → col = off) ∧
    (∀ i c,
       last [ArtNet.expected "10.20.255.255" 0x1936 0 0 (ArtNet.RGB 10 20 30);
             ArtNet.expected "10.20.255.255" 0x1936 0 0 (ArtNet.RGB 10 20 30)]
       = Some (ArtNet.expected "10.20.255.255" 0x1936 0 i c) → col = colour_of c).
Proof.
  apply (fixtures_hold "10.20.255.255" 0x1936 6 false ArtNet.demo
           (ArtNet.mk_udp_sent ArtNet.demo 10 20 30)).
  - done.
  - by apply (ArtNet.run_rtc ArtNet.demo [ArtNet.RGB 10 20 30]).
  - by apply (bool_decide_unpack _); vm_compute.
Defined.

(** C15. On a network that loses nothing the block gives the show it is
    meant to give: white, cyan, blue, green and red on every fixture, a
    second each, a flash of white and amber for a second, then amber from
    0 to 254 and white from 0 to 254 without delay. *)
Theorem main_show {Sk : Type} `{!Socket Sk} (w : world Sk) :
  main = Ok w → shown w = (λ tc, (tc.1, replicate 12 tc.2)) <$> demo_show.
Proof. apply main_Ok_shown. Qed.

Lemma main_show_witness :
  shown (from_result (world0 ArtNet.demo) (main (Sk:=udp)))
  = (λ tc, (tc.1, replicate 12 tc.2)) <$> demo_show.
Proof.
  apply (main_show (from_result (world0 ArtNet.demo) (main (Sk:=udp)))).
  apply is_Ok_from_result, main_udp_Ok.
Defined.
