(* ===== verification/Script.v ===== *)
(** * The script: the top level of [send_umbrella.py]

    Running or importing the file executes its top level: the [import]
    statements in order, the definitions of [wheel], [rearange],
    [imageToBuffer] and [ArtNet], which have no effect of their own, and
    the block guarded by [if __name__ == "__main__"].  An [import] of a
    module that is not installed raises [ModuleNotFoundError], and a
    [from m import name] of a name the module does not define raises
    [ImportError]; where the modules come from is not modelled beyond
    the installed ones and the names they define.

    The top level is given twice: as the function [script], and as the
    relation [sstep] on [sconfig], which runs one import at a time and
    then the statements of the block with the steps of [Steps];
    [script_run] relates the two.  [requirements] says what the file
    asks of an installation module by module, without the list of its
    statements.  The last theorem puts the parts together: the script,
    the block, the sender, the socket and the fixtures. *)

From stdpp Require Import gmap.
From S2P Require Import Prelude Socket ArtNet Driver Steps Fixture.

(** ** The imports *)

Inductive import_stmt : Type :=
| Import (m : string)
| FromImport (m name : string).

#[global] Instance import_stmt_eq_dec : EqDecision import_stmt.
Proof. solve_decision. Defined.

(** The [import] statements of the file, in order. *)
Definition imports : list import_stmt :=
  [Import "socket"; Import "time"; FromImport "struct" "pack"; FromImport "PIL" "Image";
   Import "os"; FromImport "itertools" "chain"; Import "sys";
   FromImport "colortemp" "colortemp"].

(** The installed modules, each with the names it defines. *)
Definition modules : Type := gmap string (gset string).

(** [import m] and [from m import name] *)
Definition py_import (installed : modules) (s : import_stmt) : result () :=
  match s with
  | Import m =>
      if decide (is_Some (installed !! m)) then Ok () else Raise ModuleNotFoundError
  | FromImport m name =>
      match installed !! m with
      | None => Raise ModuleNotFoundError
      | Some names => if decide (name ∈ names) then Ok () else Raise ImportError
      end
  end.

(** ** Reference definitions *)

Definition import_ok (installed : modules) (s : import_stmt) : Prop :=
  py_import installed s = Ok ().

#[global] Instance import_ok_dec installed s : Decision (import_ok installed s).
Proof. unfold import_ok. apply _. Defined.

(** The module [m] is installed; it is installed and defines [name]. *)
Definition has_module (installed : modules) (m : string) : Prop :=
  is_Some (installed !! m).

Definition provides (installed : modules) (m name : string) : Prop :=
  from_option (λ names, name ∈ names) False (installed !! m).

#[global] Instance has_module_dec installed m : Decision (has_module installed m).
Proof. unfold has_module. apply _. Defined.

#[global] Instance provides_dec installed m name : Decision (provides installed m name).
Proof. unfold provides. destruct (installed !! m); simpl; apply _. Defined.

(** What the file asks of an installation: the modules [socket],
    [time], [os] and [sys], and the names [struct.pack], [PIL.Image],
    [itertools.chain] and [colortemp.colortemp]. *)
Definition requirements (installed : modules) : Prop :=
  has_module installed "socket" ∧ has_module installed "time" ∧
  has_module installed "os" ∧ has_module installed "sys" ∧
  provides installed "struct" "pack" ∧ provides installed "PIL" "Image" ∧
  provides installed "itertools" "chain" ∧ provides installed "colortemp" "colortemp".

#[global] Instance requirements_dec installed : Decision (requirements installed).
Proof. unfold requirements. apply _. Defined.

(** An installation with exactly what the statements [ss] ask for. *)
Definition install (ss : list import_stmt) : modules :=
  foldr (λ s inst,
    match s with
    | Import m => <[m := default ∅ (inst !! m)]> inst
    | FromImport m name => <[m := {[name]} ∪ default ∅ (inst !! m)]> inst
    end) ∅ ss.

(** ** The top level *)

Section script.
Context {Sk : Type} `{!Socket Sk}.
Implicit Types (installed : modules) (name : string) (s : import_stmt)
  (ss pre post : list import_stmt).

(** The result is the world the block leaves, or [None] when the block
    is not run. *)
Definition script installed name : result (option (world Sk)) :=
  _ ← mapM (py_import installed) imports;
  if decide (name = "__main__") then Some <$> main else Ok None.

(** ** The top level, one statement at a time *)

(** The file is importing, with the statements [todo] left; an import
    has raised; the file has been imported as a module and nothing is
    left to run; the block is running. *)
Inductive sconfig : Type :=
| Importing (todo : list import_stmt)
| ImportFailed (e : exn)
| Imported
| Block (c : config Sk).

Inductive sstep installed name : relation sconfig :=
| sstep_import s todo :
    py_import installed s = Ok () →
    sstep installed name (Importing (s :: todo)) (Importing todo)
| sstep_import_raise s todo e :
    py_import installed s = Raise e →
    sstep installed name (Importing (s :: todo)) (ImportFailed e)
| sstep_main :
    name = "__main__" →
    sstep installed name (Importing []) (Block (Start main_stmts))
| sstep_module :
    name ≠ "__main__" →
    sstep installed name (Importing []) Imported
| sstep_block c c' :
    Steps.step c c' →
    sstep installed name (Block c) (Block c').

(** What has been sent in a configuration, and the result of a
    configuration that is final. *)
Definition script_sent (c : sconfig) : list datagram :=
  match c with
  | Block c => sent_by c
  | Importing _ | ImportFailed _ | Imported => []
  end.

Definition script_result (c : sconfig) : option (result (option (world Sk))) :=
  match c with
  | Importing _ => None
  | ImportFailed e => Some (Raise e)
  | Imported => Some (Ok None)
  | Block c => fmap (M:=result) Some <$> outcome c
  end.

(** ** Lemmas *)

Lemma import_ok_Import installed m :
  import_ok installed (Import m) ↔ has_module installed m.
Proof. unfold import_ok, has_module. simpl. by case_decide. Qed.

Lemma import_ok_FromImport installed m name :
  import_ok installed (FromImport m name) ↔ provides installed m name.
Proof.
  unfold import_ok, provides. simpl. destruct (installed !! m); simpl; [|done].
  by case_decide.
Qed.

(** The statements of the file ask for the requirements and for
    nothing else. *)
Lemma requirements_imports installed :
  requirements installed ↔ Forall (import_ok installed) imports.
Proof.
  unfold requirements, imports.
  rewrite !Forall_cons, Forall_nil, !import_ok_Import, !import_ok_FromImport. tauto.
Qed.

Lemma py_import_Raise installed s e :
  py_import installed s = Raise e → e = ModuleNotFoundError ∨ e = ImportError.
Proof.
  destruct s as [m|m name]; simpl; [case_decide; [done | intros [= <-]; by left] |].
  destruct (installed !! m); [case_decide; [done |] |]; intros [= <-]; auto.
Qed.

Lemma imports_Ok installed ss :
  Forall (import_ok installed) ss → mapM (py_import installed) ss = Ok (const () <$> ss).
Proof. apply mapM_result_fmap. Qed.

(** The imports stop at the first that raises. *)
Lemma imports_Raise installed pre s post e :
  Forall (import_ok installed) pre → py_import installed s = Raise e →
  mapM (py_import installed) (pre ++ s :: post) = Raise e.
Proof.
  intros Hpre Hs. induction Hpre as [|s' pre Hs' _ IH]; cbn [app].
  - by rewrite mapM_result_cons, Hs.
  - by rewrite mapM_result_cons, Hs', bind_Ok_l, IH.
Qed.

(** Statements of which one does not succeed have a first that raises. *)
Lemma imports_first_Raise installed ss :
  ¬ Forall (import_ok installed) ss →
  ∃ pre s post e, ss = pre ++ s :: post ∧ Forall (import_ok installed) pre ∧
    py_import installed s = Raise e.
Proof.
  induction ss as [|s ss IH]; intros Hss; [by destruct Hss |].
  destruct (py_import installed s) as [[]|e] eqn:Hs; [|by exists [], s, ss, e].
  destruct IH as (pre & s' & post & e & -> & Hpre & Hs'); [by contradict Hss; constructor |].
  exists (s :: pre), s', post, e. by repeat constructor.
Qed.

Lemma script_Ok installed name :
  Forall (import_ok installed) imports →
  script installed name = if decide (name = "__main__") then Some <$> main else Ok None.
Proof. intros Hall. unfold script. by rewrite imports_Ok. Qed.

Lemma script_Raise installed name pre s post e :
  imports = pre ++ s :: post → Forall (import_ok installed) pre →
  py_import installed s = Raise e → script installed name = Raise e.
Proof. intros Heq Hpre Hs. unfold script. by rewrite Heq, (imports_Raise _ _ _ _ e). Qed.

(** *** Runs of the top level *)

Lemma Importing_red installed name s todo :
  relations.red (sstep installed name) (Importing (s :: todo)).
Proof.
  destruct (py_import installed s) as [[]|e] eqn:Hs; eexists; by econstructor.
Qed.

Lemma Block_rtc installed name c c' :
  rtc Steps.step c c' → rtc (sstep installed name) (Block c) (Block c').
Proof. apply (rtc_congruence Block). by constructor. Qed.

Lemma Block_nf installed name c : nf Steps.step c → nf (sstep installed name) (Block c).
Proof. intros Hc [c' Hst]. inversion Hst; subst. apply Hc. by eexists. Qed.

(** The run of the statements [todo] and of what follows them ends in
    a configuration whose result is the one the function gives. *)
Lemma script_run_from installed name todo :
  ∃ c, rtc (sstep installed name) (Importing todo) c ∧ nf (sstep installed name) c ∧
    script_result c = Some (_ ← mapM (py_import installed) todo;
                            if decide (name = "__main__") then Some <$> main else Ok None).
Proof.
  induction todo as [|s todo (c & Hrun & Hnf & Hres)].
  - rewrite mapM_result_nil, bind_Ok_l. case_decide as Hname.
    + exists (Block (finish main_stmts)). split; [|split].
      * eapply rtc_l; [by constructor |]. eapply Block_rtc, rtc_bsteps_2, finish_bsteps.
      * apply Block_nf, finish_nf.
      * simpl. by rewrite finish_outcome, main_stmts_eq.
    + exists Imported. split; [by apply rtc_once; constructor |].
      split; [|done]. intros [c' Hst]. inversion Hst.
  - rewrite mapM_result_cons. destruct (py_import installed s) as [[]|e] eqn:Hs.
    + exists c. split; [by eapply rtc_l; [constructor |] |]. split; [done |].
      rewrite Hres, bind_Ok_l. by destruct (mapM _ todo).
    + exists (ImportFailed e). split; [by apply rtc_once; constructor |].
      split; [|done]. intros [c' Hst]. inversion Hst.
Qed.

(** The relation runs the file to the result of [script]. *)
Lemma script_run installed name :
  ∃ c, rtc (sstep installed name) (Importing imports) c ∧ nf (sstep installed name) c ∧
    script_result c = Some (script installed name).
Proof. apply script_run_from. Qed.

(** A run whose statement [s] raises is still importing what comes
    before [s], or has failed with what [s] raised. *)
Lemma import_failure_run installed name pre s post e c :
  Forall (import_ok installed) pre → py_import installed s = Raise e →
  rtc (sstep installed name) (Importing (pre ++ s :: post)) c →
  (∃ todo, c = Importing (todo ++ s :: post) ∧ Forall (import_ok installed) todo) ∨
  c = ImportFailed e.
Proof.
  intros Hpre Hs.
  apply (rtc_invariant _ (λ c, (∃ todo, c = Importing (todo ++ s :: post) ∧
                                  Forall (import_ok installed) todo) ∨ c = ImportFailed e));
    [|left; by exists pre].
  clear c. intros c c' [(todo & -> & Htodo)| ->] Hst; [|inversion Hst].
  destruct Htodo as [|s' todo Hs' Htodo]; inversion Hst; simplify_eq/=.
  - congruence.
  - right. congruence.
  - left. by exists todo.
  - unfold import_ok in Hs'. congruence.
Qed.

End script.

(** ** Theorems *)

(** C18. What running or importing the file does, case by case.  The
    file is imported without an effect exactly when the modules [socket],
    [time], [os], [sys] and the names [struct.pack], [PIL.Image],
    [itertools.chain], [colortemp.colortemp] are there and its name is
    not [__main__]; it returns a world exactly when they are there, its
    name is [__main__] and the block returns that world, which has then
    slept six seconds and sent the 516 datagrams of the block; and it
    raises either an import error, when one of them is missing, or the
    [OSError] of the block. *)
Theorem script_spec {Sk : Type} `{!Socket Sk} (installed : modules) name :
  match script (Sk:=Sk) installed name with
  | Ok None => requirements installed ∧ name ≠ "__main__"
  | Ok (Some w) =>
      requirements installed ∧ name = "__main__" ∧ main = Ok w ∧ clock w = 6 ∧
      ArtNet.outbox (art w) = imap (ArtNet.expected "10.20.255.255" 0x1936 0) demo_cmds
  | Raise e =>
      (¬ requirements installed ∧ (e = ModuleNotFoundError ∨ e = ImportError)) ∨
      (requirements installed ∧ name = "__main__" ∧ main = Raise e ∧ e = OSError)
  end.
Proof.
  destruct (decide (requirements installed)) as [Hreq|Hreq].
  - rewrite script_Ok by by apply requirements_imports. case_decide; [|done].
    destruct main as [w|e] eqn:Hm; simpl.
    + by destruct (main_Ok_time w Hm), (main_Ok_outbox w Hm).
    + right. by rewrite (main_raises e Hm) in *.
  - destruct (imports_first_Raise installed imports) as (pre & s & post & e & Heq & Hpre & Hs);
      [by rewrite <-requirements_imports |].
    rewrite (script_Raise _ _ _ _ _ _ Heq Hpre Hs). left. by apply py_import_Raise in Hs.
Qed.

(** C19. The file cannot be run or imported without [colortemp], of which
    it uses nothing: where no module [colortemp] defining the name
    [colortemp] is installed, whatever else is, the file raises
    [ModuleNotFoundError] or [ImportError]; its run never reaches the
    block, so that no sender is created and no datagram sent, and it
    ends in the failed import. *)
Theorem script_import_error {Sk : Type} `{!Socket Sk} (installed : modules) name :
  ¬ provides installed "colortemp" "colortemp" →
  ∃ e, (e = ModuleNotFoundError ∨ e = ImportError) ∧
    script (Sk:=Sk) installed name = Raise e ∧
    ∀ c, rtc (sstep installed name) (Importing imports) c →
      (∀ b, c ≠ Block b) ∧ script_sent c = [] ∧
      (nf (sstep installed name) c → c = ImportFailed e).
Proof.
  intros Hct.
  destruct (imports_first_Raise installed imports) as (pre & s & post & e & Heq & Hpre & Hs).
  { rewrite <-requirements_imports. unfold requirements. tauto. }
  exists e. split; [by eapply py_import_Raise |]. split; [by eapply script_Raise |].
  intros c. rewrite Heq. intros [(todo & -> & _)| ->]%(import_failure_run _ _ _ _ _ e); [|done..].
  do 2 (split; [done |]). intros []. destruct todo; apply Importing_red.
Qed.

Lemma script_import_error_witness :
  ∃ e, (e = ModuleNotFoundError ∨ e = ImportError) ∧
    script (Sk:=udp) (install (take 7 imports)) "__main__" = Raise e ∧
    ∀ c, rtc (sstep (install (take 7 imports)) "__main__") (Importing imports) c →
      (∀ b, c ≠ Block b) ∧ script_sent c = [] ∧
      (nf (sstep (install (take 7 imports)) "__main__") c → c = ImportFailed e).
Proof.
  apply (script_import_error (Sk:=udp) (install (take 7 imports)) "__main__").
  by apply (bool_decide_unpack _); vm_compute.
Defined.

(** Without the module the error is [ModuleNotFoundError], and with a
    module [colortemp] that does not define the name it is
    [ImportError]. *)
Lemma script_colortemp_missing :
  script (Sk:=udp) (install (take 7 imports)) "__main__" = Raise ModuleNotFoundError.
Proof.
  apply (script_Raise _ _ (take 7 imports) (FromImport "colortemp" "colortemp") []).
  - done.
  - by apply (bool_decide_unpack _); vm_compute.
  - by vm_compute.
Qed.

Lemma script_colortemp_no_name :
  script (Sk:=udp) (<["colortemp" := ∅]> (install (take 7 imports))) "__main__"
  = Raise ImportError.
Proof.
  apply (script_Raise _ _ (take 7 imports) (FromImport "colortemp" "colortemp") []).
  - done.
  - by apply (bool_decide_unpack _); vm_compute.
  - by vm_compute.
Qed.

(** C16. From the command line to the lights: where every import
    succeeds and the socket is a datagram socket on a network that
    loses nothing, running the file as a script returns after six
    seconds of sleep and has given the twelve fixtures the show of the
    block: five colours and a flash a second apart, then the two
    ramps. *)
Theorem script_show (installed : modules) :
  Forall (import_ok installed) imports →
  ∃ w, script (Sk:=udp) installed "__main__" = Ok (Some w) ∧
    clock w = 6 ∧
    shown w = (λ tc, (tc.1, replicate 12 tc.2)) <$> demo_show.
Proof.
  intros Hall. rewrite script_Ok, decide_True by done.
  destruct main_udp_Ok as [w Hw]. exists w. rewrite Hw. split; [done |].
  split; [by apply main_Ok_time | by apply main_Ok_shown].
Qed.

Lemma script_show_witness :
  ∃ w, script (Sk:=udp) (install imports) "__main__" = Ok (Some w) ∧
    clock w = 6 ∧
    shown w = (λ tc, (tc.1, replicate 12 tc.2)) <$> demo_show.
Proof.
  apply (script_show (install imports)).
  by apply (bool_decide_unpack _); vm_compute.
Defined.
